(** * The components manager of userver: boot, component loading and shutdown

    A shallow embedding of [core/src/components/manager.cpp].  The manager
    object, the task processor storage and the component context are records;
    the code that mutates them, logs, reads the clock and throws is written
    in a small state-and-exception monad [M].  What the file does not contain
    (the body of a component factory, the hooks of the component context,
    the readings of the coroutine pool, the C++ standard library) is taken
    from an environment record [Env]. *)

From stdpp Require Import base strings gmap list pretty sorting.
From Stdlib Require Import ZArith Lia Ascii.

Local Open Scope Z_scope.

(** ** Exceptions

    The handlers of manager.cpp tell three classes apart:
    [ComponentsLoadCancelledException], any other class derived from
    [std::exception], and everything else (the [catch (...)] clause of the
    boot task). *)

Inductive exn : Type :=
| ComponentsLoadCancelledException (msg : string)
| runtime_error (msg : string)
| logic_error (msg : string)
| invalid_argument (msg : string)
| out_of_range (msg : string)
| other_std_exception (msg : string)
| non_std_exception (tag : string).

Definition what (e : exn) : string :=
  match e with
  | ComponentsLoadCancelledException msg => msg
  | runtime_error msg => msg
  | logic_error msg => msg
  | invalid_argument msg => msg
  | out_of_range msg => msg
  | other_std_exception msg => msg
  | non_std_exception tag => tag
  end.

(** [catch (const std::exception&)] matches every class but the last. *)
Definition is_std_exception (e : exn) : bool :=
  match e with
  | non_std_exception _ => false
  | _ => true
  end.

(** [catch (const ComponentsLoadCancelledException&)]. *)
Definition is_load_cancelled_exception (e : exn) : bool :=
  match e with
  | ComponentsLoadCancelledException _ => true
  | _ => false
  end.

(** ** Logging and observable actions *)

Inductive severity : Type := TRACE | INFO | WARNING | ERROR.

Record log_record : Type := LogRecord { level : severity; text : string }.

Inductive event : Type :=
| PoolsCreated
| PoolsReleased
| TaskProcessorCreated (name : string) (worker_threads : Z)
| TaskProcessorDestroyed (name : string)
| InitiateShutdown (name : string)
| SleepForMs (ms : Z)
| UAssert (holds : bool)
| ContextCreated (loading_component_names : gset string)
| ContextDestroyed
| TaskSpawned (task_name : string)
| TaskGet (task_name : string)
| TaskWait (task_name : string)
| ContextAddComponent (name : string)
| FactoryInvoked (name : string)
| CancelComponentsLoad
| ContextOnAllComponentsLoaded
| ContextClearComponents.

(** ** Configuration (manager_config.hpp, component_config.hpp) *)

Record CoroPoolConfig : Type :=
  { initial_size : Z; max_size : Z; stack_size : Z }.

Record EventThreadPoolConfig : Type :=
  { threads : Z; event_thread_name : string }.

Record TaskProcessorConfig : Type := mkTaskProcessorConfig
  { tp_name : string;
    worker_threads : Z;
    thread_name : string;
    should_guess_cpu_limit : bool }.

(** A component's section of config.yaml: its name and the optional
    booleans that [ParseOptionalBool] reads from it. *)
Record ComponentConfig : Type := mkComponentConfig
  { Name : string;
    bool_fields : gmap string bool }.

Definition ParseOptionalBool (config : ComponentConfig) (key : string)
  : option bool := bool_fields config !! key.

Record ManagerConfig : Type := mkManagerConfig
  { coro_pool : CoroPoolConfig;
    event_thread_pool : EventThreadPoolConfig;
    task_processors : list TaskProcessorConfig;
    default_task_processor : string;
    components : list ComponentConfig }.

(** ** The objects the manager owns *)

Record TaskProcessorPools : Type := mkTaskProcessorPools
  { pools_coro_pool : CoroPoolConfig;
    pools_event_thread_pool : EventThreadPoolConfig }.

Record TaskProcessor : Type := mkTaskProcessor
  { processor_config : TaskProcessorConfig;
    shutdown_initiated : bool }.

(** [task_processor_pools_] is a [std::shared_ptr]: [None] is the empty
    pointer; the strong count of the object it shares lives in the world. *)
Record TaskProcessorsStorage : Type := mkTaskProcessorsStorage
  { task_processor_pools_ : option TaskProcessorPools;
    task_processors_map_ : gmap string TaskProcessor }.

(** Modelled from the spec: the component context (component_context.cpp is
    not part of the sources at hand).  It keeps the expected names, the
    components created so far in creation order, and the cancellation
    flag of section 3. *)
Record ComponentContext : Type := mkComponentContext
  { expected_names : gset string;
    created : list string;
    load_cancelled : bool }.

(** What a factory hands back: the component (of which the manager only
    asks whether it is the logging component) or an exception. *)
Record ComponentBase : Type := mkComponentBase { is_logging : bool }.

Inductive factory_outcome : Type :=
| Constructed (component : ComponentBase)
| FactoryThrows (e : exn).

Definition ComponentFactory : Type :=
  ComponentConfig -> ComponentContext -> factory_outcome.

(** An entry of the component list. *)
Record ComponentAdder : Type := mkComponentAdder
  { GetComponentName : string;
    factory : ComponentFactory }.

Definition ComponentList : Type := list ComponentAdder.

Definition Contains (component_list : ComponentList) (name : string) : bool :=
  bool_decide (name ∈ GetComponentName <$> component_list).

Record Manager : Type := mkManager
  { config_ : ManagerConfig;
    task_processors_storage_ : TaskProcessorsStorage;
    component_context_ : option ComponentContext;
    components_cleared_ : bool;
    default_task_processor_ : option string;
    start_time_ : Z;
    logging_component_ : option string;
    load_duration_ : Z }.

(** ** The world: the manager and what surrounds it *)

Record World : Type := mkWorld
  { manager : Manager;
    pools_use_count : nat;   (* strong references to the shared pools *)
    clock_reads : nat;       (* calls of steady_clock::now() so far *)
    coro_polls : nat;        (* readings of active_coroutines so far *)
    trace : list event;
    log : list log_record }.

(** ** The environment *)

Inductive stod_result (D : Type) : Type :=
| StodValue (value : D) (pos : nat)
| StodInvalidArgument
| StodOutOfRange.
Arguments StodValue {D} value pos.
Arguments StodInvalidArgument {D}.
Arguments StodOutOfRange {D}.

Record Env : Type := mkEnv
  { double : Type;
    stod : string -> stod_result double;      (* std::stod(str, &pos) *)
    lround : double -> Z;                     (* std::lround *)
    getenv_CPU_LIMIT : option string;         (* std::getenv("CPU_LIMIT") *)
    steady_clock : nat -> Z;                  (* k-th reading, nanoseconds *)
    active_coroutines : nat -> nat;           (* k-th reading of the stats *)
    hooks_outcome : list string -> option exn;   (* OnAllComponentsLoaded *)
    clear_outcome : list string -> option string }. (* context ClearComponents *)

(** ** The monad *)

Inductive outcome (A : Type) : Type :=
| Normal (a : A)
| Thrown (e : exn)
| Terminated      (* std::terminate, or a crash *)
| OutOfFuel.      (* a loop of the model ran out of fuel *)
Arguments Normal {A} a.
Arguments Thrown {A} e.
Arguments Terminated {A}.
Arguments OutOfFuel {A}.

Definition M (A : Type) : Type := World -> outcome A * World.

Definition ret {A} (a : A) : M A := fun w => (Normal a, w).

Definition bind {A B} (c : M A) (k : A -> M B) : M B :=
  fun w =>
    match c w with
    | (Normal a, w') => k a w'
    | (Thrown e, w') => (Thrown e, w')
    | (Terminated, w') => (Terminated, w')
    | (OutOfFuel, w') => (OutOfFuel, w')
    end.

Notation "'let*' x := c1 'in' c2" := (bind c1 (fun x => c2))
  (at level 10, x name, c1 at level 100, c2 at level 200).
Notation "c1 >> c2" := (bind c1 (fun _ => c2))
  (at level 100, c2 at level 200, right associativity).

Definition throw {A} (e : exn) : M A := fun w => (Thrown e, w).
Definition terminate {A} : M A := fun w => (Terminated, w).
Definition out_of_fuel {A} : M A := fun w => (OutOfFuel, w).

(** [try { body } catch (...) { handler }]: [handler e] is [None] when no
    clause of the handler matches [e]. *)
Definition try_catch {A} (body : M A) (handler : exn -> option (M A)) : M A :=
  fun w =>
    match body w with
    | (Thrown e, w') =>
        match handler e with
        | Some h => h w'
        | None => (Thrown e, w')
        end
    | r => r
    end.

(** [catch (const std::exception& ex)]. *)
Definition catch_std {A} (handler : exn -> M A) : exn -> option (M A) :=
  fun ex => if is_std_exception ex then Some (handler ex) else None.

(** A function declared [noexcept]: an exception that leaves it ends the
    process. *)
Definition noexcept {A} (body : M A) : M A :=
  fun w =>
    match body w with
    | (Thrown _, w') => (Terminated, w')
    | r => r
    end.

(** *** Primitive effects *)

Definition set_manager (m : Manager) (w : World) : World :=
  {| manager := m; pools_use_count := pools_use_count w;
     clock_reads := clock_reads w; coro_polls := coro_polls w;
     trace := trace w; log := log w |}.

Definition set_pools_use_count (n : nat) (w : World) : World :=
  {| manager := manager w; pools_use_count := n;
     clock_reads := clock_reads w; coro_polls := coro_polls w;
     trace := trace w; log := log w |}.

Definition set_clock_reads (n : nat) (w : World) : World :=
  {| manager := manager w; pools_use_count := pools_use_count w;
     clock_reads := n; coro_polls := coro_polls w;
     trace := trace w; log := log w |}.

Definition set_coro_polls (n : nat) (w : World) : World :=
  {| manager := manager w; pools_use_count := pools_use_count w;
     clock_reads := clock_reads w; coro_polls := n;
     trace := trace w; log := log w |}.

Definition set_trace (t : list event) (w : World) : World :=
  {| manager := manager w; pools_use_count := pools_use_count w;
     clock_reads := clock_reads w; coro_polls := coro_polls w;
     trace := t; log := log w |}.

Definition set_log (l : list log_record) (w : World) : World :=
  {| manager := manager w; pools_use_count := pools_use_count w;
     clock_reads := clock_reads w; coro_polls := coro_polls w;
     trace := trace w; log := l |}.

Definition emit (ev : event) : M unit :=
  fun w => (Normal tt, set_trace (trace w ++ [ev]) w).

Definition LOG (lvl : severity) (message : string) : M unit :=
  fun w => (Normal tt, set_log (log w ++ [LogRecord lvl message]) w).

Definition get_manager : M Manager := fun w => (Normal (manager w), w).

Definition modify_manager (f : Manager -> Manager) : M unit :=
  fun w => (Normal tt, set_manager (f (manager w)) w).

(** *** Field updates of the manager *)

Definition set_task_processors_storage_ (s : TaskProcessorsStorage)
  (m : Manager) : Manager :=
  {| config_ := config_ m; task_processors_storage_ := s;
     component_context_ := component_context_ m;
     components_cleared_ := components_cleared_ m;
     default_task_processor_ := default_task_processor_ m;
     start_time_ := start_time_ m;
     logging_component_ := logging_component_ m;
     load_duration_ := load_duration_ m |}.

Definition set_component_context_ (c : option ComponentContext)
  (m : Manager) : Manager :=
  {| config_ := config_ m;
     task_processors_storage_ := task_processors_storage_ m;
     component_context_ := c;
     components_cleared_ := components_cleared_ m;
     default_task_processor_ := default_task_processor_ m;
     start_time_ := start_time_ m;
     logging_component_ := logging_component_ m;
     load_duration_ := load_duration_ m |}.

Definition set_components_cleared_ (b : bool) (m : Manager) : Manager :=
  {| config_ := config_ m;
     task_processors_storage_ := task_processors_storage_ m;
     component_context_ := component_context_ m;
     components_cleared_ := b;
     default_task_processor_ := default_task_processor_ m;
     start_time_ := start_time_ m;
     logging_component_ := logging_component_ m;
     load_duration_ := load_duration_ m |}.

Definition set_default_task_processor_ (p : option string)
  (m : Manager) : Manager :=
  {| config_ := config_ m;
     task_processors_storage_ := task_processors_storage_ m;
     component_context_ := component_context_ m;
     components_cleared_ := components_cleared_ m;
     default_task_processor_ := p;
     start_time_ := start_time_ m;
     logging_component_ := logging_component_ m;
     load_duration_ := load_duration_ m |}.

Definition set_logging_component_ (c : option string)
  (m : Manager) : Manager :=
  {| config_ := config_ m;
     task_processors_storage_ := task_processors_storage_ m;
     component_context_ := component_context_ m;
     components_cleared_ := components_cleared_ m;
     default_task_processor_ := default_task_processor_ m;
     start_time_ := start_time_ m;
     logging_component_ := c;
     load_duration_ := load_duration_ m |}.

Definition set_load_duration_ (d : Z) (m : Manager) : Manager :=
  {| config_ := config_ m;
     task_processors_storage_ := task_processors_storage_ m;
     component_context_ := component_context_ m;
     components_cleared_ := components_cleared_ m;
     default_task_processor_ := default_task_processor_ m;
     start_time_ := start_time_ m;
     logging_component_ := logging_component_ m;
     load_duration_ := d |}.

(** ** manager.cpp, anonymous namespace *)

Definition kEngineMonitorDataName : string := "engine".

Definition kMaxCpu : Z := 32.

(** [RunInCoro]: whichever of its three branches is taken (already on the
    task processor, on another one, or outside any coroutine), [func] runs
    to its end and its value or exception is handed to the caller.  The
    calls of the engine themselves are taken not to fail. *)
Definition RunInCoro {A} (task_processor : string) (func : M A) : M A := func.

(** [std::string::substr(pos)]: throws [std::out_of_range] past the end. *)
Fixpoint string_drop (pos : nat) (s : string) : option string :=
  match pos, s with
  | O, _ => Some s
  | S _, EmptyString => None
  | S pos', String _ s' => string_drop pos' s'
  end.

Definition substr (s : string) (pos : nat) : M string :=
  match string_drop pos s with
  | Some rest => ret rest
  | None => throw (out_of_range "basic_string::substr")
  end.

Section WithEnv.

Context (env : Env).

Definition call_stod (s : string) : M (double env * nat) :=
  match stod env s with
  | StodValue value pos => ret (value, pos)
  | StodInvalidArgument => throw (invalid_argument "stod")
  | StodOutOfRange => throw (out_of_range "stod")
  end.

(** The [try] block of [GuessCpuLimit]; [Some cpu] is its [return cpu]. *)
Definition GuessCpuLimit_try (tp_name cpu_limit : string) : M (option Z) :=
  let* parsed := call_stod cpu_limit in
  let cpu_f := parsed.1 in
  let end_ := parsed.2 in
  let* suffix := substr cpu_limit end_ in
  if decide (suffix = "c") then
    let cpu := lround env cpu_f in
    if bool_decide (cpu > 0) && bool_decide (cpu < kMaxCpu) then
      let cpu := if bool_decide (cpu < 3) then 3 else cpu in
      LOG INFO ("Using CPU limit from env CPU_LIMIT (" +:+ pretty cpu +:+
                ") for worker_threads " +:+ "of task processor '" +:+
                tp_name +:+ "', ignoring config value ") >>
      ret (Some cpu)
    else ret None
  else ret None.

Definition GuessCpuLimit (tp_name : string) : M (option Z) :=
  match getenv_CPU_LIMIT env with
  | Some cpu_limit =>
      LOG INFO ("CPU_LIMIT='" +:+ cpu_limit +:+ "'") >>
      let* returned :=
        try_catch (GuessCpuLimit_try tp_name cpu_limit)
          (catch_std (fun e =>
             LOG ERROR ("Failed to parse CPU_LIMIT: " +:+ what e) >>
             ret None)) in
      match returned with
      | Some cpu => ret (Some cpu)
      | None =>
          LOG ERROR ("CPU_LIMIT env is invalid (" +:+ cpu_limit +:+
                     "), ignoring it") >>
          ret None
      end
  | None =>
      LOG INFO "CPU_LIMIT env is unset, ignoring it" >>
      ret None
  end.

(** ** The component context

    Section 4.4 of the specification gives the contract of the four
    operations the manager calls. *)

(** A call through [component_context_]: a null pointer cannot be
    dereferenced, the model ends the process there. *)
Definition with_context {A} (f : ComponentContext -> M A) : M A :=
  let* m := get_manager in
  match component_context_ m with
  | Some context => f context
  | None => terminate
  end.

Definition put_context (context : ComponentContext) : M unit :=
  modify_manager (set_component_context_ (Some context)).

(** Modelled from the spec: [AddComponent(name, factory)] registers the
    component, runs the factory and returns the constructed instance; the
    exception of a failing factory leaves through the caller. *)
Definition Context_AddComponent (name : string)
  (run_factory : ComponentContext -> factory_outcome) : M ComponentBase :=
  with_context (fun context =>
    emit (ContextAddComponent name) >>
    emit (FactoryInvoked name) >>
    match run_factory context with
    | Constructed component =>
        put_context
          {| expected_names := expected_names context;
             created := created context ++ [name];
             load_cancelled := load_cancelled context |} >>
        ret component
    | FactoryThrows e => throw e
    end).

(** Modelled from the spec: [CancelComponentsLoad()] sets the cancellation
    flag. *)
Definition Context_CancelComponentsLoad : M unit :=
  with_context (fun context =>
    emit CancelComponentsLoad >>
    put_context
      {| expected_names := expected_names context;
         created := created context;
         load_cancelled := true |}).

(** Modelled from the spec: [OnAllComponentsLoaded()] runs the
    post-construction hooks, which may throw. *)
Definition Context_OnAllComponentsLoaded : M unit :=
  with_context (fun context =>
    emit ContextOnAllComponentsLoaded >>
    match hooks_outcome env (created context) with
    | Some e => throw e
    | None => ret tt
    end).

(** Modelled from the spec: [ClearComponents()] destroys the components,
    which may throw.  [Manager::ClearComponents] is declared [noexcept] and
    handles [std::exception]: the context is taken to throw nothing else
    here, and [clear_outcome] gives the [what()] of what it throws. *)
Definition Context_ClearComponents : M unit :=
  with_context (fun context =>
    emit ContextClearComponents >>
    match clear_outcome env (created context) with
    | Some msg => throw (other_std_exception msg)
    | None =>
        put_context
          {| expected_names := expected_names context;
             created := [];
             load_cancelled := load_cancelled context |}
    end).

(** ** Manager::TaskProcessorsStorage *)

Definition get_storage : M TaskProcessorsStorage :=
  let* m := get_manager in ret (task_processors_storage_ m).

Definition put_storage (s : TaskProcessorsStorage) : M unit :=
  modify_manager (set_task_processors_storage_ s).

Definition get_use_count : M nat := fun w => (Normal (pools_use_count w), w).

Definition put_use_count (n : nat) : M unit :=
  fun w => (Normal tt, set_pools_use_count n w).

(** Modelled from the spec: a task processor shares the pools (it keeps a
    strong reference from its construction to its destruction). *)
Definition new_TaskProcessor (config : TaskProcessorConfig) : M TaskProcessor :=
  let* n := get_use_count in
  put_use_count (S n) >>
  emit (TaskProcessorCreated (tp_name config) (worker_threads config)) >>
  ret {| processor_config := config; shutdown_initiated := false |}.

(** Modelled from the spec: the destruction of a task processor gives its
    reference to the pools back. *)
Definition delete_TaskProcessor (name : string) : M unit :=
  let* n := get_use_count in
  put_use_count (Nat.pred n) >>
  emit (TaskProcessorDestroyed name).

(** Modelled from the spec: [InitiateShutdown()] marks the task processor
    as draining. *)
Definition TaskProcessor_InitiateShutdown (name : string) : M unit :=
  let* s := get_storage in
  emit (InitiateShutdown name) >>
  put_storage
    {| task_processor_pools_ := task_processor_pools_ s;
       task_processors_map_ :=
         alter (fun tp => {| processor_config := processor_config tp;
                             shutdown_initiated := true |})
           name (task_processors_map_ s) |}.

Fixpoint for_each {A} (l : list A) (body : A -> M unit) : M unit :=
  match l with
  | [] => ret tt
  | x :: rest => body x >> for_each rest body
  end.

(** [GetCoroPool().GetStats().active_coroutines] *)
Definition read_active_coroutines : M nat :=
  fun w =>
    (Normal (active_coroutines env (coro_polls w)),
     set_coro_polls (S (coro_polls w)) w).

Definition sleep_for_ms (ms : Z) : M unit := emit (SleepForMs ms).

(** The [while] loop of [Reset]. *)
Fixpoint wait_coroutines_idle (fuel : nat) : M unit :=
  match fuel with
  | O => out_of_fuel
  | S fuel' =>
      let* active := read_active_coroutines in
      if decide (active = 0%nat) then ret tt
      else sleep_for_ms 10 >> wait_coroutines_idle fuel'
  end.

(** [UASSERT]: the condition is evaluated and recorded; execution goes on
    (as in a build without assertions). *)
Definition UASSERT (condition : bool) : M unit := emit (UAssert condition).

Definition Reset (fuel : nat) : M unit :=
  noexcept (
    LOG TRACE "Initiating task processors shutdown" >>
    let* s := get_storage in
    for_each (map_to_list (task_processors_map_ s))
      (fun entry => TaskProcessor_InitiateShutdown entry.1) >>
    LOG TRACE "Waiting for all coroutines to become idle" >>
    match task_processor_pools_ s with
    | None => terminate
    | Some pools =>
        wait_coroutines_idle fuel >>
        LOG TRACE "Stopping task processors" >>
        for_each (map_to_list (task_processors_map_ s))
          (fun entry => delete_TaskProcessor entry.1) >>
        put_storage {| task_processor_pools_ := Some pools;
                       task_processors_map_ := ∅ |} >>
        LOG TRACE "Stopped task processors" >>
        LOG TRACE "Stopping task processor pools" >>
        let* use_count := get_use_count in
        UASSERT (bool_decide (use_count = 1%nat)) >>
        put_use_count (Nat.pred use_count) >>
        emit PoolsReleased >>
        put_storage {| task_processor_pools_ := None;
                       task_processors_map_ := ∅ |} >>
        LOG TRACE "Stopped task processor pools"
    end).

(** [~TaskProcessorsStorage()] *)
Definition TaskProcessorsStorage_dtor (fuel : nat) : M unit :=
  let* s := get_storage in
  match task_processor_pools_ s with
  | Some _ => Reset fuel
  | None => ret tt
  end.

(** [Add]: [emplace] keeps the entry that is already there; the task
    processor that was not inserted is destroyed. *)
Definition Add (name : string) (task_processor : TaskProcessor) : M unit :=
  let* s := get_storage in
  match task_processors_map_ s !! name with
  | Some _ => delete_TaskProcessor name
  | None =>
      put_storage
        {| task_processor_pools_ := task_processor_pools_ s;
           task_processors_map_ :=
             <[name := task_processor]> (task_processors_map_ s) |}
  end.

(** ** Tasks *)

(** Modelled from the spec: section 4.3.  A task stores the value or the
    exception of its body, and its handle stays valid until it is moved
    from. *)
Record TaskWithResult : Type := mkTask
  { task_name : string;
    valid : bool;
    result : unit + exn }.

(** Modelled from the spec: [utils::CriticalAsync] creates the task.  The
    interleaving of the tasks is not modelled: the body runs to its end
    when the task is created, so that what the joiner sees at [Get] is
    fixed by then. *)
Definition CriticalAsync (name : string) (body : M unit) : M TaskWithResult :=
  fun w =>
    match body (set_trace (trace w ++ [TaskSpawned name]) w) with
    | (Normal _, w') =>
        (Normal {| task_name := name; valid := true; result := inl tt |}, w')
    | (Thrown e, w') =>
        (Normal {| task_name := name; valid := true; result := inr e |}, w')
    | (Terminated, w') => (Terminated, w')
    | (OutOfFuel, w') => (OutOfFuel, w')
    end.

(** Modelled from the spec: [Get] waits, then returns the value or
    re-raises the exception. *)
Definition Task_Get (task : TaskWithResult) : M unit :=
  emit (TaskGet (task_name task)) >>
  match result task with
  | inl _ => ret tt
  | inr e => throw e
  end.

(** Modelled from the spec: [Wait] suspends the caller until the task
    completed. *)
Definition Task_Wait (task : TaskWithResult) : M unit :=
  emit (TaskWait (task_name task)).

(** ** Manager *)

Definition GetLoadDuration : M Z :=
  let* m := get_manager in ret (load_duration_ m).

Definition GetStartTime : M Z :=
  let* m := get_manager in ret (start_time_ m).

(** [steady_clock::now()] *)
Definition now : M Z :=
  fun w =>
    (Normal (steady_clock env (clock_reads w)),
     set_clock_reads (S (clock_reads w)) w).

(** [duration_cast<milliseconds>] of a difference of nanosecond readings:
    integer division that truncates. *)
Definition duration_cast_milliseconds (nanoseconds : Z) : Z :=
  nanoseconds `quot` 1000000.

Definition ClearComponents : M unit :=
  noexcept (
    modify_manager (set_components_cleared_ true) >>
    try_catch Context_ClearComponents
      (catch_std (fun ex =>
         LOG ERROR ("error in clear components: " +:+ what ex)))).

Definition AddComponentImpl (config_map : gmap string ComponentConfig)
  (name : string) (factory : ComponentFactory) : M unit :=
  match config_map !! name with
  | None =>
      throw (runtime_error ("Cannot start component " +:+ name +:+
                            ": missing config"))
  | Some config =>
      let enabled := default true (ParseOptionalBool config "load-enabled") in
      if negb enabled then
        LOG INFO ("Component " +:+ name +:+
                  " load disabled in config.yaml, skipping")
      else
        LOG INFO ("Starting component " +:+ name) >>
        let* component :=
          Context_AddComponent name
            (fun component_context => factory config component_context) in
        (if is_logging component
         then modify_manager (set_logging_component_ (Some name))
         else ret tt) >>
        LOG INFO ("Started component " +:+ name)
  end.

(** The call of [adder] on the manager and [component_config_map]: the adder
    of a component passes its name and its factory to [AddComponentImpl]. *)
Definition call_adder (adder : ComponentAdder)
  (config_map : gmap string ComponentConfig) : M unit :=
  AddComponentImpl config_map (GetComponentName adder) (factory adder).

(** The body of the task "boot/<name>". *)
Definition boot_task (adder : ComponentAdder)
  (config_map : gmap string ComponentConfig) : M unit :=
  try_catch (call_adder adder config_map)
    (fun ex =>
       if is_load_cancelled_exception ex then
         Some (LOG WARNING ("Cannot start component " +:+
                            GetComponentName adder +:+ ": " +:+ what ex) >>
               Context_CancelComponentsLoad >>
               throw ex)
       else if is_std_exception ex then
         Some (LOG ERROR ("Cannot start component " +:+
                          GetComponentName adder +:+ ": " +:+ what ex) >>
               Context_CancelComponentsLoad >>
               throw ex)
       else
         Some (Context_CancelComponentsLoad >> throw ex)).

(** The first loop of [AddComponents]; [emplace] keeps the first config
    of a name. *)
Fixpoint collect_component_configs (component_list : ComponentList)
  (configs : list ComponentConfig)
  (component_config_map : gmap string ComponentConfig)
  : M (gmap string ComponentConfig) :=
  match configs with
  | [] => ret component_config_map
  | component_config :: rest =>
      let name := Name component_config in
      if negb (Contains component_list name) then
        ClearComponents >>
        throw (runtime_error
          ("component config is found in config.yaml, but no component with "
           +:+ "such name is registered: '" +:+ name +:+
           "', forgot to register in RegisterUserComponents()?"))
      else
        collect_component_configs component_list rest
          (match component_config_map !! name with
           | Some _ => component_config_map
           | None => <[name := component_config]> component_config_map
           end)
  end.

Fixpoint spawn_boot_tasks (adders : list ComponentAdder)
  (config_map : gmap string ComponentConfig) : M (list TaskWithResult) :=
  match adders with
  | [] => ret []
  | adder :: rest =>
      let task_name := "boot/" +:+ GetComponentName adder in
      let* task := CriticalAsync task_name (boot_task adder config_map) in
      let* tasks := spawn_boot_tasks rest config_map in
      ret (task :: tasks)
  end.

(** The loop over [task.Get()]; the value is [is_load_cancelled]. *)
Fixpoint join_boot_tasks (tasks : list TaskWithResult)
  (is_load_cancelled : bool) : M bool :=
  match tasks with
  | [] => ret is_load_cancelled
  | task :: rest =>
      let* is_load_cancelled :=
        try_catch (Task_Get task >> ret is_load_cancelled)
          (fun ex => if is_load_cancelled_exception ex
                     then Some (ret true) else None) in
      join_boot_tasks rest is_load_cancelled
  end.

Definition wait_boot_tasks (tasks : list TaskWithResult) : M unit :=
  for_each tasks (fun task => if valid task then Task_Wait task else ret tt).

(** [AddComponents], in the two parts its theorems speak of.  The first
    goes up to the creation of the tasks and hands over [start_time] and
    the vector [tasks].  Creating a task does not throw in this model, so
    the vector is complete when the handler of the outer [try] runs. *)
Definition AddComponents_create_tasks (component_list : ComponentList)
  : M (Z * list TaskWithResult) :=
  let* m := get_manager in
  let* component_config_map :=
    collect_component_configs component_list (components (config_ m)) ∅ in
  let* start_time := now in
  let* tasks := spawn_boot_tasks component_list component_config_map in
  ret (start_time, tasks).

Definition AddComponents_join_tasks (start_time : Z)
  (tasks : list TaskWithResult) : M unit :=
  let* is_load_cancelled :=
    try_catch (join_boot_tasks tasks false)
      (catch_std (fun ex =>
         Context_CancelComponentsLoad >>
         wait_boot_tasks tasks >>
         ClearComponents >>
         throw ex)) in
  if is_load_cancelled : bool then
    ClearComponents >>
    throw (logic_error
      ("Components load cancelled, but only ComponentsLoadCancelledExceptions "
       +:+ "were caught"))
  else
    LOG INFO "All components created" >>
    try_catch Context_OnAllComponentsLoaded
      (catch_std (fun ex => ClearComponents >> throw ex)) >>
    let* stop_time := now in
    modify_manager
      (set_load_duration_ (duration_cast_milliseconds (stop_time - start_time)))
    >>
    LOG INFO "All components loaded".

Definition AddComponents (component_list : ComponentList) : M unit :=
  let* created := AddComponents_create_tasks component_list in
  AddComponents_join_tasks created.1 created.2.

(** The loop of [CreateComponentContext] over the component list. *)
Fixpoint collect_loading_component_names (adders : list ComponentAdder)
  (loading_component_names : gset string) : M (gset string) :=
  match adders with
  | [] => ret loading_component_names
  | adder :: rest =>
      let name := GetComponentName adder in
      if decide (name ∈ loading_component_names) then
        let message :=
          "duplicate component name in component_list: " +:+ name in
        LOG ERROR message >>
        throw (runtime_error message)
      else
        collect_loading_component_names rest
          (loading_component_names ∪ {[name]})
  end.

Definition CreateComponentContext (component_list : ComponentList) : M unit :=
  let* loading_component_names :=
    collect_loading_component_names component_list ∅ in
  emit (ContextCreated loading_component_names) >>
  put_context {| expected_names := loading_component_names;
                 created := [];
                 load_cancelled := false |} >>
  AddComponents component_list.

(** The body of the loop of the constructor over [config_->task_processors]. *)
Definition add_task_processor (config : ManagerConfig)
  (processor_config : TaskProcessorConfig) : M unit :=
  let* processor_config :=
    if should_guess_cpu_limit processor_config then
      if decide (default_task_processor config = tp_name processor_config) then
        let* guess_cpu := GuessCpuLimit (tp_name processor_config) in
        match guess_cpu with
        | Some cpu =>
            ret {| tp_name := tp_name processor_config;
                   worker_threads := cpu;
                   thread_name := thread_name processor_config;
                   should_guess_cpu_limit :=
                     should_guess_cpu_limit processor_config |}
        | None => ret processor_config
        end
      else
        LOG ERROR ("guess-cpu-limit is set for non-default task processor ("
                   +:+ tp_name processor_config +:+ "), ignoring it") >>
        ret processor_config
    else ret processor_config in
  let* task_processor := new_TaskProcessor processor_config in
  Add (tp_name processor_config) task_processor.

(** The member initialisers of the constructor. *)
Definition Manager_init (config : ManagerConfig) : M unit :=
  fun w =>
    let start := steady_clock env (clock_reads w) in
    (Normal tt,
     {| manager :=
          {| config_ := config;
             task_processors_storage_ :=
               {| task_processor_pools_ :=
                    Some {| pools_coro_pool := coro_pool config;
                            pools_event_thread_pool :=
                              event_thread_pool config |};
                  task_processors_map_ := ∅ |};
             component_context_ := None;
             components_cleared_ := false;
             default_task_processor_ := None;
             start_time_ := start;
             logging_component_ := None;
             load_duration_ := 0 |};
        pools_use_count := 1;
        clock_reads := S (clock_reads w);
        coro_polls := coro_polls w;
        trace := trace w ++ [PoolsCreated];
        log := log w |}).

Definition Manager_ctor_body (config : ManagerConfig)
  (component_list : ComponentList) : M unit :=
  LOG INFO "Starting components manager" >>
  for_each (task_processors config) (add_task_processor config) >>
  let* s := get_storage in
  match task_processors_map_ s !! default_task_processor config with
  | None =>
      throw (runtime_error
        "Cannot start components manager: missing default task processor")
  | Some _ =>
      modify_manager
        (set_default_task_processor_ (Some (default_task_processor config))) >>
      RunInCoro (default_task_processor config)
        (CreateComponentContext component_list) >>
      LOG INFO "Started components manager"
  end.

(** [component_context_.reset()] *)
Definition reset_component_context : M unit :=
  let* m := get_manager in
  match component_context_ m with
  | Some _ =>
      emit ContextDestroyed >> modify_manager (set_component_context_ None)
  | None => ret tt
  end.

(** The constructor.  When its body throws, the members that were
    constructed are destroyed: the context, then the storage. *)
Definition Manager_ctor (fuel : nat) (config : ManagerConfig)
  (component_list : ComponentList) : M unit :=
  Manager_init config >>
  try_catch (Manager_ctor_body config component_list)
    (fun ex =>
       Some (reset_component_context >>
             TaskProcessorsStorage_dtor fuel >>
             throw ex)).

(** [~Manager()], followed by the destruction of the members. *)
Definition Manager_dtor (fuel : nat) : M unit :=
  noexcept (
    LOG INFO "Stopping components manager" >>
    LOG TRACE "Stopping component context" >>
    let* m := get_manager in
    match default_task_processor_ m with
    | None => terminate
    | Some default_task_processor =>
        try_catch (RunInCoro default_task_processor ClearComponents)
          (catch_std (fun exc =>
             LOG ERROR ("Failed to clear components: " +:+ what exc))) >>
        reset_component_context >>
        LOG TRACE "Stopped component context" >>
        Reset fuel >>
        LOG INFO "Stopped components manager" >>
        TaskProcessorsStorage_dtor fuel
    end).

End WithEnv.

(** ** A reading of the standard library for plain decimal literals

    [std::stod] and [std::lround] on the strings the examples below use:
    optional white space, an optional sign, digits with an optional
    fraction.  The value is kept exact as [mantissa / 10 ^ scale]; on such
    short literals rounding to the nearest integer, halves away from zero,
    does not depend on the binary rounding of the double.  Exponents,
    hexadecimal literals, infinities and NaNs are outside this reading. *)

Module PlainDecimal.

Record decimal : Type := mkDecimal { mantissa : Z; scale : nat }.

Definition digit_of (c : Ascii.ascii) : option Z :=
  let n := Z.of_nat (Ascii.nat_of_ascii c) in
  if bool_decide (48 <= n <= 57) then Some (n - 48) else None.

Definition is_space (c : Ascii.ascii) : bool :=
  let n := Ascii.nat_of_ascii c in
  bool_decide (n = 32%nat) || bool_decide (9 <= n <= 13)%nat.

Fixpoint skip_spaces (s : string) : nat * string :=
  match s with
  | String c rest =>
      if is_space c then
        let r := skip_spaces rest in (S r.1, r.2)
      else (O, s)
  | EmptyString => (O, s)
  end.

(** Reads digits: the value accumulated, how many were read, the rest. *)
Fixpoint read_digits (s : string) (acc : Z) : Z * nat * string :=
  match s with
  | String c rest =>
      match digit_of c with
      | Some d =>
          let r := read_digits rest (10 * acc + d) in
          (r.1.1, S r.1.2, r.2)
      | None => (acc, O, s)
      end
  | EmptyString => (acc, O, s)
  end.

Definition read_sign (s : string) : bool * nat * string :=
  match s with
  | String "-"%char rest => (true, 1%nat, rest)
  | String "+"%char rest => (false, 1%nat, rest)
  | _ => (false, O, s)
  end.

Definition stod (s : string) : stod_result decimal :=
  let '(spaces, s1) := skip_spaces s in
  let '(negative, sign_length, s2) := read_sign s1 in
  let '(integral, integral_digits, s3) := read_digits s2 0 in
  let '(all_digits, fraction_digits, point_length) :=
    match s3 with
    | String "."%char s4 =>
        let '(v, k, _) := read_digits s4 integral in
        if bool_decide (integral_digits + k = 0)%nat
        then (integral, O, O)
        else (v, k, 1%nat)
    | _ => (integral, O, O)
    end in
  if bool_decide (integral_digits + fraction_digits = 0)%nat then
    StodInvalidArgument
  else
    StodValue
      {| mantissa := if negative : bool then - all_digits else all_digits;
         scale := fraction_digits |}
      (spaces + sign_length + integral_digits + point_length
       + fraction_digits).

(** Nearest integer, halves away from zero. *)
Definition lround (d : decimal) : Z :=
  let p := 10 ^ Z.of_nat (scale d) in
  Z.sgn (mantissa d) * ((2 * Z.abs (mantissa d) + p) `div` (2 * p)).

End PlainDecimal.

(** ** Example inputs *)

Module Examples.

(** An environment: [CPU_LIMIT], the clock readings, the readings of the
    coroutine pool, and what the context's hooks and clearing do. *)
Definition env_of (cpu_limit : option string) (clock : nat -> Z)
  (active : nat -> nat) (hooks : option exn) (clear : option string) : Env :=
  {| double := PlainDecimal.decimal;
     stod := PlainDecimal.stod;
     lround := PlainDecimal.lround;
     getenv_CPU_LIMIT := cpu_limit;
     steady_clock := clock;
     active_coroutines := active;
     hooks_outcome := fun _ => hooks;
     clear_outcome := fun _ => clear |}.

(** One millisecond between two readings of the clock. *)
Definition slow_clock (k : nat) : Z := 1000000 * Z.of_nat k.

(** Four hundred microseconds between two readings. *)
Definition fast_clock (k : nat) : Z := 400000 * Z.of_nat k.

(** Two coroutines still active at the first reading, one at the second,
    none from the third on. *)
Definition draining (k : nat) : nat := (2 - k)%nat.

Definition quiet_env : Env :=
  env_of None slow_clock draining None None.

Definition main_processor : TaskProcessorConfig :=
  {| tp_name := "main-task-processor"; worker_threads := 8;
     thread_name := "main-worker"; should_guess_cpu_limit := true |}.

Definition fs_processor : TaskProcessorConfig :=
  {| tp_name := "fs-task-processor"; worker_threads := 2;
     thread_name := "fs-worker"; should_guess_cpu_limit := false |}.

Definition component_config (name : string) : ComponentConfig :=
  {| Name := name; bool_fields := ∅ |}.

Definition disabled_config (name : string) : ComponentConfig :=
  {| Name := name; bool_fields := {["load-enabled" := false]} |}.

Definition config_with (configs : list ComponentConfig) : ManagerConfig :=
  {| coro_pool := {| initial_size := 10; max_size := 100;
                     stack_size := 262144 |};
     event_thread_pool := {| threads := 2; event_thread_name := "event" |};
     task_processors := [main_processor; fs_processor];
     default_task_processor := "main-task-processor";
     components := configs |}.

Definition plain_component : ComponentFactory :=
  fun _ _ => Constructed {| is_logging := false |}.

Definition logging_component : ComponentFactory :=
  fun _ _ => Constructed {| is_logging := true |}.

Definition failing_component (e : exn) : ComponentFactory :=
  fun _ _ => FactoryThrows e.

(** A component that looks up a dependency: once the load is cancelled
    its factory leaves with [ComponentsLoadCancelledException]. *)
Definition dependent_component : ComponentFactory :=
  fun _ context =>
    if load_cancelled context
    then FactoryThrows (ComponentsLoadCancelledException "load cancelled")
    else Constructed {| is_logging := false |}.

Definition adder (name : string) (f : ComponentFactory) : ComponentAdder :=
  {| GetComponentName := name; factory := f |}.

(** The world before the constructor runs. *)
Definition blank_manager (config : ManagerConfig) : Manager :=
  {| config_ := config;
     task_processors_storage_ :=
       {| task_processor_pools_ := None; task_processors_map_ := ∅ |};
     component_context_ := None;
     components_cleared_ := false;
     default_task_processor_ := None;
     start_time_ := 0;
     logging_component_ := None;
     load_duration_ := 0 |}.

Definition blank_world (config : ManagerConfig) : World :=
  {| manager := blank_manager config; pools_use_count := 0;
     clock_reads := 0; coro_polls := 0; trace := []; log := [] |}.

(** The world in which [AddComponents] starts: the context has just been
    created for the names of the component list. *)
Definition loading_world (config : ManagerConfig) (names : list string)
  : World :=
  set_manager
    (set_component_context_
       (Some {| expected_names := list_to_set names; created := [];
                load_cancelled := false |})
       (blank_manager config))
    (blank_world config).

Definition three_configs : ManagerConfig :=
  config_with [component_config "a"; component_config "b";
               component_config "c"].

(** Three components; the second one fails with [e]. *)
Definition three_components (e : exn) : ComponentList :=
  [adder "a" plain_component; adder "b" (failing_component e);
   adder "c" dependent_component].

Definition healthy_components : ComponentList :=
  [adder "a" plain_component; adder "b" logging_component;
   adder "c" dependent_component].

(** [CPU_LIMIT] holds a fraction below one half. *)
Definition fraction_env : Env :=
  env_of (Some "0.4c") slow_clock draining None None.

(** [CPU_LIMIT=2c], and the context's clearing throws. *)
Definition two_cpu_env : Env :=
  env_of (Some "2c") slow_clock draining None (Some "boom").

(** A boot that takes less than a millisecond. *)
Definition quick_env : Env :=
  env_of None fast_clock draining None None.

(** The manager after a boot that succeeded. *)
Definition booted_world (env : Env) : World :=
  (Manager_ctor env 5 three_configs healthy_components
     (blank_world three_configs)).2.

End Examples.

(** ** Vocabulary of the statements *)

(** A task whose [Get] does not leave the joining loop: it returned, or it
    threw [ComponentsLoadCancelledException]. *)
Definition joins_quietly (task : TaskWithResult) : bool :=
  match result task with
  | inl _ => true
  | inr e => is_load_cancelled_exception e
  end.

Definition task_cancelled (task : TaskWithResult) : bool :=
  match result task with
  | inl _ => false
  | inr e => is_load_cancelled_exception e
  end.

(** The map the first loop of [AddComponents] builds when every name is
    registered. *)
Definition emplace_configs (configs : list ComponentConfig)
  (component_config_map : gmap string ComponentConfig)
  : gmap string ComponentConfig :=
  foldl (fun acc config =>
           match acc !! Name config with
           | Some _ => acc
           | None => <[Name config := config]> acc
           end)
        component_config_map configs.

(** Counting from the reading [from], the coroutine pool reports no active
    coroutine for the first time at its [k]-th next reading. *)
Definition first_idle_after (env : Env) (from k : nat) : Prop :=
  (forall j, (j < k)%nat -> active_coroutines env (from + j) <> 0%nat) /\
  active_coroutines env (from + k) = 0%nat.

(** The pools are shared by the storage and by each task processor of its
    map, and by nobody else. *)
Definition pools_shared_by_processors (w : World) : Prop :=
  is_Some (task_processor_pools_ (task_processors_storage_ (manager w))) /\
  pools_use_count w =
    S (size (task_processors_map_ (task_processors_storage_ (manager w)))).

(** The manager after its constructor returned. *)
Definition constructed (w : World) : Prop :=
  pools_shared_by_processors w /\
  is_Some (component_context_ (manager w)) /\
  is_Some (default_task_processor_ (manager w)).

Definition processor_names (w : World) : list string :=
  (map_to_list
     (task_processors_map_ (task_processors_storage_ (manager w)))).*1.

Definition monotone_clock (env : Env) : Prop :=
  forall i j, (i <= j)%nat -> steady_clock env i <= steady_clock env j.

(** The value the amended reading of [CPU_LIMIT] gives: the text is read
    by [std::stod], what follows the number must be exactly ["c"], the
    number is rounded by [std::lround] to [n], and [n] is taken when
    [0 < n < 32], raised to 3 when it is smaller. *)
Definition accepted_cpu_limit_of (env : Env) (cpu_limit : string)
  : option Z :=
  match stod env cpu_limit with
  | StodValue cpu_f pos =>
      if decide (string_drop pos cpu_limit = Some "c") then
        let n := lround env cpu_f in
        if bool_decide (0 < n < 32) then Some (Z.max 3 n) else None
      else None
  | _ => None
  end.

Definition accepted_cpu_limit (env : Env) : option Z :=
  match getenv_CPU_LIMIT env with
  | Some cpu_limit => accepted_cpu_limit_of env cpu_limit
  | None => None
  end.

(** The [worker_threads] a task processor of the configuration is built
    with. *)
Definition effective_worker_threads (env : Env) (config : ManagerConfig)
  (processor_config : TaskProcessorConfig) : Z :=
  if should_guess_cpu_limit processor_config
     && bool_decide (default_task_processor config = tp_name processor_config)
  then default (worker_threads processor_config) (accepted_cpu_limit env)
  else worker_threads processor_config.

(** ** Invariants of the monadic code *)

(** [c] keeps the property [P] of the world, however it ends. *)
Definition preserves {A} (P : World -> Prop) (c : M A) : Prop :=
  forall w r w', P w -> c w = (r, w') -> P w'.

(** What the code that loads the components may change: the trace, the
    log, the component context (which stays in place), and the flags
    [components_cleared_] and [logging_component_]. *)
Record boot_stable (P : World -> Prop) : Prop :=
  { stable_trace : forall w t, P w -> P (set_trace t w);
    stable_log : forall w l, P w -> P (set_log l w);
    stable_context : forall w c,
      P w -> P (set_manager (set_component_context_ (Some c) (manager w)) w);
    stable_cleared : forall w b,
      P w -> P (set_manager (set_components_cleared_ b (manager w)) w);
    stable_logging : forall w c,
      P w -> P (set_manager (set_logging_component_ c (manager w)) w) }.

(** The code that loads the components runs with a component context in
    place. *)
Definition has_context (w : World) : Prop :=
  is_Some (component_context_ (manager w)).

(** Reading the clock, recording the load duration. *)
Definition clock_stable (P : World -> Prop) : Prop :=
  forall w n, P w -> P (set_clock_reads n w).

Definition load_duration_stable (P : World -> Prop) : Prop :=
  forall w d, P w -> P (set_manager (set_load_duration_ d (manager w)) w).

(** [c] never returns: it throws, or the process ends. *)
Definition never_normal {A} (c : M A) : Prop :=
  forall w r w', c w = (r, w') -> forall a, r <> Normal a.

Definition clock_and_duration (n : nat) (d : Z) (w : World) : Prop :=
  clock_reads w = n /\ load_duration_ (manager w) = d.

Definition duration_is (d : Z) (w : World) : Prop :=
  load_duration_ (manager w) = d.

Definition has_default (w : World) : Prop :=
  is_Some (default_task_processor_ (manager w)).

(** ** Further code of manager.cpp *)

(** [OnLogRotate].  The value is the logging component whose
    [OnLogRotate()] is called, if one is called; the shared lock on
    [context_mutex_] is not modelled. *)
Definition OnLogRotate : M (option string) :=
  let* m := get_manager in
  if components_cleared_ m then ret None
  else
    match logging_component_ m with
    | Some logging_component => ret (Some logging_component)
    | None => ret None
    end.

(** ** Vocabulary of the further statements *)

(** The config the task processor of [processor_config] is built from. *)
Definition built_config (env : Env) (config : ManagerConfig)
  (processor_config : TaskProcessorConfig) : TaskProcessorConfig :=
  {| tp_name := tp_name processor_config;
     worker_threads := effective_worker_threads env config processor_config;
     thread_name := thread_name processor_config;
     should_guess_cpu_limit := should_guess_cpu_limit processor_config |}.

(** The first config of a task processor named [name]. *)
Definition first_processor_config (name : string)
  (configs : list TaskProcessorConfig) : option TaskProcessorConfig :=
  head (filter (fun pc => tp_name pc = name) configs).

(** The first config of a component named [name]. *)
Definition first_component_config (name : string)
  (configs : list ComponentConfig) : option ComponentConfig :=
  head (filter (fun c => Name c = name) configs).

(** The events of the storage: pools and task processors. *)
Definition is_storage_event (ev : event) : bool :=
  match ev with
  | PoolsCreated | PoolsReleased | TaskProcessorCreated _ _
  | TaskProcessorDestroyed _ | InitiateShutdown _ | SleepForMs _
  | UAssert _ => true
  | _ => false
  end.

(** A component that [AddComponentImpl] hands to the context. *)
Definition load_enabled (config_map : gmap string ComponentConfig)
  (adder : ComponentAdder) : bool :=
  match config_map !! GetComponentName adder with
  | Some config => default true (ParseOptionalBool config "load-enabled")
  | None => false
  end.

(** What the task of one component adds to the trace when its factory
    constructs the component. *)
Definition boot_events (config_map : gmap string ComponentConfig)
  (adder : ComponentAdder) : list event :=
  TaskSpawned ("boot/" +:+ GetComponentName adder) ::
  if load_enabled config_map adder
  then [ContextAddComponent (GetComponentName adder);
        FactoryInvoked (GetComponentName adder)]
  else [].

(** The storage, the references to its pools and the readings of the
    coroutine pool are these. *)
Definition storage_is (s : TaskProcessorsStorage) (count polls : nat)
  (w : World) : Prop :=
  task_processors_storage_ (manager w) = s /\
  pools_use_count w = count /\
  coro_polls w = polls.

(** The default task processor is the one of this name. *)
Definition default_is (name : string) (w : World) : Prop :=
  default_task_processor_ (manager w) = Some name.

(** The factory hands back a component as long as the load has not been
    cancelled. *)
Definition constructs_unless_cancelled (f : ComponentFactory) : Prop :=
  forall config context,
    load_cancelled context = false ->
    exists component, f config context = Constructed component.

(** The names of the components the context is asked to create, in the
    order of the component list. *)
Definition started_components (config_map : gmap string ComponentConfig)
  (component_list : list ComponentAdder) : list string :=
  GetComponentName <$>
    filter (fun adder => load_enabled config_map adder = true) component_list.

(** Every task returned a value. *)
Definition all_returned (tasks : list TaskWithResult) : Prop :=
  Forall (fun task => result task = inl tt) tasks.

(** ** A context whose clearing throws any object

    [clear_outcome] describes a clearing that throws an object derived from
    [std::exception].  In the versions below the context's clearing throws
    whatever [clear_throws] gives for the components that were created;
    [Manager::ClearComponents] and [~Manager] are the code of above over
    this context. *)
Module AnyException.
Section WithEnv.
Context (env : Env) (clear_throws : list string -> option exn).

(** Modelled from the spec: [ClearComponents()] destroys the components,
    which may throw; here it may throw any object. *)
Definition Context_ClearComponents : M unit :=
  with_context (fun context =>
    emit ContextClearComponents >>
    match clear_throws (created context) with
    | Some ex => throw ex
    | None =>
        put_context
          {| expected_names := expected_names context;
             created := [];
             load_cancelled := load_cancelled context |}
    end).

Definition ClearComponents : M unit :=
  noexcept (
    modify_manager (set_components_cleared_ true) >>
    try_catch Context_ClearComponents
      (catch_std (fun ex =>
         LOG ERROR ("error in clear components: " +:+ what ex)))).

(** [~Manager()], followed by the destruction of the members. *)
Definition Manager_dtor (fuel : nat) : M unit :=
  noexcept (
    LOG INFO "Stopping components manager" >>
    LOG TRACE "Stopping component context" >>
    let* m := get_manager in
    match default_task_processor_ m with
    | None => terminate
    | Some default_task_processor =>
        try_catch (RunInCoro default_task_processor ClearComponents)
          (catch_std (fun exc =>
             LOG ERROR ("Failed to clear components: " +:+ what exc))) >>
        reset_component_context >>
        LOG TRACE "Stopped component context" >>
        Reset env fuel >>
        LOG INFO "Stopped components manager" >>
        TaskProcessorsStorage_dtor env fuel
    end).

End WithEnv.
End AnyException.

(** What the context of [env] throws when it is cleared, as an exception. *)
Definition clear_throws_of (env : Env) (names : list string) : option exn :=
  other_std_exception <$> clear_outcome env names.

(** ** Further inputs *)
Module Scenarios.
Import Examples.


(** [guess-cpu-limit] on the task processor of the file system. *)
Definition guessing_fs_processor : TaskProcessorConfig :=
  {| tp_name := "fs-task-processor"; worker_threads := 2;
     thread_name := "fs-worker"; should_guess_cpu_limit := true |}.

(** The coroutine pool never gets idle. *)
Definition busy_env : Env :=
  env_of None slow_clock (fun _ => 1%nat) None None.

(** A hook of [OnAllComponentsLoaded] throws. *)
Definition failing_hooks_env : Env :=
  env_of None slow_clock draining (Some (runtime_error "hook failed")) None.

(** Two configs of the name ["a"]; the second one disables the load. *)
Definition repeated_configs : list ComponentConfig :=
  [component_config "a"; disabled_config "a"; component_config "b"].

Definition three_tasks : list TaskWithResult :=
  [mkTask "boot/a" true (inl tt); mkTask "boot/b" true (inl tt);
   mkTask "boot/c" true (inl tt)].

Definition three_created : ComponentContext :=
  {| expected_names := list_to_set ["a"; "b"; "c"];
     created := ["a"; "b"; "c"]; load_cancelled := false |}.



End Scenarios.

(** * The RabbitMQ sample (samples::urabbitmq)

    [MyRabbitConsumer] keeps the integers it consumed in a vector behind a
    mutex: the calls of [Process] and [GetConsumedMessages] follow one
    another in some order. *)
Module RabbitSample.

Inductive stoi_result : Type :=
| StoiValue (value : Z)
| StoiInvalidArgument
| StoiOutOfRange.

Definition INT_MIN : Z := -2147483648.
Definition INT_MAX : Z := 2147483647.

(** A reading of [std::stoi(str)] (base 10, a 32-bit [int]): white space
    is skipped, then come an optional sign and the digits; what follows
    the digits is ignored.  Without a digit it throws
    [std::invalid_argument], with a value outside of [int] it throws
    [std::out_of_range]. *)
Definition stoi (str : string) : stoi_result :=
  let '(_, s1) := PlainDecimal.skip_spaces str in
  let '(negative, _, s2) := PlainDecimal.read_sign s1 in
  let '(digits, count, _) := PlainDecimal.read_digits s2 0 in
  if bool_decide (count = 0%nat) then StoiInvalidArgument
  else
    let value := if negative : bool then - digits else digits in
    if bool_decide (INT_MIN <= value <= INT_MAX) then StoiValue value
    else StoiOutOfRange.

Record MyRabbitConsumer : Type := mkMyRabbitConsumer
  { storage_ : list Z }.

(** [Process]: the exception of [std::stoi] leaves before the storage is
    locked.  The testpoint is not modelled. *)
Definition Process (message : string) (self : MyRabbitConsumer)
  : outcome unit * MyRabbitConsumer :=
  match stoi message with
  | StoiValue as_integer =>
      (Normal tt, {| storage_ := storage_ self ++ [as_integer] |})
  | StoiInvalidArgument => (Thrown (invalid_argument "stoi"), self)
  | StoiOutOfRange => (Thrown (out_of_range "stoi"), self)
  end.

(** [GetConsumedMessages]: [std::sort] on a copy of the vector, here a
    merge sort by [<=]. *)
Definition GetConsumedMessages (self : MyRabbitConsumer)
  : list Z * MyRabbitConsumer :=
  let messages := storage_ self in
  (merge_sort Z.le messages, self).

End RabbitSample.

(** * Properties *)

Local Set Warnings "-clear-no-such-hyp".

Local Arguments String.append : simpl never.

(** ** Worlds *)

Lemma set_trace_same w : set_trace (trace w) w = w.
Proof. by destruct w. Qed.

Lemma set_log_same w : set_log (log w) w = w.
Proof. by destruct w. Qed.

Lemma set_trace_set_trace t1 t2 w : set_trace t2 (set_trace t1 w) = set_trace t2 w.
Proof. done. Qed.

(** ** Components without a config, disabled components *)

Lemma AddComponentImpl_missing_config (cm : gmap string ComponentConfig) name f w :
  cm !! name = None ->
  AddComponentImpl cm name f w =
    (Thrown (runtime_error ("Cannot start component " +:+ name +:+ ": missing config")), w).
Proof. intros H. unfold AddComponentImpl. by rewrite H. Qed.

Lemma AddComponentImpl_disabled (cm : gmap string ComponentConfig) name config f w :
  cm !! name = Some config ->
  ParseOptionalBool config "load-enabled" = Some false ->
  AddComponentImpl cm name f w =
    (Normal tt,
     set_log (log w ++ [LogRecord INFO ("Component " +:+ name +:+
                          " load disabled in config.yaml, skipping")]) w).
Proof. intros H1 H2. unfold AddComponentImpl. rewrite H1, H2. done. Qed.

Lemma AddComponentImpl_enabled (cm : gmap string ComponentConfig) name config f w ctx :
  cm !! name = Some config ->
  default true (ParseOptionalBool config "load-enabled") = true ->
  component_context_ (manager w) = Some ctx ->
  exists r w',
    AddComponentImpl cm name f w = (r, w') /\
    trace w' = trace w ++ [ContextAddComponent name; FactoryInvoked name] /\
    match f config ctx with
    | Constructed c =>
        r = Normal tt /\
        component_context_ (manager w') =
          Some {| expected_names := expected_names ctx;
                  created := created ctx ++ [name];
                  load_cancelled := load_cancelled ctx |}
    | FactoryThrows e =>
        r = Thrown e /\ component_context_ (manager w') = Some ctx
    end.
Proof.
  intros H1 H2 H3. unfold AddComponentImpl. rewrite H1, H2. cbn.
  unfold bind, with_context, Context_AddComponent, with_context, bind. cbn.
  rewrite H3. cbn.
  destruct (f config ctx) as [c|e]; cbn.
  - destruct (is_logging c); cbn; rewrite <- !app_assoc; eauto 10.
  - rewrite <- !app_assoc. eauto 10.
Qed.

(** ** Duplicate names *)

Lemma collect_loading_component_names_spec (adders : list ComponentAdder) :
  forall (acc : gset string) w,
    (exists name,
        collect_loading_component_names adders acc w =
          (Thrown (runtime_error ("duplicate component name in component_list: " +:+ name)),
           set_log (log w ++ [LogRecord ERROR
              ("duplicate component name in component_list: " +:+ name)]) w)
        /\ name ∈ GetComponentName <$> adders
        /\ (name ∈ acc \/ ¬ NoDup (GetComponentName <$> adders)))
    \/ (collect_loading_component_names adders acc w =
          (Normal (acc ∪ list_to_set (GetComponentName <$> adders)), w)
        /\ NoDup (GetComponentName <$> adders)
        /\ forall name, name ∈ GetComponentName <$> adders -> name ∉ acc).
Proof.
  induction adders as [|a rest IH]; intros acc w; cbn.
  - right. split; [|split].
    + unfold ret. f_equal. f_equal. set_solver.
    + constructor.
    + intros name H. inversion H.
  - destruct (decide (GetComponentName a ∈ acc)) as [Hin|Hnin].
    + left. exists (GetComponentName a). split; [done|]. split; [set_solver|]. by left.
    + destruct (IH (acc ∪ {[GetComponentName a]}) w) as [(name & Hrun & Hmem & Hwhy)|(Hrun & Hnd & Hfresh)].
      * left. exists name. split; [done|]. split; [set_solver|].
        destruct Hwhy as [Hacc|Hdup].
        -- apply elem_of_union in Hacc as [Hacc|Hacc]; [by left|].
           right. apply elem_of_singleton in Hacc. subst name.
           intros Hnd. apply NoDup_cons in Hnd as [Hnd _]. done.
        -- right. intros Hnd. apply NoDup_cons in Hnd as [_ Hnd]. done.
      * right. split; [|split].
        -- rewrite Hrun. f_equal. f_equal. set_solver.
        -- apply NoDup_cons. split; [|done].
           intros Hin. apply Hfresh in Hin. set_solver.
        -- intros name Hin. apply elem_of_cons in Hin as [->|Hin]; [done|].
           apply Hfresh in Hin. set_solver.
Qed.

(** Claim C4.  When two entries of the component list share a name,
    [CreateComponentContext] throws the error that names a duplicated
    component; the world it leaves differs from the one it found by one
    ERROR record of the log only: no construction task was created and
    [component_context_] is as it was, the context has not been created. *)
Theorem CreateComponentContext_duplicate (component_list : ComponentList) w :
  ¬ NoDup (GetComponentName <$> component_list) ->
  exists name,
    name ∈ GetComponentName <$> component_list /\
    forall env, CreateComponentContext env component_list w =
      (Thrown (runtime_error ("duplicate component name in component_list: " +:+ name)),
       set_log (log w ++ [LogRecord ERROR
          ("duplicate component name in component_list: " +:+ name)]) w).
Proof.
  intros Hdup.
  destruct (collect_loading_component_names_spec component_list ∅ w)
    as [(name & Hrun & Hmem & _)|(_ & Hnd & _)]; [|done].
  exists name. split; [done|]. intros env.
  unfold CreateComponentContext, bind. by rewrite Hrun.
Qed.

(** ** How the combinators keep an invariant *)


Lemma preserves_run {A} (P : World -> Prop) (c : M A) w r w' :
  preserves P c -> c w = (r, w') -> P w -> P w'.
Proof. intros Hc Hrun Hw. eapply Hc; eauto. Qed.

Section Combinators.
Context (P : World -> Prop).

Lemma preserves_ret {A} (a : A) : preserves P (ret a).
Proof. intros w r w' HP [= <- <-]. done. Qed.

Lemma preserves_throw {A} e : preserves P (@throw A e).
Proof. intros w r w' HP [= <- <-]. done. Qed.

Lemma preserves_terminate {A} : preserves P (@terminate A).
Proof. intros w r w' HP [= <- <-]. done. Qed.

Lemma preserves_out_of_fuel {A} : preserves P (@out_of_fuel A).
Proof. intros w r w' HP [= <- <-]. done. Qed.

Lemma preserves_bind {A B} (c : M A) (k : A -> M B) :
  preserves P c -> (forall a, preserves P (k a)) -> preserves P (bind c k).
Proof.
  intros Hc Hk w r w' HP. unfold bind.
  destruct (c w) as [[a|e| |] w1] eqn:E; specialize (Hc _ _ _ HP E).
  - apply Hk. done.
  - intros [= <- <-]. done.
  - intros [= <- <-]. done.
  - intros [= <- <-]. done.
Qed.

Lemma preserves_try_catch {A} (body : M A) handler :
  preserves P body ->
  (forall e h, handler e = Some h -> preserves P h) ->
  preserves P (try_catch body handler).
Proof.
  intros Hb Hh w r w' HP. unfold try_catch.
  destruct (body w) as [[a|e| |] w1] eqn:E; specialize (Hb _ _ _ HP E);
    try (intros [= <- <-]; done).
  destruct (handler e) as [h|] eqn:Eh.
  - eapply Hh; eauto.
  - intros [= <- <-]. done.
Qed.

Lemma preserves_catch_std {A} (handler : exn -> M A) e h :
  (forall e, preserves P (handler e)) ->
  catch_std handler e = Some h -> preserves P h.
Proof.
  unfold catch_std. intros Hh. destruct (is_std_exception e); [|done].
  intros [= <-]. apply Hh.
Qed.

Lemma preserves_noexcept {A} (body : M A) :
  preserves P body -> preserves P (noexcept body).
Proof.
  intros Hb w r w' HP. unfold noexcept.
  destruct (body w) as [[a|e| |] w1] eqn:E; specialize (Hb _ _ _ HP E);
    intros [= <- <-]; done.
Qed.

Lemma preserves_for_each {A} (l : list A) body :
  (forall x, preserves P (body x)) -> preserves P (for_each l body).
Proof.
  intros Hb. induction l as [|x rest IH]; cbn.
  - apply preserves_ret.
  - apply preserves_bind; [apply Hb|]. intros _. apply IH.
Qed.

Lemma preserves_get_manager : preserves P get_manager.
Proof. intros w r w' HP [= <- <-]. done. Qed.
End Combinators.


Section BootInvariant.
Context (env : Env) (P : World -> Prop) (HP : boot_stable P).

Lemma preserves_emit ev : preserves P (emit ev).
Proof. intros w r w' Hw [= <- <-]. by apply stable_trace. Qed.

Lemma preserves_LOG lvl msg : preserves P (LOG lvl msg).
Proof. intros w r w' Hw [= <- <-]. by apply stable_log. Qed.

Lemma preserves_put_context c : preserves P (put_context c).
Proof. intros w r w' Hw [= <- <-]. by apply stable_context. Qed.

Lemma preserves_with_context {A} (f : ComponentContext -> M A) :
  (forall c, preserves P (f c)) -> preserves P (with_context f).
Proof.
  intros Hf. unfold with_context. apply preserves_bind.
  - apply preserves_get_manager.
  - intros m. destruct (component_context_ m); [apply Hf|apply preserves_terminate].
Qed.

Lemma preserves_set_cleared b :
  preserves P (modify_manager (set_components_cleared_ b)).
Proof. intros w r w' Hw [= <- <-]. by apply stable_cleared. Qed.

Lemma preserves_set_logging c :
  preserves P (modify_manager (set_logging_component_ c)).
Proof. intros w r w' Hw [= <- <-]. by apply stable_logging. Qed.

Create HintDb boot.
Hint Resolve preserves_ret preserves_throw preserves_terminate
  preserves_emit preserves_LOG preserves_put_context
  preserves_get_manager preserves_set_cleared preserves_set_logging : boot.

Ltac boot_step :=
  first
    [ apply preserves_bind; [|intros ?]
    | apply preserves_with_context; intros ?
    | apply preserves_noexcept
    | apply preserves_try_catch;
        [|let H := fresh "Hh" in intros ? ? H; cbv beta in H]
    | apply preserves_for_each; intros ?
    | match goal with
      | H : catch_std _ _ = Some _ |- _ =>
          eapply preserves_catch_std; [|exact H]; clear H; intros ?; cbv beta
      | H : Some _ = Some _ |- _ => injection H as <-
      | H : None = Some _ |- _ => discriminate H
      | H : (if ?b then _ else _) = Some _ |- _ => destruct b
      | |- preserves _ (match ?x with _ => _ end) => destruct x eqn:?
      end
    | solve [eauto with boot] ].

Ltac boot_auto := repeat boot_step.

Lemma preserves_Context_AddComponent name run :
  preserves P (Context_AddComponent name run).
Proof. unfold Context_AddComponent. boot_auto. Qed.

Lemma preserves_Context_CancelComponentsLoad :
  preserves P Context_CancelComponentsLoad.
Proof. unfold Context_CancelComponentsLoad. boot_auto. Qed.

Lemma preserves_Context_OnAllComponentsLoaded :
  preserves P (Context_OnAllComponentsLoaded env).
Proof. unfold Context_OnAllComponentsLoaded. boot_auto. Qed.

Lemma preserves_Context_ClearComponents :
  preserves P (Context_ClearComponents env).
Proof. unfold Context_ClearComponents. boot_auto. Qed.

Hint Resolve preserves_Context_AddComponent
  preserves_Context_CancelComponentsLoad
  preserves_Context_OnAllComponentsLoaded
  preserves_Context_ClearComponents : boot.

Lemma preserves_ClearComponents : preserves P (ClearComponents env).
Proof. unfold ClearComponents. boot_auto. Qed.

Lemma preserves_AddComponentImpl cm name f :
  preserves P (AddComponentImpl cm name f).
Proof. unfold AddComponentImpl. boot_auto. Qed.

Hint Resolve preserves_ClearComponents preserves_AddComponentImpl : boot.

Lemma preserves_boot_task adder cm : preserves P (boot_task adder cm).
Proof. unfold boot_task, call_adder. boot_auto. Qed.

Lemma preserves_CriticalAsync name body :
  preserves P body -> preserves P (CriticalAsync name body).
Proof.
  intros Hb w r w' Hw. unfold CriticalAsync.
  destruct (body _) as [[a|e| |] w1] eqn:E;
    intros [= <- <-]; (eapply Hb; [|exact E]); by apply stable_trace.
Qed.

Hint Resolve preserves_boot_task preserves_CriticalAsync : boot.

Lemma preserves_spawn_boot_tasks adders cm :
  preserves P (spawn_boot_tasks adders cm).
Proof. induction adders as [|a rest IH]; cbn; boot_auto. Qed.

Lemma preserves_Task_Get task : preserves P (Task_Get task).
Proof. unfold Task_Get. boot_auto. Qed.

Hint Resolve preserves_Task_Get : boot.

Lemma preserves_join_boot_tasks tasks :
  forall c, preserves P (join_boot_tasks tasks c).
Proof. induction tasks as [|t rest IH]; intros c; cbn; boot_auto. Qed.

Lemma preserves_wait_boot_tasks tasks : preserves P (wait_boot_tasks tasks).
Proof. unfold wait_boot_tasks, Task_Wait. boot_auto. Qed.

Lemma preserves_collect_component_configs component_list configs :
  forall cm,
    preserves P (collect_component_configs env component_list configs cm).
Proof. induction configs as [|c rest IH]; intros cm; cbn; boot_auto. Qed.
End BootInvariant.

(** ** What the loading code leaves in place *)


Lemma has_context_stable : boot_stable has_context.
Proof. split; unfold has_context; cbn; eauto. Qed.

(** ** The loops over the tasks *)

Lemma join_boot_tasks_quiet before :
  forall rest c w,
    Forall (fun t => joins_quietly t = true) before ->
    join_boot_tasks (before ++ rest) c w =
      join_boot_tasks rest (c || existsb task_cancelled before)
        (set_trace (trace w ++ (TaskGet ∘ task_name <$> before)) w).
Proof.
  induction before as [|t before IH]; intros rest c w Hq.
  - cbn. rewrite orb_false_r, app_nil_r, set_trace_same. done.
  - apply Forall_cons in Hq as [Ht Hq]. cbn [app join_boot_tasks].
    unfold bind at 1. unfold try_catch, bind, Task_Get, emit.
    unfold joins_quietly in Ht. cbn [existsb task_cancelled fmap list_fmap].
    unfold task_cancelled at 1.
    destruct (result t) as [[]|e]; cbn.
    + rewrite IH by done. cbn. rewrite <- app_assoc. done.
    + rewrite Ht. cbn. rewrite IH by done. cbn. rewrite <- app_assoc.
      by rewrite ?orb_true_r.
Qed.

Lemma join_boot_tasks_all_quiet tasks c w :
  Forall (fun t => joins_quietly t = true) tasks ->
  join_boot_tasks tasks c w =
    (Normal (c || existsb task_cancelled tasks),
     set_trace (trace w ++ (TaskGet ∘ task_name <$> tasks)) w).
Proof.
  intros Hq. rewrite <- (app_nil_r tasks) at 1.
  rewrite join_boot_tasks_quiet by done. done.
Qed.

Lemma join_boot_tasks_failure t rest c w e :
  result t = inr e ->
  is_load_cancelled_exception e = false ->
  join_boot_tasks (t :: rest) c w =
    (Thrown e, set_trace (trace w ++ [TaskGet (task_name t)]) w).
Proof.
  intros Hr He. cbn. unfold bind, try_catch, bind, Task_Get, emit. cbn.
  rewrite Hr. cbn. rewrite He. done.
Qed.

Lemma join_boot_tasks_first_failure before t after w e :
  Forall (fun t => joins_quietly t = true) before ->
  result t = inr e ->
  is_load_cancelled_exception e = false ->
  join_boot_tasks (before ++ t :: after) false w =
    (Thrown e,
     set_trace (trace w ++ (TaskGet ∘ task_name <$> before ++ [t])) w).
Proof.
  intros Hq Hr He. rewrite join_boot_tasks_quiet by done.
  erewrite join_boot_tasks_failure by done. cbn.
  rewrite fmap_app, app_assoc. done.
Qed.

Lemma wait_boot_tasks_run tasks w :
  wait_boot_tasks tasks w =
    (Normal tt,
     set_trace (trace w ++ (TaskWait ∘ task_name <$> filter (fun t => valid t = true) tasks)) w).
Proof.
  unfold wait_boot_tasks. revert w.
  induction tasks as [|t rest IH]; intros w.
  - cbn. rewrite app_nil_r, set_trace_same. done.
  - cbn [for_each]. unfold bind. rewrite filter_cons.
    destruct (valid t) eqn:Hv.
    + cbn. rewrite IH. cbn. rewrite <- app_assoc. done.
    + cbn. rewrite IH. rewrite decide_False by done. done.
Qed.

Lemma spawn_boot_tasks_tasks adders cm :
  forall w tasks w',
    spawn_boot_tasks adders cm w = (Normal tasks, w') ->
    Forall (fun t => valid t = true) tasks /\
    task_name <$> tasks = (fun a => "boot/" +:+ GetComponentName a) <$> adders.
Proof.
  induction adders as [|a rest IH]; intros w tasks w'; cbn.
  - intros [= <- <-]. split; [constructor|done].
  - unfold bind. unfold CriticalAsync at 1.
    destruct (boot_task a cm _) as [[[]|e| |] w1] eqn:E; try discriminate.
    + destruct (spawn_boot_tasks rest cm w1) as [[ts|?| |] w2] eqn:E2; try discriminate.
      intros [= <- <-]. apply IH in E2 as [Hv Hn]. split; [by constructor|].
      cbn. by rewrite Hn.
    + destruct (spawn_boot_tasks rest cm w1) as [[ts|?| |] w2] eqn:E2; try discriminate.
      intros [= <- <-]. apply IH in E2 as [Hv Hn]. split; [by constructor|].
      cbn. by rewrite Hn.
Qed.

(** ** The context operations and [ClearComponents] *)

Lemma Context_CancelComponentsLoad_run w c :
  component_context_ (manager w) = Some c ->
  exists w',
    Context_CancelComponentsLoad w = (Normal tt, w') /\
    trace w' = trace w ++ [CancelComponentsLoad] /\
    log w' = log w /\
    components_cleared_ (manager w') = components_cleared_ (manager w) /\
    component_context_ (manager w') =
      Some {| expected_names := expected_names c; created := created c;
              load_cancelled := true |}.
Proof.
  intros Hc. unfold Context_CancelComponentsLoad, with_context, bind. cbn.
  rewrite Hc. cbn. eauto 10.
Qed.

Lemma ClearComponents_run env w c :
  component_context_ (manager w) = Some c ->
  exists w',
    ClearComponents env w = (Normal tt, w') /\
    trace w' = trace w ++ [ContextClearComponents] /\
    components_cleared_ (manager w') = true /\
    (task_processors_storage_ (manager w') = task_processors_storage_ (manager w)
     /\ default_task_processor_ (manager w') = default_task_processor_ (manager w)
     /\ pools_use_count w' = pools_use_count w
     /\ coro_polls w' = coro_polls w) /\
    match clear_outcome env (created c) with
    | Some msg =>
        log w' = log w ++ [LogRecord ERROR ("error in clear components: " +:+ msg)] /\
        component_context_ (manager w') = Some c
    | None =>
        log w' = log w /\
        component_context_ (manager w') =
          Some {| expected_names := expected_names c; created := [];
                  load_cancelled := load_cancelled c |}
    end.
Proof.
  intros Hc.
  unfold ClearComponents, noexcept, bind, try_catch, Context_ClearComponents,
    with_context, bind. cbn. rewrite Hc. cbn.
  destruct (clear_outcome env (created c)) as [msg|]; cbn; eauto 15.
Qed.

(** ** [AddComponents]: what each part keeps *)



Lemma has_context_clock_stable : clock_stable has_context.
Proof. intros w n. done. Qed.

Lemma has_context_load_duration_stable : load_duration_stable has_context.
Proof. intros w d. done. Qed.

Section LoadingInvariant.
Context (env : Env) (P : World -> Prop).
Context (HP : boot_stable P) (HC : clock_stable P).

Lemma preserves_now : preserves P (now env).
Proof. intros w r w' Hw [= <- <-]. by apply HC. Qed.

Lemma preserves_AddComponents_create_tasks component_list :
  preserves P (AddComponents_create_tasks env component_list).
Proof.
  unfold AddComponents_create_tasks.
  apply preserves_bind; [apply preserves_get_manager|intros m].
  apply preserves_bind; [by apply preserves_collect_component_configs|intros cm].
  apply preserves_bind; [apply preserves_now|intros start].
  apply preserves_bind; [by apply preserves_spawn_boot_tasks|intros tasks].
  apply preserves_ret.
Qed.

Context (HL : load_duration_stable P).

Lemma preserves_AddComponents_join_tasks start tasks :
  preserves P (AddComponents_join_tasks env start tasks).
Proof.
  unfold AddComponents_join_tasks.
  apply preserves_bind.
  - apply preserves_try_catch; [by apply preserves_join_boot_tasks|].
    intros e h Hh. eapply preserves_catch_std; [|exact Hh]. intros ex.
    apply preserves_bind; [by apply preserves_Context_CancelComponentsLoad|intros _].
    apply preserves_bind; [by apply preserves_wait_boot_tasks|intros _].
    apply preserves_bind; [by apply preserves_ClearComponents|intros _].
    apply preserves_throw.
  - intros [].
    + apply preserves_bind; [by apply preserves_ClearComponents|intros _].
      apply preserves_throw.
    + apply preserves_bind; [by apply preserves_LOG|intros _].
      apply preserves_bind.
      * apply preserves_try_catch; [by apply preserves_Context_OnAllComponentsLoaded|].
        intros e h Hh. eapply preserves_catch_std; [|exact Hh]. intros ex.
        apply preserves_bind; [by apply preserves_ClearComponents|intros _].
        apply preserves_throw.
      * intros _. apply preserves_bind; [apply preserves_now|intros stop].
        apply preserves_bind; [|intros _; by apply preserves_LOG].
        intros w r w' Hw [= <- <-]. by apply HL.
Qed.

Lemma preserves_AddComponents component_list :
  preserves P (AddComponents env component_list).
Proof.
  unfold AddComponents. apply preserves_bind.
  - apply preserves_AddComponents_create_tasks.
  - intros created. apply preserves_AddComponents_join_tasks.
Qed.
End LoadingInvariant.

Lemma bind_run {A B} (c : M A) (k : A -> M B) w :
  bind c k w =
    match c w with
    | (Normal a, w1) => k a w1
    | (Thrown e, w1) => (Thrown e, w1)
    | (Terminated, w1) => (Terminated, w1)
    | (OutOfFuel, w1) => (OutOfFuel, w1)
    end.
Proof. done. Qed.

Lemma collect_component_configs_registered env component_list configs :
  forall cm w,
    Forall (fun c => Contains component_list (Name c) = true) configs ->
    collect_component_configs env component_list configs cm w =
      (Normal (emplace_configs configs cm), w).
Proof.
  induction configs as [|c rest IH]; intros cm w Hreg; [done|].
  apply Forall_cons in Hreg as [Hc Hrest]. cbn. rewrite Hc. cbn.
  by rewrite IH.
Qed.

Lemma collect_component_configs_prefix env component_list pre rest :
  forall cm w,
    Forall (fun c => Contains component_list (Name c) = true) pre ->
    collect_component_configs env component_list (pre ++ rest) cm w =
      collect_component_configs env component_list rest (emplace_configs pre cm) w.
Proof.
  induction pre as [|c pre IH]; intros cm w Hreg; [done|].
  apply Forall_cons in Hreg as [Hc Hrest]. cbn. rewrite Hc. cbn.
  by rewrite IH.
Qed.

Lemma AddComponents_create_tasks_inv env component_list w start tasks w1 :
  AddComponents_create_tasks env component_list w = (Normal (start, tasks), w1) ->
  exists cm w0,
    collect_component_configs env component_list
      (components (config_ (manager w))) ∅ w = (Normal cm, w0) /\
    start = steady_clock env (clock_reads w0) /\
    spawn_boot_tasks component_list cm (set_clock_reads (S (clock_reads w0)) w0)
      = (Normal tasks, w1).
Proof.
  unfold AddComponents_create_tasks. rewrite bind_run. cbn.
  rewrite bind_run.
  destruct (collect_component_configs _ _ _ _ _) as [[cm|?| |] w0];
    try discriminate.
  rewrite bind_run. cbn. rewrite bind_run.
  destruct (spawn_boot_tasks _ _ _) as [[ts|?| |] w1'] eqn:E; try discriminate.
  intros [= <- <- <-]. eauto 10.
Qed.

Lemma AddComponents_create_tasks_valid env component_list w start tasks w1 :
  AddComponents_create_tasks env component_list w = (Normal (start, tasks), w1) ->
  Forall (fun t => valid t = true) tasks /\
  task_name <$> tasks =
    (fun a => "boot/" +:+ GetComponentName a) <$> component_list.
Proof.
  intros H. apply AddComponents_create_tasks_inv in H as (cm & w0 & _ & _ & H).
  by apply spawn_boot_tasks_tasks in H.
Qed.

Lemma filter_valid_all (tasks : list TaskWithResult) :
  Forall (fun t => valid t = true) tasks ->
  filter (fun t => valid t = true) tasks = tasks.
Proof.
  induction 1 as [|t rest Ht _ IH]; [done|].
  rewrite filter_cons, decide_True by done. by rewrite IH.
Qed.

(** ** A construction task fails *)

(** Claim C1, as amended.  Let the tasks be joined in the order of the
    component list, and let [task] be the first whose [Get] throws something
    else than [ComponentsLoadCancelledException].  When what it throws is
    derived from [std::exception], [AddComponents] cancels the component
    load, waits for every task, without a [Get] on the tasks after [task],
    clears the components, and rethrows that exception. *)
Theorem AddComponents_first_failure env component_list w start tasks w1
    before task after e :
  has_context w ->
  AddComponents_create_tasks env component_list w = (Normal (start, tasks), w1) ->
  tasks = before ++ task :: after ->
  Forall (fun t => joins_quietly t = true) before ->
  result task = inr e ->
  is_load_cancelled_exception e = false ->
  is_std_exception e = true ->
  exists w2,
    AddComponents env component_list w = (Thrown e, w2) /\
    trace w2 =
      trace w1 ++ (TaskGet ∘ task_name <$> before ++ [task]) ++
      [CancelComponentsLoad] ++ (TaskWait ∘ task_name <$> tasks) ++
      [ContextClearComponents] /\
    components_cleared_ (manager w2) = true.
Proof.
  intros Hctx Hcreate Htasks Hquiet Hres Hnc Hstd.
  assert (has_context w1) as [c1 Hc1].
  { eapply (preserves_AddComponents_create_tasks env has_context); eauto using
      has_context_stable, has_context_clock_stable. }
  destruct (AddComponents_create_tasks_valid _ _ _ _ _ _ Hcreate) as [Hvalid _].
  unfold AddComponents. rewrite bind_run, Hcreate. cbn [fst snd].
  unfold AddComponents_join_tasks. rewrite bind_run. unfold try_catch.
  subst tasks.
  rewrite (join_boot_tasks_first_failure before task after w1 e) by done.
  unfold catch_std. rewrite Hstd.
  rewrite bind_run.
  destruct (Context_CancelComponentsLoad_run
              (set_trace (trace w1 ++ (TaskGet ∘ task_name <$> before ++ [task])) w1) c1)
    as (w3 & -> & Ht3 & _ & _ & Hc3); [done|].
  rewrite bind_run, wait_boot_tasks_run. rewrite bind_run.
  destruct (ClearComponents_run env
    (set_trace (trace w3 ++ (TaskWait ∘ task_name <$>
       filter (fun t => valid t = true) (before ++ task :: after))) w3) _ Hc3)
    as (w4 & -> & Ht4 & Hcl4 & _).
  eexists. split; [done|]. split; [|done].
  rewrite Ht4. cbn. rewrite Ht3. cbn. rewrite filter_valid_all by done.
  rewrite <- !app_assoc. done.
Qed.

(** ** Only cancellations were caught *)

(** Claim C3, as amended.  When every task returned or threw
    [ComponentsLoadCancelledException], and one of them threw, then after
    the last [Get] the components are cleared and [AddComponents] throws a
    [std::logic_error] whose message reports that the load was cancelled. *)
Theorem AddComponents_only_cancelled env component_list w start tasks w1 :
  has_context w ->
  AddComponents_create_tasks env component_list w = (Normal (start, tasks), w1) ->
  Forall (fun t => joins_quietly t = true) tasks ->
  existsb task_cancelled tasks = true ->
  exists w2,
    AddComponents env component_list w =
      (Thrown (logic_error
         ("Components load cancelled, but only ComponentsLoadCancelledExceptions "
          +:+ "were caught")), w2) /\
    trace w2 =
      trace w1 ++ (TaskGet ∘ task_name <$> tasks) ++ [ContextClearComponents] /\
    components_cleared_ (manager w2) = true.
Proof.
  intros Hctx Hcreate Hquiet Hcancelled.
  assert (has_context w1) as [c1 Hc1].
  { eapply (preserves_AddComponents_create_tasks env has_context); eauto using
      has_context_stable, has_context_clock_stable. }
  unfold AddComponents. rewrite bind_run, Hcreate. cbn [fst snd].
  unfold AddComponents_join_tasks. rewrite bind_run. unfold try_catch.
  rewrite join_boot_tasks_all_quiet by done. rewrite Hcancelled. cbn [orb].
  rewrite bind_run.
  destruct (ClearComponents_run env
    (set_trace (trace w1 ++ (TaskGet ∘ task_name <$> tasks)) w1) c1 Hc1)
    as (w2 & -> & Ht2 & Hcl2 & _).
  eexists. split; [done|]. split; [|done].
  rewrite Ht2. cbn. by rewrite <- app_assoc.
Qed.

(** ** A config without a registered component *)

Lemma AddComponents_unregistered_config env component_list w pre config post :
  has_context w ->
  components (config_ (manager w)) = pre ++ config :: post ->
  Forall (fun c => Contains component_list (Name c) = true) pre ->
  Contains component_list (Name config) = false ->
  exists w2,
    AddComponents env component_list w =
      (Thrown (runtime_error
         ("component config is found in config.yaml, but no component with "
          +:+ "such name is registered: '" +:+ Name config +:+
          "', forgot to register in RegisterUserComponents()?")), w2) /\
    trace w2 = trace w ++ [ContextClearComponents] /\
    components_cleared_ (manager w2) = true.
Proof.
  intros [c Hc] Hconfigs Hpre Hunreg.
  unfold AddComponents, AddComponents_create_tasks.
  rewrite !bind_run. cbn [get_manager]. rewrite bind_run, Hconfigs.
  rewrite collect_component_configs_prefix by done.
  cbn [collect_component_configs]. rewrite Hunreg. cbn [negb].
  rewrite bind_run.
  destruct (ClearComponents_run env w c Hc) as (w2 & -> & Ht2 & Hcl2 & _).
  eexists. split; [done|]. done.
Qed.

(** ** The load duration *)


Lemma never_normal_throw {A} e : never_normal (@throw A e).
Proof. intros w r w' [= <- <-] a. done. Qed.

Lemma never_normal_bind {A B} (c : M A) (k : A -> M B) :
  (forall a, never_normal (k a)) -> never_normal (bind c k).
Proof.
  intros Hk w r w'. rewrite bind_run.
  destruct (c w) as [[a|e| |] w1].
  - apply Hk.
  - intros [= <- <-] ?. done.
  - intros [= <- <-] ?. done.
  - intros [= <- <-] ?. done.
Qed.

Lemma Context_OnAllComponentsLoaded_trace env w w' :
  Context_OnAllComponentsLoaded env w = (Normal tt, w') ->
  trace w' = trace w ++ [ContextOnAllComponentsLoaded].
Proof.
  unfold Context_OnAllComponentsLoaded, with_context. rewrite bind_run. cbn.
  destruct (component_context_ (manager w)) as [c|]; [|done].
  rewrite bind_run. cbn.
  destruct (hooks_outcome env (created c)); [done|].
  by intros [= <-].
Qed.

(** The second part of [AddComponents] either returns, having run the
    hooks, read the clock and recorded the duration in this order, or it
    does not return and has left the clock and the duration alone. *)
Lemma AddComponents_join_tasks_cases env start tasks w1 r w' :
  AddComponents_join_tasks env start tasks w1 = (r, w') ->
  (r = Normal tt /\
   exists w4,
     (forall P, boot_stable P -> P w1 -> P w4) /\
     (exists t, trace w4 = t ++ [ContextOnAllComponentsLoaded]) /\
     w' = set_log (log w4 ++ [LogRecord INFO "All components loaded"])
            (set_manager
               (set_load_duration_
                  (duration_cast_milliseconds
                     (steady_clock env (clock_reads w4) - start))
                  (manager w4))
               (set_clock_reads (S (clock_reads w4)) w4)))
  \/ (r <> Normal tt /\
      forall P, boot_stable P -> clock_stable P -> P w1 -> P w').
Proof.
  unfold AddComponents_join_tasks. rewrite bind_run. unfold try_catch.
  destruct (join_boot_tasks tasks false w1) as [[c|e| |] w2] eqn:Ej.
  - (* the tasks were joined *)
    assert (forall P, boot_stable P -> P w1 -> P w2) as H12.
    { intros P HP Hw. eapply (preserves_join_boot_tasks P HP); eauto. }
    destruct c.
    + intros Hrun. right. split.
      * eapply never_normal_bind; [|exact Hrun]. intros ?. apply never_normal_throw.
      * intros P HP _ Hw. eapply preserves_run; [|exact Hrun|by apply H12].
        apply preserves_bind; [by apply preserves_ClearComponents|].
        intros ?. apply preserves_throw.
    + rewrite bind_run. cbn [LOG]. rewrite bind_run. unfold try_catch.
      destruct (Context_OnAllComponentsLoaded env _) as [[[]|e| |] w3] eqn:Eh.
      * (* the hooks succeeded *)
        rewrite !bind_run. cbn. intros [= Hr Hw']. subst r w'.
        left. split; [done|].
        exists w3. split; [|split; [|done]].
        -- intros P HP Hw.
           eapply (preserves_Context_OnAllComponentsLoaded env P HP); [|exact Eh].
           apply stable_log; [done|by apply H12].
        -- apply Context_OnAllComponentsLoaded_trace in Eh. cbn in Eh. eauto.
      * (* the hooks threw *)
        assert (forall P, boot_stable P -> P w1 -> P w3) as H13.
        { intros P HP Hw.
          eapply (preserves_Context_OnAllComponentsLoaded env P HP); [|exact Eh].
          apply stable_log; [done|by apply H12]. }
        unfold catch_std. destruct (is_std_exception e).
        -- destruct (bind (ClearComponents env) _ w3) as [r4 w4] eqn:E4.
           assert (forall a, r4 <> Normal a) as Hr4.
           { eapply never_normal_bind; [|exact E4]. intros ?.
             apply never_normal_throw. }
           assert (forall P, boot_stable P -> P w1 -> P w4) as H14.
           { intros P HP Hw. eapply preserves_run; [|exact E4|by apply H13].
             apply preserves_bind; [by apply preserves_ClearComponents|].
             intros ?. apply preserves_throw. }
           destruct r4 as [a| | |]; [by destruct (Hr4 a)| | |];
             intros [= <- <-]; right; (split; [done|]); intros P HP _ Hw;
             by apply H14.
        -- intros [= <- <-]. right. split; [done|]. intros P HP _ Hw.
           by apply H13.
      * intros [= <- <-]. right. split; [done|]. intros P HP _ Hw.
        eapply (preserves_Context_OnAllComponentsLoaded env P HP); [|exact Eh].
        apply stable_log; [done|by apply H12].
      * intros [= <- <-]. right. split; [done|]. intros P HP _ Hw.
        eapply (preserves_Context_OnAllComponentsLoaded env P HP); [|exact Eh].
        apply stable_log; [done|by apply H12].
  - (* a task threw *)
    assert (forall P, boot_stable P -> P w1 -> P w2) as H12.
    { intros P HP Hw. eapply (preserves_join_boot_tasks P HP); eauto. }
    unfold catch_std. destruct (is_std_exception e).
    + destruct (bind Context_CancelComponentsLoad _ w2) as [r4 w4] eqn:E4.
      assert (forall a, r4 <> Normal a) as Hr4.
      { eapply never_normal_bind; [|exact E4]. intros ?.
        apply never_normal_bind. intros ?.
        apply never_normal_bind. intros ?. apply never_normal_throw. }
      assert (forall P, boot_stable P -> P w1 -> P w4) as H14.
      { intros P HP Hw. eapply preserves_run; [|exact E4|by apply H12].
        apply preserves_bind; [by apply preserves_Context_CancelComponentsLoad|].
        intros ?. apply preserves_bind; [by apply preserves_wait_boot_tasks|].
        intros ?. apply preserves_bind; [by apply preserves_ClearComponents|].
        intros ?. apply preserves_throw. }
      destruct r4 as [a| | |]; [by destruct (Hr4 a)| | |];
        intros [= <- <-]; right; (split; [done|]); intros P HP _ Hw;
        by apply H14.
    + intros [= <- <-]. right. split; [done|]. intros P HP _ Hw.
      by apply H12.
  - intros [= <- <-]. right. split; [done|]. intros P HP _ Hw.
    eapply (preserves_join_boot_tasks P HP); eauto.
  - intros [= <- <-]. right. split; [done|]. intros P HP _ Hw.
    eapply (preserves_join_boot_tasks P HP); eauto.
Qed.


Lemma clock_and_duration_stable n d : boot_stable (clock_and_duration n d).
Proof. split; unfold clock_and_duration; cbn; auto. Qed.


Lemma duration_is_stable d : boot_stable (duration_is d).
Proof. split; unfold duration_is; cbn; auto. Qed.

Lemma duration_is_clock_stable d : clock_stable (duration_is d).
Proof. intros w n. done. Qed.

Lemma duration_cast_milliseconds_nonneg ns :
  0 <= ns -> 0 <= duration_cast_milliseconds ns.
Proof. intros H. unfold duration_cast_milliseconds. apply Z.quot_pos; lia. Qed.

Lemma AddComponents_load_duration env component_list w r w' :
  AddComponents env component_list w = (r, w') ->
  (r = Normal tt /\
   load_duration_ (manager w') =
     duration_cast_milliseconds
       (steady_clock env (S (clock_reads w)) - steady_clock env (clock_reads w)) /\
   (monotone_clock env -> 0 <= load_duration_ (manager w')) /\
   (exists t, trace w' = t ++ [ContextOnAllComponentsLoaded]) /\
   GetLoadDuration w' = (Normal (load_duration_ (manager w')), w'))
  \/ (r <> Normal tt /\
      load_duration_ (manager w') = load_duration_ (manager w)).
Proof.
  unfold AddComponents. rewrite bind_run.
  destruct (AddComponents_create_tasks env component_list w)
    as [[[start tasks]|e| |] w1] eqn:Ecreate; cbn [fst snd].
  - apply AddComponents_create_tasks_inv in Ecreate as (cm & w0 & Hcollect & -> & Hspawn).
    assert (clock_and_duration (clock_reads w) (load_duration_ (manager w)) w0)
      as [Hn0 Hd0].
    { eapply preserves_run; [|exact Hcollect|done].
      apply preserves_collect_component_configs, clock_and_duration_stable. }
    assert (clock_and_duration (S (clock_reads w)) (load_duration_ (manager w)) w1)
      as H1.
    { eapply preserves_run; [|exact Hspawn|].
      - apply preserves_spawn_boot_tasks, clock_and_duration_stable.
      - split; cbn; congruence. }
    intros Hjoin.
    apply AddComponents_join_tasks_cases in Hjoin
      as [(-> & w4 & Hkeep & Htrace & ->)|(Hr & Hkeep)].
    + left. split; [done|].
      destruct (Hkeep _ (clock_and_duration_stable _ _) H1) as [Hn4 Hd4].
      cbn. rewrite Hn4, Hn0.
      split; [done|]. split; [|split; [done|done]].
      intros Hmono. apply duration_cast_milliseconds_nonneg.
      specialize (Hmono (clock_reads w) (S (clock_reads w))). lia.
    + right. split; [done|].
      apply (Hkeep (duration_is (load_duration_ (manager w)))).
      * apply duration_is_stable.
      * apply duration_is_clock_stable.
      * apply H1.
  - intros [= <- <-]. right. split; [done|].
    eapply (preserves_run (duration_is (load_duration_ (manager w))));
      [|exact Ecreate|done].
    apply preserves_AddComponents_create_tasks;
      auto using duration_is_stable, duration_is_clock_stable.
  - intros [= <- <-]. right. split; [done|].
    eapply (preserves_run (duration_is (load_duration_ (manager w))));
      [|exact Ecreate|done].
    apply preserves_AddComponents_create_tasks;
      auto using duration_is_stable, duration_is_clock_stable.
  - intros [= <- <-]. right. split; [done|].
    eapply (preserves_run (duration_is (load_duration_ (manager w))));
      [|exact Ecreate|done].
    apply preserves_AddComponents_create_tasks;
      auto using duration_is_stable, duration_is_clock_stable.
Qed.

(** ** Shutdown of the task processors *)

Lemma initiate_shutdown_loop (entries : list (string * TaskProcessor)) :
  forall w, exists w',
    for_each entries (fun entry => TaskProcessor_InitiateShutdown entry.1) w
      = (Normal tt, w') /\
    trace w' = trace w ++ (InitiateShutdown <$> entries.*1) /\
    log w' = log w /\
    pools_use_count w' = pools_use_count w /\
    coro_polls w' = coro_polls w /\
    component_context_ (manager w') = component_context_ (manager w).
Proof.
  induction entries as [|[name tp] rest IH]; intros w.
  - exists w. cbn. by rewrite app_nil_r.
  - cbn [for_each]. rewrite bind_run.
    unfold TaskProcessor_InitiateShutdown at 1. rewrite !bind_run. cbn.
    match goal with |- context [for_each rest _ ?w1] =>
      destruct (IH w1) as (w' & -> & Ht & Hl & Hu & Hp & Hc) end.
    exists w'. split; [done|]. cbn in Ht, Hl, Hu, Hp, Hc.
    rewrite Ht, <- app_assoc. done.
Qed.

Lemma delete_processors_loop (entries : list (string * TaskProcessor)) :
  forall w, exists w',
    for_each entries (fun entry => delete_TaskProcessor entry.1) w
      = (Normal tt, w') /\
    trace w' = trace w ++ (TaskProcessorDestroyed <$> entries.*1) /\
    log w' = log w /\
    pools_use_count w' = (pools_use_count w - length entries)%nat /\
    coro_polls w' = coro_polls w /\
    manager w' = manager w.
Proof.
  induction entries as [|[name tp] rest IH]; intros w.
  - exists w. cbn. rewrite app_nil_r. repeat split; auto; lia.
  - cbn [for_each]. rewrite bind_run.
    unfold delete_TaskProcessor at 1. rewrite !bind_run. cbn.
    match goal with |- context [for_each rest _ ?w1] =>
      destruct (IH w1) as (w' & -> & Ht & Hl & Hu & Hp & Hm) end.
    exists w'. split; [done|]. cbn in Ht, Hl, Hu, Hp, Hm.
    rewrite Ht, <- app_assoc. repeat split; auto. rewrite Hu. cbn. lia.
Qed.

Lemma wait_coroutines_idle_run env k :
  forall fuel w,
    first_idle_after env (coro_polls w) k ->
    (k < fuel)%nat ->
    exists w',
      wait_coroutines_idle env fuel w = (Normal tt, w') /\
      trace w' = trace w ++ replicate k (SleepForMs 10) /\
      log w' = log w /\
      pools_use_count w' = pools_use_count w /\
      coro_polls w' = (coro_polls w + S k)%nat /\
      manager w' = manager w.
Proof.
  induction k as [|k IH]; intros fuel w [Hbusy Hidle] Hfuel;
    (destruct fuel as [|fuel]; [lia|]); cbn [wait_coroutines_idle];
    rewrite bind_run; cbn [read_active_coroutines].
  - rewrite Nat.add_0_r in Hidle. rewrite Hidle. cbn.
    eexists. split; [done|]. cbn. rewrite app_nil_r. repeat split; auto; lia.
  - destruct (decide (active_coroutines env (coro_polls w) = 0%nat)) as [Hz|Hnz].
    { exfalso. apply (Hbusy 0%nat); [lia|]. by rewrite Nat.add_0_r. }
    rewrite bind_run. cbn [sleep_for_ms emit].
    match goal with |- context [wait_coroutines_idle env fuel ?w1] =>
      destruct (IH fuel w1) as (w' & -> & Ht & Hl & Hu & Hp & Hm) end.
    + split.
      * intros j Hj. cbn. rewrite <- Nat.add_succ_r. apply Hbusy. lia.
      * cbn. by rewrite <- Nat.add_succ_r.
    + lia.
    + exists w'. split; [done|]. cbn in Ht, Hl, Hu, Hp, Hm.
      rewrite Ht, <- app_assoc. repeat split; auto. lia.
Qed.

Lemma Reset_run env fuel k w :
  pools_shared_by_processors w ->
  first_idle_after env (coro_polls w) k ->
  (k < fuel)%nat ->
  exists w',
    Reset env fuel w = (Normal tt, w') /\
    trace w' =
      trace w ++ (InitiateShutdown <$> processor_names w) ++
      replicate k (SleepForMs 10) ++
      (TaskProcessorDestroyed <$> processor_names w) ++
      [UAssert true; PoolsReleased] /\
    task_processors_storage_ (manager w') =
      {| task_processor_pools_ := None; task_processors_map_ := ∅ |} /\
    pools_use_count w' = 0%nat /\
    component_context_ (manager w') = component_context_ (manager w) /\
    log w' = log w ++ (LogRecord TRACE <$>
      ["Initiating task processors shutdown";
       "Waiting for all coroutines to become idle";
       "Stopping task processors"; "Stopped task processors";
       "Stopping task processor pools"; "Stopped task processor pools"]).
Proof.
  intros [[pools Hpools] Hcount] Hidle Hfuel.
  unfold processor_names.
  set (entries := map_to_list
    (task_processors_map_ (task_processors_storage_ (manager w)))) in *.
  assert (length entries = size (task_processors_map_
            (task_processors_storage_ (manager w)))) as Hlen.
  { unfold entries. apply length_map_to_list. }
  unfold Reset, noexcept. rewrite bind_run. cbn [LOG].
  rewrite bind_run. unfold get_storage at 1. rewrite bind_run. cbn [get_manager ret].
  cbn [manager set_log]. rewrite bind_run. fold entries.
  match goal with |- context [for_each entries
      (fun entry => TaskProcessor_InitiateShutdown _) ?w1] =>
    destruct (initiate_shutdown_loop entries w1)
      as (w2 & -> & Ht2 & Hl2 & Hu2 & Hp2 & Hc2) end.
  cbn in Ht2, Hl2, Hu2, Hp2, Hc2.
  rewrite bind_run. cbn [LOG]. rewrite Hpools. rewrite bind_run.
  match goal with |- context [wait_coroutines_idle env fuel ?w1] =>
    destruct (wait_coroutines_idle_run env k fuel w1)
      as (w3 & -> & Ht3 & Hl3 & Hu3 & Hp3 & Hm3) end.
  { cbn. by rewrite Hp2. }
  { done. }
  cbn in Ht3, Hl3, Hu3, Hp3, Hm3.
  rewrite bind_run. cbn [LOG]. rewrite bind_run.
  match goal with |- context [for_each entries
      (fun entry => delete_TaskProcessor _) ?w1] =>
    destruct (delete_processors_loop entries w1)
      as (w4 & -> & Ht4 & Hl4 & Hu4 & Hp4 & Hm4) end.
  cbn in Ht4, Hl4, Hu4, Hp4, Hm4.
  rewrite !bind_run. cbn.
  rewrite Hu4, Hu3, Hu2, Hcount, Hlen.
  replace (S (size _) - size _)%nat with 1%nat by lia. cbn.
  eexists. split; [done|]. cbn.
  rewrite Ht4, Ht3, Ht2, <- !app_assoc.
  rewrite Hl4, Hl3, Hl2, <- !app_assoc.
  rewrite Hm4. cbn. rewrite Hm3. cbn. done.
Qed.

(** ** The destructor *)

Lemma Manager_dtor_run env fuel k w c :
  constructed w ->
  component_context_ (manager w) = Some c ->
  first_idle_after env (coro_polls w) k ->
  (k < fuel)%nat ->
  exists w',
    Manager_dtor env fuel w = (Normal tt, w') /\
    trace w' =
      trace w ++ [ContextClearComponents; ContextDestroyed] ++
      (InitiateShutdown <$> processor_names w) ++
      replicate k (SleepForMs 10) ++
      (TaskProcessorDestroyed <$> processor_names w) ++
      [UAssert true; PoolsReleased] /\
    component_context_ (manager w') = None /\
    task_processors_storage_ (manager w') =
      {| task_processor_pools_ := None; task_processors_map_ := ∅ |} /\
    pools_use_count w' = 0%nat /\
    (forall msg,
       clear_outcome env (created c) = Some msg ->
       LogRecord ERROR ("error in clear components: " +:+ msg) ∈ log w').
Proof.
  intros ([Hpools Hcount] & _ & [dtp Hdtp]) Hc Hidle Hfuel.
  unfold Manager_dtor, noexcept.
  rewrite bind_run. cbn [LOG]. rewrite bind_run. cbn [LOG].
  rewrite bind_run. cbn [get_manager set_log manager]. rewrite Hdtp.
  rewrite bind_run. unfold try_catch, RunInCoro.
  match goal with |- context [ClearComponents env ?w1] =>
    destruct (ClearComponents_run env w1 c Hc)
      as (w2 & -> & Ht2 & _ & (Hs2 & _ & Hu2 & Hp2) & Hclear) end.
  cbn in Ht2, Hs2, Hu2, Hp2, Hclear.
  assert (exists c2, component_context_ (manager w2) = Some c2) as [c2 Hc2].
  { destruct (clear_outcome env (created c)); destruct Hclear; eauto. }
  rewrite bind_run. unfold reset_component_context at 1.
  rewrite bind_run. cbn [get_manager]. rewrite Hc2. rewrite !bind_run. cbn [emit modify_manager].
  rewrite bind_run. cbn [LOG]. rewrite bind_run.
  match goal with |- context [Reset env fuel ?w1] =>
    destruct (Reset_run env fuel k w1)
      as (w3 & -> & Ht3 & Hs3 & Hu3 & Hc3 & Hl3) end.
  { split; cbn; rewrite Hs2; [done|]. by rewrite Hu2. }
  { cbn. by rewrite Hp2. }
  { done. }
  cbn in Ht3, Hs3, Hu3, Hc3, Hl3. unfold processor_names in Ht3.
  cbn in Ht3. rewrite Hs2 in Ht3.
  rewrite !bind_run. cbn [LOG].
  unfold TaskProcessorsStorage_dtor, get_storage. rewrite !bind_run.
  cbn [get_manager ret manager set_log]. rewrite Hs3. cbn.
  eexists. split; [done|]. cbn.
  split; [|split; [done|split; [done|split; [done|]]]].
  - rewrite Ht3, Ht2. unfold processor_names. rewrite <- !app_assoc. done.
  - intros msg Hmsg. rewrite Hmsg in Hclear. destruct Hclear as [Hl2 _].
    rewrite Hl3. cbn. rewrite Hl2. cbn.
    rewrite !elem_of_app. left. left. left. right. set_solver.
Qed.

(** ** The CPU limit *)

Lemma accepted_cpu_limit_range env n :
  accepted_cpu_limit env = Some n -> 3 <= n < 32.
Proof.
  unfold accepted_cpu_limit, accepted_cpu_limit_of.
  destruct (getenv_CPU_LIMIT env) as [s|]; [|done].
  destruct (stod env s) as [d pos| |]; [|done|done].
  destruct (decide _); [|done].
  case_bool_decide; [|done]. intros [= <-]. lia.
Qed.

Lemma GuessCpuLimit_try_accepted env tp s w d pos :
  stod env s = StodValue d pos ->
  string_drop pos s = Some "c" ->
  0 < lround env d < 32 ->
  GuessCpuLimit_try env tp s w =
    (Normal (Some (Z.max 3 (lround env d))),
     set_log (log w ++
       [LogRecord INFO
          ("Using CPU limit from env CPU_LIMIT (" +:+
           pretty (Z.max 3 (lround env d)) +:+
           ") for worker_threads " +:+ "of task processor '" +:+
           tp +:+ "', ignoring config value ")]) w).
Proof.
  intros Hstod Hdrop Hrange.
  unfold GuessCpuLimit_try, call_stod, substr.
  rewrite bind_run, Hstod. cbn [ret fst snd]. rewrite bind_run, Hdrop.
  cbn [ret]. rewrite decide_True by done.
  unfold kMaxCpu. rewrite !bool_decide_true by lia. cbn [andb].
  replace (if bool_decide (lround env d < 3) then 3 else lround env d)
    with (Z.max 3 (lround env d)) by (case_bool_decide; lia).
  done.
Qed.

Lemma GuessCpuLimit_try_rejected env tp s w :
  accepted_cpu_limit_of env s = None ->
  exists r,
    GuessCpuLimit_try env tp s w = (r, w) /\
    (r = Normal None \/ exists e, r = Thrown e /\ is_std_exception e = true).
Proof.
  unfold accepted_cpu_limit_of, GuessCpuLimit_try, call_stod, substr.
  rewrite bind_run.
  destruct (stod env s) as [d pos| |] eqn:Hstod; cbn [ret throw fst snd].
  - rewrite bind_run.
    destruct (string_drop pos s) as [rest|] eqn:Hdrop; cbn [ret throw].
    + destruct (decide (rest = "c")) as [->|Hne].
      * rewrite decide_True by done.
        case_bool_decide as Hrange; [done|]. intros _.
        unfold kMaxCpu.
        destruct (bool_decide (lround env d > 0)) eqn:E1;
          destruct (bool_decide (lround env d < 32)) eqn:E2; cbn [andb]; eauto.
        apply bool_decide_eq_true in E1. apply bool_decide_eq_true in E2. lia.
      * eauto.
    + eauto 10.
  - eauto 10.
  - eauto 10.
Qed.

Lemma GuessCpuLimit_run env tp w :
  exists l,
    GuessCpuLimit env tp w =
      (Normal (accepted_cpu_limit env), set_log (log w ++ l) w) /\
    Forall (fun r => level r <> WARNING) l /\
    match getenv_CPU_LIMIT env with
    | None => l = [LogRecord INFO "CPU_LIMIT env is unset, ignoring it"]
    | Some cpu_limit =>
        match accepted_cpu_limit_of env cpu_limit with
        | Some n =>
            l = [LogRecord INFO ("CPU_LIMIT='" +:+ cpu_limit +:+ "'");
                 LogRecord INFO
                   ("Using CPU limit from env CPU_LIMIT (" +:+ pretty n +:+
                    ") for worker_threads " +:+ "of task processor '" +:+
                    tp +:+ "', ignoring config value ")]
        | None =>
            exists l0,
              l = LogRecord INFO ("CPU_LIMIT='" +:+ cpu_limit +:+ "'") :: l0 ++
                  [LogRecord ERROR ("CPU_LIMIT env is invalid (" +:+ cpu_limit
                                    +:+ "), ignoring it")]
        end
    end.
Proof.
  unfold GuessCpuLimit, accepted_cpu_limit.
  destruct (getenv_CPU_LIMIT env) as [s|].
  2:{ eexists. split; [done|]. split; [|done]. repeat constructor; done. }
  rewrite bind_run. cbn [LOG]. rewrite bind_run. unfold try_catch.
  destruct (accepted_cpu_limit_of env s) as [n|] eqn:Hacc.
  - unfold accepted_cpu_limit_of in Hacc.
    destruct (stod env s) as [d pos| |] eqn:Hstod; [|done|done].
    destruct (decide _) as [Hdrop|]; [|done].
    case_bool_decide as Hrange; [|done]. injection Hacc as <-.
    erewrite GuessCpuLimit_try_accepted by done. cbn. rewrite <- app_assoc.
    eexists. split; [done|]. split; [|done]. repeat constructor; done.
  - match goal with |- context [GuessCpuLimit_try env tp s ?w1] =>
      destruct (GuessCpuLimit_try_rejected env tp s w1 Hacc)
        as (r & -> & [->|(e & -> & He)]) end.
    + cbn. rewrite <- app_assoc.
      eexists. split; [done|]. split; [repeat constructor; done|].
      by exists [].
    + unfold catch_std. rewrite He. rewrite !bind_run. cbn.
      rewrite <- !app_assoc.
      eexists. split; [done|]. split; [repeat constructor; done|].
      by eexists [_].
Qed.

(** ** The task processors of the constructor *)

Lemma new_TaskProcessor_Add_run pc w :
  exists w' rest,
    bind (new_TaskProcessor pc) (fun tp => Add (tp_name pc) tp) w
      = (Normal tt, w') /\
    trace w' =
      trace w ++ TaskProcessorCreated (tp_name pc) (worker_threads pc) :: rest /\
    log w' = log w /\
    clock_reads w' = clock_reads w /\
    coro_polls w' = coro_polls w /\
    task_processor_pools_ (task_processors_storage_ (manager w')) =
      task_processor_pools_ (task_processors_storage_ (manager w)) /\
    (pools_use_count w =
       S (size (task_processors_map_ (task_processors_storage_ (manager w)))) ->
     pools_use_count w' =
       S (size (task_processors_map_ (task_processors_storage_ (manager w'))))) /\
    is_Some (task_processors_map_ (task_processors_storage_ (manager w'))
               !! tp_name pc) /\
    (forall name,
       is_Some (task_processors_map_ (task_processors_storage_ (manager w)) !! name) ->
       is_Some (task_processors_map_ (task_processors_storage_ (manager w')) !! name)).
Proof.
  unfold new_TaskProcessor, Add, get_storage, put_storage,
    delete_TaskProcessor, get_use_count, put_use_count, emit, bind, ret,
    get_manager, modify_manager. cbn.
  destruct (task_processors_map_ (task_processors_storage_ (manager w))
              !! tp_name pc) as [old|] eqn:Elook.
  - eexists _, [_]. split; [done|]. cbn. rewrite <- app_assoc.
    repeat split; auto.
  - eexists _, []. split; [done|]. cbn.
    repeat split; auto.
    + intros Hcount. rewrite map_size_insert_None by done. by rewrite Hcount.
    + rewrite lookup_insert_eq. eauto.
    + intros name [tp Htp]. destruct (decide (tp_name pc = name)) as [<-|Hne].
      * rewrite lookup_insert_eq. eauto.
      * rewrite lookup_insert_ne by done. eauto.
Qed.

Lemma add_task_processor_run env config pc w :
  exists w' rest l,
    add_task_processor env config pc w = (Normal tt, w') /\
    trace w' =
      trace w ++
      TaskProcessorCreated (tp_name pc) (effective_worker_threads env config pc)
      :: rest /\
    log w' = log w ++ l /\
    (should_guess_cpu_limit pc = true ->
     default_task_processor config = tp_name pc ->
     GuessCpuLimit env (tp_name pc) w =
       (Normal (accepted_cpu_limit env), set_log (log w ++ l) w)) /\
    clock_reads w' = clock_reads w /\
    coro_polls w' = coro_polls w /\
    task_processor_pools_ (task_processors_storage_ (manager w')) =
      task_processor_pools_ (task_processors_storage_ (manager w)) /\
    (pools_use_count w =
       S (size (task_processors_map_ (task_processors_storage_ (manager w)))) ->
     pools_use_count w' =
       S (size (task_processors_map_ (task_processors_storage_ (manager w'))))) /\
    is_Some (task_processors_map_ (task_processors_storage_ (manager w'))
               !! tp_name pc) /\
    (forall name,
       is_Some (task_processors_map_ (task_processors_storage_ (manager w)) !! name) ->
       is_Some (task_processors_map_ (task_processors_storage_ (manager w')) !! name)).
Proof.
  unfold add_task_processor, effective_worker_threads. rewrite bind_run.
  destruct (should_guess_cpu_limit pc) eqn:Eguess; cbn [andb].
  - destruct (decide (default_task_processor config = tp_name pc)) as [Hdef|Hndef].
    + rewrite bool_decide_true by done. rewrite bind_run.
      destruct (GuessCpuLimit_run env (tp_name pc) w) as (l & Hrun & _).
      rewrite Hrun.
      destruct (accepted_cpu_limit env) as [cpu|]; cbn [ret default].
      * match goal with |- context [bind (new_TaskProcessor ?pc1) _ ?w1] =>
          destruct (new_TaskProcessor_Add_run pc1 w1)
            as (w' & rest & -> & Ht & Hl & Hc & Hp & Hs & Hu & Hin & Hmono) end.
        cbn in Ht, Hl, Hc, Hp, Hs, Hu, Hin, Hmono.
        exists w', rest, l. repeat split; auto.
      * match goal with |- context [bind (new_TaskProcessor ?pc1) _ ?w1] =>
          destruct (new_TaskProcessor_Add_run pc1 w1)
            as (w' & rest & -> & Ht & Hl & Hc & Hp & Hs & Hu & Hin & Hmono) end.
        cbn in Ht, Hl, Hc, Hp, Hs, Hu, Hin, Hmono.
        exists w', rest, l. repeat split; auto.
    + rewrite bool_decide_false by done. rewrite bind_run. cbn [LOG ret].
      match goal with |- context [bind (new_TaskProcessor ?pc1) _ ?w1] =>
        destruct (new_TaskProcessor_Add_run pc1 w1)
          as (w' & rest & -> & Ht & Hl & Hc & Hp & Hs & Hu & Hin & Hmono) end.
      cbn in Ht, Hl, Hc, Hp, Hs, Hu, Hin, Hmono.
      eexists w', rest, _. repeat split; eauto. done.
  - cbn [ret].
    destruct (new_TaskProcessor_Add_run pc w)
      as (w' & rest & -> & Ht & Hl & Hc & Hp & Hs & Hu & Hin & Hmono).
    exists w', rest, []. rewrite app_nil_r.
    repeat split; auto. done.
Qed.

Lemma add_task_processors_run env config configs :
  forall w, exists w',
    for_each configs (add_task_processor env config) w = (Normal tt, w') /\
    clock_reads w' = clock_reads w /\
    coro_polls w' = coro_polls w /\
    task_processor_pools_ (task_processors_storage_ (manager w')) =
      task_processor_pools_ (task_processors_storage_ (manager w)) /\
    (pools_use_count w =
       S (size (task_processors_map_ (task_processors_storage_ (manager w)))) ->
     pools_use_count w' =
       S (size (task_processors_map_ (task_processors_storage_ (manager w'))))).
Proof.
  induction configs as [|pc rest IH]; intros w.
  - exists w. done.
  - cbn [for_each]. rewrite bind_run.
    destruct (add_task_processor_run env config pc w)
      as (w1 & ? & ? & -> & _ & _ & _ & Hc & Hp & Hs & Hu & _).
    destruct (IH w1) as (w' & -> & Hc' & Hp' & Hs' & Hu').
    exists w'. split; [done|]. repeat split; try congruence. auto.
Qed.

Lemma pools_shared_stable : boot_stable pools_shared_by_processors.
Proof. split; unfold pools_shared_by_processors; cbn; auto. Qed.


Lemma has_default_stable : boot_stable has_default.
Proof. split; unfold has_default; cbn; auto. Qed.

Lemma constructed_stable : boot_stable constructed.
Proof.
  split; unfold constructed, pools_shared_by_processors; cbn; intuition eauto.
Qed.

Lemma constructed_clock_stable : clock_stable constructed.
Proof. intros w n. done. Qed.

Lemma constructed_load_duration_stable : load_duration_stable constructed.
Proof. intros w d. done. Qed.

Lemma CreateComponentContext_returns env component_list w w' :
  CreateComponentContext env component_list w = (Normal tt, w') ->
  NoDup (GetComponentName <$> component_list) /\
  AddComponents env component_list
    (set_manager
       (set_component_context_
          (Some {| expected_names :=
                     ∅ ∪ list_to_set (GetComponentName <$> component_list);
                   created := []; load_cancelled := false |})
          (manager w))
       (set_trace
          (trace w ++
           [ContextCreated
              (∅ ∪ list_to_set (GetComponentName <$> component_list))]) w))
    = (Normal tt, w').
Proof.
  unfold CreateComponentContext. rewrite bind_run.
  destruct (collect_loading_component_names_spec component_list ∅ w)
    as [(name & -> & _)|(-> & Hnd & _)]; [done|].
  rewrite !bind_run. cbn [emit put_context modify_manager]. rewrite bind_run. cbn.
  intros H. split; [done|]. exact H.
Qed.

Lemma Manager_ctor_returns env fuel config component_list w w' :
  Manager_ctor env fuel config component_list w = (Normal tt, w') ->
  constructed w' /\
  NoDup (GetComponentName <$> component_list) /\
  load_duration_ (manager w') =
    duration_cast_milliseconds
      (steady_clock env (S (S (clock_reads w)))
       - steady_clock env (S (clock_reads w))).
Proof.
  unfold Manager_ctor. rewrite bind_run. cbn [Manager_init].
  set (w0 := mkWorld _ _ _ _ _ _).
  unfold try_catch.
  destruct (Manager_ctor_body env config component_list w0) as [[[]|e| |] w1] eqn:Ebody.
  2:{ intros Hrun. exfalso. revert Hrun.
      intros Hrun. eapply (never_normal_bind reset_component_context); [|exact Hrun|done].
      intros ?. apply never_normal_bind. intros ?. apply never_normal_throw. }
  2,3: done.
  intros [= <-]. revert Ebody.
  unfold Manager_ctor_body. rewrite bind_run. cbn [LOG]. rewrite bind_run.
  match goal with |- context [for_each _ _ ?wa] =>
    destruct (add_task_processors_run env config (task_processors config) wa)
      as (w2 & -> & Hc2 & _ & Hs2 & Hu2) end.
  cbn in Hc2, Hs2, Hu2. specialize (Hu2 eq_refl).
  unfold get_storage. rewrite !bind_run. cbn [get_manager ret].
  destruct (task_processors_map_ (task_processors_storage_ (manager w2))
              !! default_task_processor config) as [tp|]; [|done].
  rewrite bind_run. cbn [modify_manager]. rewrite bind_run. unfold RunInCoro.
  match goal with |- context [CreateComponentContext env component_list ?wa] =>
    destruct (CreateComponentContext env component_list wa)
      as [[[]|?| |] w3] eqn:Ecreate; try done end.
  cbn [LOG]. intros [= <-].
  apply CreateComponentContext_returns in Ecreate as [Hnd Hadd].
  split; [|split; [done|]].
  - apply constructed_stable.
    eapply (preserves_run constructed); [|exact Hadd|].
    + apply preserves_AddComponents;
        auto using constructed_stable, constructed_clock_stable,
          constructed_load_duration_stable.
    + unfold constructed, pools_shared_by_processors. cbn.
      rewrite Hs2. eauto.
  - apply AddComponents_load_duration in Hadd as [(_ & Hd & _)|[Hne _]]; [|done].
    cbn in Hd. cbn. rewrite Hd, Hc2. done.
Qed.

(** * The statements of the specification *)

Import Examples.

(** ** A failing construction task *)

Lemma AddComponents_first_failure_witness :
  exists w2,
    AddComponents quiet_env (three_components (runtime_error "bad"))
      (loading_world three_configs ["a"; "b"; "c"])
      = (Thrown (runtime_error "bad"), w2) /\
    components_cleared_ (manager w2) = true.
Proof.
  destruct (AddComponents_first_failure quiet_env
              (three_components (runtime_error "bad"))
              (loading_world three_configs ["a"; "b"; "c"])
              0
              [mkTask "boot/a" true (inl tt);
               mkTask "boot/b" true (inr (runtime_error "bad"));
               mkTask "boot/c" true
                 (inr (ComponentsLoadCancelledException "load cancelled"))]
              (AddComponents_create_tasks quiet_env
                 (three_components (runtime_error "bad"))
                 (loading_world three_configs ["a"; "b"; "c"])).2
              [mkTask "boot/a" true (inl tt)]
              (mkTask "boot/b" true (inr (runtime_error "bad")))
              [mkTask "boot/c" true
                 (inr (ComponentsLoadCancelledException "load cancelled"))]
              (runtime_error "bad"))
    as (w2 & Hrun & _ & Hcleared).
  - eexists. reflexivity.
  - vm_compute. reflexivity.
  - reflexivity.
  - repeat constructor.
  - reflexivity.
  - reflexivity.
  - reflexivity.
  - exists w2. split; assumption.
Defined.

Lemma AddComponents_foreign_exception_counterexample :
  (AddComponents quiet_env (three_components (non_std_exception "forced_unwind"))
     (loading_world three_configs ["a"; "b"; "c"])).1
    = Thrown (non_std_exception "forced_unwind") /\
  trace (AddComponents quiet_env
           (three_components (non_std_exception "forced_unwind"))
           (loading_world three_configs ["a"; "b"; "c"])).2
    = [TaskSpawned "boot/a"; ContextAddComponent "a"; FactoryInvoked "a";
       TaskSpawned "boot/b"; ContextAddComponent "b"; FactoryInvoked "b";
       CancelComponentsLoad;
       TaskSpawned "boot/c"; ContextAddComponent "c"; FactoryInvoked "c";
       CancelComponentsLoad;
       TaskGet "boot/a"; TaskGet "boot/b"] /\
  components_cleared_
    (manager (AddComponents quiet_env
                (three_components (non_std_exception "forced_unwind"))
                (loading_world three_configs ["a"; "b"; "c"])).2) = false.
Proof. vm_compute. repeat split. Qed.

(** ** The CPU limit of the default task processor *)

(** Claim C2, as amended.  Every task processor is built with
    [effective_worker_threads]: on the default task processor with
    [should_guess_cpu_limit] set, [CPU_LIMIT] is read by [std::stod], what
    follows the number must be exactly ["c"], the number is rounded to the
    nearest integer [n], and when [0 < n < 32] the task processor gets
    [max 3 n] worker threads, a value between 3 and 31; in every other case
    the configured [worker_threads] stay.  No record of the log has the
    level WARNING: an unset variable leaves one INFO record, a value that is
    set and not accepted leaves an ERROR record as the last one. *)
Theorem cpu_limit_worker_threads env config pc w :
  exists w' rest l,
    add_task_processor env config pc w = (Normal tt, w') /\
    trace w' =
      trace w ++
      TaskProcessorCreated (tp_name pc) (effective_worker_threads env config pc)
      :: rest /\
    log w' = log w ++ l /\
    (forall n, accepted_cpu_limit env = Some n -> 3 <= n < 32) /\
    (should_guess_cpu_limit pc = true ->
     default_task_processor config = tp_name pc ->
     Forall (fun r => level r <> WARNING) l /\
     match getenv_CPU_LIMIT env with
     | None => l = [LogRecord INFO "CPU_LIMIT env is unset, ignoring it"]
     | Some cpu_limit =>
         match accepted_cpu_limit_of env cpu_limit with
         | Some n =>
             l = [LogRecord INFO ("CPU_LIMIT='" +:+ cpu_limit +:+ "'");
                  LogRecord INFO
                    ("Using CPU limit from env CPU_LIMIT (" +:+ pretty n +:+
                     ") for worker_threads " +:+ "of task processor '" +:+
                     tp_name pc +:+ "', ignoring config value ")]
         | None =>
             exists l0,
               l = LogRecord INFO ("CPU_LIMIT='" +:+ cpu_limit +:+ "'") :: l0 ++
                   [LogRecord ERROR ("CPU_LIMIT env is invalid (" +:+ cpu_limit
                                     +:+ "), ignoring it")]
         end
     end).
Proof.
  destruct (add_task_processor_run env config pc w)
    as (w' & rest & l & Hrun & Ht & Hl & Hguess & _).
  exists w', rest, l. split; [done|]. split; [done|]. split; [done|].
  split; [apply accepted_cpu_limit_range|].
  intros Hshould Hdefault. specialize (Hguess Hshould Hdefault).
  destruct (GuessCpuLimit_run env (tp_name pc) w) as (l' & Hrun' & Hlevels & Hshape).
  rewrite Hguess in Hrun'. injection Hrun' as Hlog.
  apply app_inv_head in Hlog.
  subst l'. done.
Qed.

Lemma cpu_limit_worker_threads_witness :
  exists w',
    add_task_processor two_cpu_env three_configs main_processor
      (blank_world three_configs) = (Normal tt, w') /\
    trace w' = [TaskProcessorCreated "main-task-processor" 3] /\
    accepted_cpu_limit (env_of (Some "4c") slow_clock draining None None)
      = Some 4.
Proof.
  destruct (cpu_limit_worker_threads two_cpu_env three_configs main_processor
              (blank_world three_configs))
    as (w' & rest & l & Hrun & Htrace & _ & Hrange & Hlog).
  destruct (Hlog eq_refl eq_refl) as [_ _].
  pose proof (Hrange 3 eq_refl) as _.
  exists w'. split; [exact Hrun|]. split; [|reflexivity].
  vm_compute in Hrun. injection Hrun as <-. reflexivity.
Defined.

Lemma cpu_limit_fraction_counterexample :
  PlainDecimal.stod "0.4c"
    = StodValue {| PlainDecimal.mantissa := 4; PlainDecimal.scale := 1 |} 3 /\
  trace (add_task_processor fraction_env three_configs main_processor
           (blank_world three_configs)).2
    = [TaskProcessorCreated "main-task-processor" 8] /\
  log (add_task_processor fraction_env three_configs main_processor
         (blank_world three_configs)).2
    = [LogRecord INFO "CPU_LIMIT='0.4c'";
       LogRecord ERROR "CPU_LIMIT env is invalid (0.4c), ignoring it"] /\
  log (GuessCpuLimit quiet_env "main-task-processor"
         (blank_world three_configs)).2
    = [LogRecord INFO "CPU_LIMIT env is unset, ignoring it"].
Proof. vm_compute. repeat split. Qed.

(** The values of [CPU_LIMIT] the specification lists, read as plain
    decimal literals. *)
Example accepted_cpu_limit_examples :
  accepted_cpu_limit (env_of (Some "4c") slow_clock draining None None)
    = Some 4 /\
  accepted_cpu_limit (env_of (Some "2c") slow_clock draining None None)
    = Some 3 /\
  accepted_cpu_limit (env_of (Some "31c") slow_clock draining None None)
    = Some 31 /\
  accepted_cpu_limit (env_of (Some "32c") slow_clock draining None None)
    = None /\
  accepted_cpu_limit (env_of (Some "0c") slow_clock draining None None)
    = None /\
  accepted_cpu_limit (env_of (Some "-4c") slow_clock draining None None)
    = None /\
  accepted_cpu_limit (env_of (Some "4") slow_clock draining None None)
    = None /\
  accepted_cpu_limit (env_of (Some "4cc") slow_clock draining None None)
    = None /\
  accepted_cpu_limit (env_of (Some "abc") slow_clock draining None None)
    = None /\
  accepted_cpu_limit (env_of None slow_clock draining None None) = None.
Proof. vm_compute. repeat split. Qed.

(** With [CPU_LIMIT=2c] the constructor builds the default task processor
    with three worker threads and the other one as configured. *)
Example Manager_ctor_two_cpus :
  take 3 (trace (booted_world two_cpu_env))
    = [PoolsCreated; TaskProcessorCreated "main-task-processor" 3;
       TaskProcessorCreated "fs-task-processor" 2].
Proof. vm_compute. reflexivity. Qed.

(** ** A load that was cancelled without a failure *)

Lemma AddComponents_only_cancelled_witness :
  exists w2,
    AddComponents quiet_env
      (three_components (ComponentsLoadCancelledException "stalled"))
      (loading_world three_configs ["a"; "b"; "c"])
      = (Thrown (logic_error
           "Components load cancelled, but only ComponentsLoadCancelledExceptions were caught"),
         w2) /\
    components_cleared_ (manager w2) = true.
Proof.
  destruct (AddComponents_only_cancelled quiet_env
              (three_components (ComponentsLoadCancelledException "stalled"))
              (loading_world three_configs ["a"; "b"; "c"])
              0
              [mkTask "boot/a" true (inl tt);
               mkTask "boot/b" true
                 (inr (ComponentsLoadCancelledException "stalled"));
               mkTask "boot/c" true
                 (inr (ComponentsLoadCancelledException "load cancelled"))]
              (AddComponents_create_tasks quiet_env
                 (three_components (ComponentsLoadCancelledException "stalled"))
                 (loading_world three_configs ["a"; "b"; "c"])).2)
    as (w2 & Hrun & _ & Hcleared).
  - eexists. reflexivity.
  - vm_compute. reflexivity.
  - repeat constructor.
  - reflexivity.
  - exists w2. split; assumption.
Defined.

Lemma AddComponents_reports_cancellation_counterexample :
  (AddComponents quiet_env
     (three_components (ComponentsLoadCancelledException "stalled"))
     (loading_world three_configs ["a"; "b"; "c"])).1
    = Thrown (logic_error
        "Components load cancelled, but only ComponentsLoadCancelledExceptions were caught").
Proof. vm_compute. reflexivity. Qed.

(** ** Duplicate component names *)

Lemma CreateComponentContext_duplicate_witness :
  exists name,
    CreateComponentContext quiet_env
      [adder "a" plain_component; adder "b" plain_component;
       adder "a" logging_component]
      (blank_world three_configs)
    = (Thrown (runtime_error
         ("duplicate component name in component_list: " +:+ name)),
       set_log [LogRecord ERROR
         ("duplicate component name in component_list: " +:+ name)]
         (blank_world three_configs)).
Proof.
  destruct (CreateComponentContext_duplicate
              [adder "a" plain_component; adder "b" plain_component;
               adder "a" logging_component]
              (blank_world three_configs)) as (name & _ & Hrun).
  - intros Hnd. apply NoDup_cons in Hnd as [Hnotin _].
    apply Hnotin. right. left.
  - exists name. apply Hrun.
Defined.

(** ** Configs of unregistered components *)

(** Claim C5.  When the components section of the configuration holds a
    name that is not registered in the component list, [AddComponents]
    clears the components and throws the error that names the first such
    config; nothing else happens, so no construction task is created.
    [CreateComponentContext] does the same on a component list without
    duplicates, right after it created the context. *)
Theorem unregistered_config_fails env component_list pre config post :
  Forall (fun c => Contains component_list (Name c) = true) pre ->
  Contains component_list (Name config) = false ->
  (forall w,
     has_context w ->
     components (config_ (manager w)) = pre ++ config :: post ->
     exists w2,
       AddComponents env component_list w =
         (Thrown (runtime_error
            ("component config is found in config.yaml, but no component with "
             +:+ "such name is registered: '" +:+ Name config +:+
             "', forgot to register in RegisterUserComponents()?")), w2) /\
       trace w2 = trace w ++ [ContextClearComponents] /\
       components_cleared_ (manager w2) = true) /\
  (forall w,
     NoDup (GetComponentName <$> component_list) ->
     components (config_ (manager w)) = pre ++ config :: post ->
     exists w2,
       CreateComponentContext env component_list w =
         (Thrown (runtime_error
            ("component config is found in config.yaml, but no component with "
             +:+ "such name is registered: '" +:+ Name config +:+
             "', forgot to register in RegisterUserComponents()?")), w2) /\
       trace w2 =
         trace w ++
         [ContextCreated (∅ ∪ list_to_set (GetComponentName <$> component_list));
          ContextClearComponents] /\
       components_cleared_ (manager w2) = true).
Proof.
  intros Hpre Hunreg. split.
  - intros w Hctx Hconfigs.
    by apply (AddComponents_unregistered_config env component_list w pre config post).
  - intros w Hnd Hconfigs. unfold CreateComponentContext. rewrite bind_run.
    destruct (collect_loading_component_names_spec component_list ∅ w)
      as [(name & _ & _ & [Hin|Hdup])|(-> & _ & _)]; [set_solver|done|].
    rewrite !bind_run. cbn [emit put_context modify_manager]. rewrite bind_run.
    cbn [emit put_context modify_manager].
    match goal with |- context [AddComponents env component_list ?w1] =>
      destruct (AddComponents_unregistered_config env component_list w1
                  pre config post) as (w2 & -> & Ht & Hc) end; try done.
    + eexists. done.
    + exists w2. split; [done|]. split; [|done].
      rewrite Ht. cbn. by rewrite <- app_assoc.
Qed.

Lemma unregistered_config_fails_witness :
  exists w2,
    CreateComponentContext quiet_env [adder "a" plain_component]
      (blank_world three_configs)
    = (Thrown (runtime_error
         "component config is found in config.yaml, but no component with such name is registered: 'b', forgot to register in RegisterUserComponents()?"),
       w2) /\
    components_cleared_ (manager w2) = true.
Proof.
  destruct (unregistered_config_fails quiet_env [adder "a" plain_component]
              [component_config "a"] (component_config "b")
              [component_config "c"]) as [_ Hboot].
  - repeat constructor.
  - reflexivity.
  - destruct (Hboot (blank_world three_configs)) as (w2 & Hrun & _ & Hcleared).
    + repeat constructor. intros Hin. inversion Hin.
    + reflexivity.
    + exists w2. split; assumption.
Defined.

(** ** Disabled components *)

(** Claim C6.  A component whose config says [load-enabled: false] is
    skipped: [AddComponentImpl] returns, and only the log has changed, so
    the factory was not invoked and the context holds what it held.  A
    config without the key is read as [true]: the component is added to
    the context and its factory is invoked. *)
Theorem load_enabled_default_and_skip
    (config_map : gmap string ComponentConfig) name config f w :
  config_map !! name = Some config ->
  (ParseOptionalBool config "load-enabled" = Some false ->
   AddComponentImpl config_map name f w =
     (Normal tt,
      set_log (log w ++ [LogRecord INFO ("Component " +:+ name +:+
                           " load disabled in config.yaml, skipping")]) w)) /\
  (ParseOptionalBool config "load-enabled" = None ->
   forall context,
     component_context_ (manager w) = Some context ->
     exists r w',
       AddComponentImpl config_map name f w = (r, w') /\
       trace w' = trace w ++ [ContextAddComponent name; FactoryInvoked name] /\
       match f config context with
       | Constructed c =>
           r = Normal tt /\
           component_context_ (manager w') =
             Some {| expected_names := expected_names context;
                     created := created context ++ [name];
                     load_cancelled := load_cancelled context |}
       | FactoryThrows e =>
           r = Thrown e /\ component_context_ (manager w') = Some context
       end).
Proof.
  intros Hlookup. split.
  - intros Hfalse. by apply AddComponentImpl_disabled with config.
  - intros Hnone context Hctx.
    apply AddComponentImpl_enabled; [done| |done]. by rewrite Hnone.
Qed.

Lemma load_enabled_default_and_skip_witness :
  AddComponentImpl {["a" := disabled_config "a"]} "a" plain_component
    (loading_world three_configs ["a"])
  = (Normal tt,
     set_log [LogRecord INFO "Component a load disabled in config.yaml, skipping"]
       (loading_world three_configs ["a"])).
Proof.
  apply (load_enabled_default_and_skip {["a" := disabled_config "a"]} "a"
           (disabled_config "a") plain_component
           (loading_world three_configs ["a"])).
  - reflexivity.
  - reflexivity.
Defined.

(** ** The order of the shutdown *)

(** Claim C7.  [Reset] initiates the shutdown of every task processor,
    then reads the number of active coroutines, sleeping 10 ms after each
    reading that is not zero, then destroys the task processors, and then
    releases the pools; the asserted condition holds there: one strong
    reference is left, and none after the release.  The pools are shared
    by the storage and its task processors only, and the coroutine pool
    reports zero at its [k]-th next reading. *)
Theorem Reset_shutdown_order env fuel k w :
  pools_shared_by_processors w ->
  first_idle_after env (coro_polls w) k ->
  (k < fuel)%nat ->
  exists w',
    Reset env fuel w = (Normal tt, w') /\
    trace w' =
      trace w ++ (InitiateShutdown <$> processor_names w) ++
      replicate k (SleepForMs 10) ++
      (TaskProcessorDestroyed <$> processor_names w) ++
      [UAssert true; PoolsReleased] /\
    task_processors_storage_ (manager w') =
      {| task_processor_pools_ := None; task_processors_map_ := ∅ |} /\
    pools_use_count w' = 0%nat.
Proof.
  intros Hshared Hidle Hfuel.
  destruct (Reset_run env fuel k w Hshared Hidle Hfuel)
    as (w' & Hrun & Ht & Hs & Hu & _).
  eauto.
Qed.

Lemma draining_first_idle from :
  from = 0%nat -> first_idle_after quiet_env from 2.
Proof.
  intros ->. split.
  - intros j Hj. destruct j as [|[|j]]; cbn; lia.
  - reflexivity.
Defined.

Lemma Reset_shutdown_order_witness :
  exists w',
    Reset quiet_env 5 (booted_world quiet_env) = (Normal tt, w') /\
    trace w' =
      trace (booted_world quiet_env) ++
      [InitiateShutdown "main-task-processor";
       InitiateShutdown "fs-task-processor";
       SleepForMs 10; SleepForMs 10;
       TaskProcessorDestroyed "main-task-processor";
       TaskProcessorDestroyed "fs-task-processor";
       UAssert true; PoolsReleased].
Proof.
  destruct (Reset_shutdown_order quiet_env 5 2 (booted_world quiet_env))
    as (w' & Hrun & Htrace & _).
  - split; [eexists; vm_compute; reflexivity|vm_compute; reflexivity].
  - apply draining_first_idle. vm_compute. reflexivity.
  - lia.
  - exists w'. split; [exact Hrun|]. rewrite Htrace. vm_compute. reflexivity.
Defined.

(** ** A destructor whose clearing fails *)

(** The destructor over the context of the environment, whose clearing
    throws an exception derived from [std::exception] with the message
    [msg]: the error is logged and the destructor goes on to its end.  The
    manager is one its constructor returned, and the coroutine pool reports
    zero at its [k]-th next reading. *)
Theorem Manager_dtor_swallows_clear_failure env fuel k w context msg :
  constructed w ->
  component_context_ (manager w) = Some context ->
  clear_outcome env (created context) = Some msg ->
  first_idle_after env (coro_polls w) k ->
  (k < fuel)%nat ->
  exists w',
    Manager_dtor env fuel w = (Normal tt, w') /\
    LogRecord ERROR ("error in clear components: " +:+ msg) ∈ log w' /\
    trace w' =
      trace w ++ [ContextClearComponents; ContextDestroyed] ++
      (InitiateShutdown <$> processor_names w) ++
      replicate k (SleepForMs 10) ++
      (TaskProcessorDestroyed <$> processor_names w) ++
      [UAssert true; PoolsReleased] /\
    component_context_ (manager w') = None /\
    task_processors_storage_ (manager w') =
      {| task_processor_pools_ := None; task_processors_map_ := ∅ |} /\
    pools_use_count w' = 0%nat.
Proof.
  intros Hcons Hctx Hclear Hidle Hfuel.
  destruct (Manager_dtor_run env fuel k w context Hcons Hctx Hidle Hfuel)
    as (w' & Hrun & Ht & Hc & Hs & Hu & Hlog).
  exists w'. repeat split; auto.
Qed.

Lemma two_cpu_first_idle from :
  from = 0%nat -> first_idle_after two_cpu_env from 2.
Proof.
  intros ->. split.
  - intros j Hj. destruct j as [|[|j]]; cbn; lia.
  - reflexivity.
Defined.

Lemma Manager_dtor_swallows_clear_failure_witness :
  exists w',
    Manager_dtor two_cpu_env 5 (booted_world two_cpu_env) = (Normal tt, w') /\
    LogRecord ERROR "error in clear components: boom" ∈ log w' /\
    pools_use_count w' = 0%nat.
Proof.
  destruct (Manager_dtor_swallows_clear_failure two_cpu_env 5 2
              (booted_world two_cpu_env)
              {| expected_names := list_to_set ["a"; "b"; "c"];
                 created := ["a"; "b"; "c"]; load_cancelled := false |}
              "boom")
    as (w' & Hrun & Hlog & _ & _ & _ & Hcount).
  - split; [split; [eexists; vm_compute; reflexivity|vm_compute; reflexivity]|].
    split; eexists; vm_compute; reflexivity.
  - vm_compute. reflexivity.
  - vm_compute. reflexivity.
  - apply two_cpu_first_idle. vm_compute. reflexivity.
  - lia.
  - exists w'. split; [exact Hrun|]. split; [exact Hlog|exact Hcount].
Defined.

(** The code over a context that throws any object is the code of above
    when the context throws what [clear_outcome] says. *)
Lemma AnyException_ClearComponents_agrees env w :
  AnyException.ClearComponents (clear_throws_of env) w = ClearComponents env w.
Proof.
  unfold AnyException.ClearComponents, ClearComponents, noexcept, bind,
    try_catch, AnyException.Context_ClearComponents, Context_ClearComponents,
    with_context, bind, clear_throws_of. cbn.
  destruct (component_context_ (manager w)) as [c|]; [|done]. cbn.
  by destruct (clear_outcome env (created c)).
Qed.

Lemma AnyException_Manager_dtor_agrees env fuel w :
  AnyException.Manager_dtor env (clear_throws_of env) fuel w =
  Manager_dtor env fuel w.
Proof.
  unfold AnyException.Manager_dtor, Manager_dtor, noexcept.
  rewrite !bind_run. cbn [LOG]. rewrite !bind_run. cbn [LOG].
  rewrite !bind_run. cbn [get_manager].
  destruct (default_task_processor_ _) as [name|]; [|done].
  rewrite !bind_run. unfold try_catch, RunInCoro.
  by rewrite AnyException_ClearComponents_agrees.
Qed.






(** ** The load duration of a boot *)

(** Claim C9, as amended.  With a clock that never runs backwards, after
    a constructor that returned [GetLoadDuration] gives the whole
    milliseconds between the two readings of the clock in [AddComponents],
    a duration that is zero or more.  [AddComponents] records it after the
    hooks of [OnAllComponentsLoaded] ran, as its last action; when
    [AddComponents] does not return, the duration is left as it was. *)
Theorem load_duration_recorded env :
  monotone_clock env ->
  (forall fuel config component_list w w',
     Manager_ctor env fuel config component_list w = (Normal tt, w') ->
     exists d,
       GetLoadDuration w' = (Normal d, w') /\
       d = duration_cast_milliseconds
             (steady_clock env (S (S (clock_reads w)))
              - steady_clock env (S (clock_reads w))) /\
       0 <= d) /\
  (forall component_list w r w',
     AddComponents env component_list w = (r, w') ->
     (r = Normal tt ->
      exists t, trace w' = t ++ [ContextOnAllComponentsLoaded]) /\
     (r <> Normal tt ->
      load_duration_ (manager w') = load_duration_ (manager w))).
Proof.
  intros Hmono. split.
  - intros fuel config component_list w w' Hctor.
    apply Manager_ctor_returns in Hctor as (_ & _ & Hd).
    exists (load_duration_ (manager w')). split; [done|]. split; [done|].
    rewrite Hd. apply duration_cast_milliseconds_nonneg.
    specialize (Hmono (S (clock_reads w)) (S (S (clock_reads w)))). lia.
  - intros component_list w r w' Hrun.
    apply AddComponents_load_duration in Hrun
      as [(-> & _ & _ & Htrace & _)|(Hr & Hd)]; split; try done.
Qed.

Lemma slow_clock_monotone : monotone_clock quiet_env.
Proof. intros i j Hij. cbn. unfold slow_clock. lia. Defined.

Lemma load_duration_recorded_witness :
  GetLoadDuration (booted_world quiet_env)
    = (Normal 1, booted_world quiet_env).
Proof.
  destruct (load_duration_recorded quiet_env slow_clock_monotone) as [Hboot _].
  destruct (Hboot 5%nat three_configs healthy_components
              (blank_world three_configs) (booted_world quiet_env))
    as (d & Hget & Hd & _).
  - vm_compute. reflexivity.
  - rewrite Hget. rewrite Hd. vm_compute. reflexivity.
Defined.

Lemma load_duration_zero_counterexample :
  (Manager_ctor quick_env 5 three_configs healthy_components
     (blank_world three_configs)).1 = Normal tt /\
  (GetLoadDuration (booted_world quick_env)).1 = Normal 0.
Proof. vm_compute. split; reflexivity. Qed.

(** ** Components without a config *)

Lemma collect_component_configs_normal env component_list configs :
  forall cm w cm' w',
    collect_component_configs env component_list configs cm w = (Normal cm', w') ->
    cm' = emplace_configs configs cm.
Proof.
  induction configs as [|c rest IH]; intros cm w cm' w'; cbn.
  - by intros [= <- <-].
  - destruct (Contains component_list (Name c)); cbn [negb].
    + apply IH.
    + intros Hrun. exfalso. revert Hrun.
      intros Hrun. eapply (never_normal_bind (ClearComponents env)); [|exact Hrun|done].
      intros ?. apply never_normal_throw.
Qed.

Lemma emplace_configs_lookup_None configs :
  forall (cm : gmap string ComponentConfig) name,
    cm !! name = None ->
    name ∉ Name <$> configs ->
    emplace_configs configs cm !! name = None.
Proof.
  induction configs as [|c rest IH]; intros cm name Hcm Hnotin; [done|].
  cbn. apply IH.
  - destruct (cm !! Name c) eqn:E; [done|].
    rewrite lookup_insert_ne; [done|]. set_solver.
  - set_solver.
Qed.

(** Claim C10.  For a component whose name has no entry in the
    components section of the configuration, [AddComponentImpl] throws the
    error that names the component and its missing config and leaves the
    world as it was: the factory is not invoked.  The task of that
    component cancels the load and fails with this error. *)
Theorem missing_config_fails env component_list configs cm w0 w0' adder w :
  GetComponentName adder ∉ Name <$> configs ->
  collect_component_configs env component_list configs ∅ w0 = (Normal cm, w0') ->
  AddComponentImpl cm (GetComponentName adder) (factory adder) w =
    (Thrown (runtime_error ("Cannot start component " +:+
                            GetComponentName adder +:+ ": missing config")), w)
  /\ (has_context w ->
      exists w',
        boot_task adder cm w =
          (Thrown (runtime_error ("Cannot start component " +:+
                                  GetComponentName adder +:+ ": missing config")),
           w') /\
        trace w' = trace w ++ [CancelComponentsLoad]).
Proof.
  intros Hnotin Hcollect.
  apply collect_component_configs_normal in Hcollect as ->.
  assert (emplace_configs configs ∅ !! GetComponentName adder = None) as Hnone.
  { by apply emplace_configs_lookup_None. }
  split; [by apply AddComponentImpl_missing_config|].
  intros [c Hc]. unfold boot_task, call_adder, try_catch.
  rewrite AddComponentImpl_missing_config by done. cbn [is_load_cancelled_exception is_std_exception].
  rewrite bind_run. cbn [LOG]. rewrite bind_run.
  match goal with |- context [Context_CancelComponentsLoad ?w1] =>
    destruct (Context_CancelComponentsLoad_run w1 c Hc) as (w' & -> & Ht & _) end.
  exists w'. split; [done|]. exact Ht.
Qed.

Lemma missing_config_fails_witness :
  AddComponentImpl {["a" := component_config "a"]} "b" plain_component
    (loading_world three_configs ["a"; "b"])
  = (Thrown (runtime_error "Cannot start component b: missing config"),
     loading_world three_configs ["a"; "b"]).
Proof.
  apply (missing_config_fails quiet_env
           [adder "a" plain_component; adder "b" plain_component]
           [component_config "a"] {["a" := component_config "a"]}
           (blank_world three_configs) (blank_world three_configs)
           (adder "b" plain_component)
           (loading_world three_configs ["a"; "b"])).
  - intros Hin. apply list_elem_of_singleton in Hin. discriminate Hin.
  - vm_compute. reflexivity.
Defined.

(** * Further properties *)

Import Scenarios.

Local Ltac by_evaluation :=
  match goal with
  | |- ?P => apply (@bool_decide_unpack P _); vm_compute; exact I
  end.

(** ** Task processors of the constructor *)

Lemma built_config_same env config pc :
  effective_worker_threads env config pc = worker_threads pc ->
  built_config env config pc = pc.
Proof. intros H. unfold built_config. rewrite H. by destruct pc. Qed.

Lemma new_TaskProcessor_Add_exact pc w :
  exists w',
    bind (new_TaskProcessor pc) (fun tp => Add (tp_name pc) tp) w
      = (Normal tt, w') /\
    log w' = log w /\ clock_reads w' = clock_reads w /\
    coro_polls w' = coro_polls w /\
    match task_processors_map_ (task_processors_storage_ (manager w))
            !! tp_name pc with
    | Some _ =>
        trace w' =
          trace w ++ [TaskProcessorCreated (tp_name pc) (worker_threads pc);
                      TaskProcessorDestroyed (tp_name pc)] /\
        pools_use_count w' = pools_use_count w /\
        manager w' = manager w
    | None =>
        trace w' =
          trace w ++ [TaskProcessorCreated (tp_name pc) (worker_threads pc)] /\
        pools_use_count w' = S (pools_use_count w) /\
        manager w' =
          set_task_processors_storage_
            {| task_processor_pools_ :=
                 task_processor_pools_ (task_processors_storage_ (manager w));
               task_processors_map_ :=
                 <[tp_name pc := {| processor_config := pc;
                                    shutdown_initiated := false |}]>
                   (task_processors_map_ (task_processors_storage_ (manager w))) |}
            (manager w)
    end.
Proof.
  unfold new_TaskProcessor, Add, get_storage, put_storage,
    delete_TaskProcessor, get_use_count, put_use_count, emit, bind, ret,
    get_manager, modify_manager. cbn.
  destruct (task_processors_map_ (task_processors_storage_ (manager w))
              !! tp_name pc) as [old|] eqn:Elook.
  - eexists. split; [done|]. cbn. rewrite <- app_assoc.
    repeat split; auto.
  - eexists. split; [done|]. cbn. repeat split; auto.
Qed.

Lemma add_task_processor_exact env config pc w :
  exists w' l,
    add_task_processor env config pc w = (Normal tt, w') /\
    log w' = log w ++ l /\
    (should_guess_cpu_limit pc = true ->
     default_task_processor config <> tp_name pc ->
     l = [LogRecord ERROR
            ("guess-cpu-limit is set for non-default task processor ("
             +:+ tp_name pc +:+ "), ignoring it")]) /\
    (should_guess_cpu_limit pc = false -> l = []) /\
    clock_reads w' = clock_reads w /\
    coro_polls w' = coro_polls w /\
    match task_processors_map_ (task_processors_storage_ (manager w))
            !! tp_name pc with
    | Some _ =>
        trace w' =
          trace w ++
          [TaskProcessorCreated (tp_name pc)
             (effective_worker_threads env config pc);
           TaskProcessorDestroyed (tp_name pc)] /\
        pools_use_count w' = pools_use_count w /\
        manager w' = manager w
    | None =>
        trace w' =
          trace w ++
          [TaskProcessorCreated (tp_name pc)
             (effective_worker_threads env config pc)] /\
        pools_use_count w' = S (pools_use_count w) /\
        manager w' =
          set_task_processors_storage_
            {| task_processor_pools_ :=
                 task_processor_pools_ (task_processors_storage_ (manager w));
               task_processors_map_ :=
                 <[tp_name pc := {| processor_config := built_config env config pc;
                                    shutdown_initiated := false |}]>
                   (task_processors_map_ (task_processors_storage_ (manager w))) |}
            (manager w)
    end.
Proof.
  unfold add_task_processor. rewrite bind_run.
  destruct (should_guess_cpu_limit pc) eqn:Eguess.
  - destruct (decide (default_task_processor config = tp_name pc)) as [Hdef|Hndef].
    + rewrite bind_run.
      destruct (GuessCpuLimit_run env (tp_name pc) w) as (l & Hrun & _).
      rewrite Hrun.
      assert (effective_worker_threads env config pc
              = default (worker_threads pc) (accepted_cpu_limit env)) as Heff.
      { unfold effective_worker_threads. rewrite Eguess.
        by rewrite bool_decide_true. }
      destruct (accepted_cpu_limit env) as [cpu|] eqn:Eacc; cbn [ret default] in *.
      * match goal with |- context [bind (new_TaskProcessor ?pc1) _ ?w1] =>
          destruct (new_TaskProcessor_Add_exact pc1 w1)
            as (w' & -> & Hl & Hc & Hp & Hmatch) end.
        cbn in Hl, Hc, Hp, Hmatch.
        exists w', l. split; [done|]. split; [done|].
        split; [done|]. split; [done|]. split; [done|]. split; [done|].
        unfold built_config. rewrite Heff, Eguess. exact Hmatch.
      * match goal with |- context [bind (new_TaskProcessor ?pc1) _ ?w1] =>
          destruct (new_TaskProcessor_Add_exact pc1 w1)
            as (w' & -> & Hl & Hc & Hp & Hmatch) end.
        cbn in Hl, Hc, Hp, Hmatch.
        exists w', l. split; [done|]. split; [done|].
        split; [done|]. split; [done|]. split; [done|]. split; [done|].
        rewrite built_config_same by done. rewrite Heff. exact Hmatch.
    + assert (effective_worker_threads env config pc = worker_threads pc) as Heff.
      { unfold effective_worker_threads. rewrite Eguess.
        by rewrite bool_decide_false. }
      rewrite bind_run. cbn [LOG ret].
      match goal with |- context [bind (new_TaskProcessor ?pc1) _ ?w1] =>
        destruct (new_TaskProcessor_Add_exact pc1 w1)
          as (w' & -> & Hl & Hc & Hp & Hmatch) end.
      cbn in Hl, Hc, Hp, Hmatch.
      eexists w', _. split; [done|]. split; [done|].
      split; [done|]. split; [done|]. split; [done|]. split; [done|].
      rewrite built_config_same by done. rewrite Heff. exact Hmatch.
  - assert (effective_worker_threads env config pc = worker_threads pc) as Heff.
    { unfold effective_worker_threads. by rewrite Eguess. }
    cbn [ret].
    destruct (new_TaskProcessor_Add_exact pc w)
      as (w' & -> & Hl & Hc & Hp & Hmatch).
    exists w', []. rewrite app_nil_r. split; [done|]. split; [done|].
    split; [done|]. split; [done|]. split; [done|]. split; [done|].
    rewrite built_config_same by done. rewrite Heff. exact Hmatch.
Qed.

Lemma set_task_processors_storage_same m :
  set_task_processors_storage_ (task_processors_storage_ m) m = m.
Proof. by destruct m. Qed.

Lemma first_processor_config_cons name pc configs :
  first_processor_config name (pc :: configs) =
    if decide (tp_name pc = name) then Some pc
    else first_processor_config name configs.
Proof.
  unfold first_processor_config. rewrite filter_cons.
  by destruct (decide (tp_name pc = name)).
Qed.

Lemma add_task_processors_exact env config configs :
  forall w, exists w' t l,
    for_each configs (add_task_processor env config) w = (Normal tt, w') /\
    trace w' = trace w ++ t /\
    Forall (fun ev => is_storage_event ev = true) t /\
    log w' = log w ++ l /\
    clock_reads w' = clock_reads w /\
    coro_polls w' = coro_polls w /\
    manager w' =
      set_task_processors_storage_ (task_processors_storage_ (manager w'))
        (manager w) /\
    task_processor_pools_ (task_processors_storage_ (manager w')) =
      task_processor_pools_ (task_processors_storage_ (manager w)) /\
    (forall name,
       task_processors_map_ (task_processors_storage_ (manager w')) !! name =
         match task_processors_map_ (task_processors_storage_ (manager w))
                 !! name with
         | Some tp => Some tp
         | None =>
             (fun pc => {| processor_config := built_config env config pc;
                           shutdown_initiated := false |})
               <$> first_processor_config name configs
         end).
Proof.
  induction configs as [|pc rest IH]; intros w.
  - exists w, [], []. cbn. rewrite !app_nil_r.
    rewrite set_task_processors_storage_same.
    repeat split; auto. intros name. by destruct (_ !! name).
  - cbn [for_each]. rewrite bind_run.
    destruct (add_task_processor_exact env config pc w)
      as (w1 & l1 & -> & Hl1 & _ & _ & Hc1 & Hp1 & Hmatch).
    destruct (IH w1) as (w' & t & l & -> & Ht & Hst & Hl & Hc & Hp & Hm & Hpools & Hmap).
    destruct (task_processors_map_ (task_processors_storage_ (manager w))
                !! tp_name pc) as [old|] eqn:Elook;
      destruct Hmatch as (Ht1 & _ & Hm1).
    + eexists w', _, _. split; [done|].
      split; [by rewrite Ht, Ht1, <- app_assoc|].
      split; [by repeat constructor|].
      split; [by rewrite Hl, Hl1, <- app_assoc|].
      split; [congruence|]. split; [congruence|].
      split; [by rewrite Hm at 1; rewrite Hm1|].
      split; [by rewrite Hpools, Hm1|].
      intros name. rewrite Hmap, Hm1. destruct (_ !! name) eqn:E; [done|].
      rewrite first_processor_config_cons.
      destruct (decide (tp_name pc = name)) as [<-|]; [congruence|done].
    + eexists w', _, _. split; [done|].
      split; [by rewrite Ht, Ht1, <- app_assoc|].
      split; [by repeat constructor|].
      split; [by rewrite Hl, Hl1, <- app_assoc|].
      split; [congruence|]. split; [congruence|].
      split; [by rewrite Hm at 1; rewrite Hm1|].
      split; [by rewrite Hpools, Hm1|].
      intros name. rewrite Hmap, Hm1. cbn.
      rewrite first_processor_config_cons.
      destruct (decide (tp_name pc = name)) as [<-|Hne].
      * rewrite lookup_insert_eq. by rewrite Elook.
      * rewrite lookup_insert_ne by done. done.
Qed.

(** ** The constructor as a whole *)

Lemma preserves_collect_loading_component_names (P : World -> Prop) adders :
  boot_stable P ->
  forall names, preserves P (collect_loading_component_names adders names).
Proof.
  intros HP. induction adders as [|a rest IH]; intros names; cbn.
  - apply preserves_ret.
  - destruct (decide _).
    + apply preserves_bind; [by apply preserves_LOG|].
      intros ?. apply preserves_throw.
    + apply IH.
Qed.

Lemma preserves_CreateComponentContext env (P : World -> Prop) component_list :
  boot_stable P -> clock_stable P -> load_duration_stable P ->
  preserves P (CreateComponentContext env component_list).
Proof.
  intros HP HC HL. unfold CreateComponentContext.
  apply preserves_bind; [by apply preserves_collect_loading_component_names|].
  intros names. apply preserves_bind; [by apply preserves_emit|].
  intros ?. apply preserves_bind; [by apply preserves_put_context|].
  intros ?. by apply preserves_AddComponents.
Qed.

Lemma storage_is_stable s count polls : boot_stable (storage_is s count polls).
Proof. split; unfold storage_is; cbn; auto. Qed.

Lemma storage_is_clock_stable s count polls :
  clock_stable (storage_is s count polls).
Proof. intros w n. done. Qed.

Lemma storage_is_load_duration_stable s count polls :
  load_duration_stable (storage_is s count polls).
Proof. intros w d. done. Qed.

Lemma Manager_ctor_body_storage env config component_list w r w1 :
  task_processors_storage_ (manager w) =
    {| task_processor_pools_ :=
         Some {| pools_coro_pool := coro_pool config;
                 pools_event_thread_pool := event_thread_pool config |};
       task_processors_map_ := ∅ |} ->
  pools_use_count w = 1%nat ->
  Manager_ctor_body env config component_list w = (r, w1) ->
  pools_shared_by_processors w1 /\ coro_polls w1 = coro_polls w /\
  forall name,
    task_processors_map_ (task_processors_storage_ (manager w1)) !! name =
      (fun pc => {| processor_config := built_config env config pc;
                    shutdown_initiated := false |})
        <$> first_processor_config name (task_processors config).
Proof.
  intros Hstorage Hcount. unfold Manager_ctor_body.
  rewrite bind_run. cbn [LOG]. rewrite bind_run.
  match goal with |- context [for_each _ _ ?wa] =>
    destruct (add_task_processors_run env config (task_processors config) wa)
      as (w2 & Hrun & _ & Hp2 & Hs2 & Hu2);
    destruct (add_task_processors_exact env config (task_processors config) wa)
      as (w2' & t & l & Hrun' & _ & _ & _ & _ & _ & _ & _ & Hmap) end.
  rewrite Hrun in Hrun'. injection Hrun' as <-. rewrite Hrun.
  cbn in Hp2, Hs2, Hu2, Hmap. rewrite Hstorage in Hs2, Hu2, Hmap. cbn in Hs2, Hu2, Hmap.
  specialize (Hu2 Hcount).
  assert (pools_shared_by_processors w2) as Hshared.
  { split; [rewrite Hs2; eauto|done]. }
  assert (forall name,
    task_processors_map_ (task_processors_storage_ (manager w2)) !! name =
      (fun pc => {| processor_config := built_config env config pc;
                    shutdown_initiated := false |})
        <$> first_processor_config name (task_processors config)) as Hmap2.
  { intros name. rewrite Hmap. by rewrite lookup_empty. }
  unfold get_storage. rewrite !bind_run. cbn [get_manager ret].
  destruct (task_processors_map_ (task_processors_storage_ (manager w2))
              !! default_task_processor config) as [tp|].
  - intros Hrest.
    assert (storage_is (task_processors_storage_ (manager w2))
              (pools_use_count w2) (coro_polls w2) w1) as (Hs1 & Hu1 & Hp1).
    { eapply preserves_run; [|exact Hrest|done].
      apply preserves_bind.
      { intros wa ra wb Hwa [= <- <-]. exact Hwa. }
      intros ?. apply preserves_bind.
      { apply preserves_CreateComponentContext;
          auto using storage_is_stable, storage_is_clock_stable,
            storage_is_load_duration_stable. }
      intros ?. apply preserves_LOG, storage_is_stable. }
    unfold pools_shared_by_processors. rewrite Hs1, Hu1, Hp1.
    split; [exact Hshared|]. split; [done|]. exact Hmap2.
  - intros [= <- <-]. split; [done|]. split; [done|]. exact Hmap2.
Qed.

Lemma Forall_storage_fmap {A} (f : A -> event) (l : list A) :
  (forall x, is_storage_event (f x) = true) ->
  Forall (fun ev => is_storage_event ev = true) (f <$> l).
Proof. intros Hf. induction l; cbn; constructor; auto. Qed.

Lemma Forall_storage_replicate n ev :
  is_storage_event ev = true ->
  Forall (fun ev => is_storage_event ev = true) (replicate n ev).
Proof. intros Hev. induction n; cbn; constructor; auto. Qed.

(** A constructor whose body throws: the members are destroyed. *)
Lemma Manager_ctor_unwind env fuel k config component_list w e w1 :
  Manager_ctor_body env config component_list (Manager_init env config w).2
    = (Thrown e, w1) ->
  first_idle_after env (coro_polls w) k ->
  (k < fuel)%nat ->
  exists w' t,
    Manager_ctor env fuel config component_list w = (Thrown e, w') /\
    trace w' =
      trace w1 ++
      match component_context_ (manager w1) with
      | Some _ => [ContextDestroyed]
      | None => []
      end ++ t /\
    Forall (fun ev => is_storage_event ev = true) t /\
    component_context_ (manager w') = None /\
    task_processors_storage_ (manager w') =
      {| task_processor_pools_ := None; task_processors_map_ := ∅ |} /\
    pools_use_count w' = 0%nat.
Proof.
  intros Hbody Hidle Hfuel.
  destruct (Manager_ctor_body_storage env config component_list
              (Manager_init env config w).2 _ _ eq_refl eq_refl Hbody)
    as (Hshared & Hpolls & _).
  cbn in Hpolls.
  unfold Manager_ctor. rewrite bind_run.
  change (Manager_init env config w) with
    (Normal tt, (Manager_init env config w).2).
  cbn [fst snd]. unfold try_catch. rewrite Hbody.
  rewrite bind_run. unfold reset_component_context at 1.
  rewrite bind_run. cbn [get_manager].
  destruct (component_context_ (manager w1)) as [c|] eqn:Ec.
  - rewrite ?bind_run. cbn [emit modify_manager].
    unfold TaskProcessorsStorage_dtor, get_storage. rewrite ?bind_run.
    cbn [get_manager ret].
    destruct Hshared as [[pools Hpools] Hcount]. cbn. rewrite Hpools.
    match goal with |- context [Reset env fuel ?wa] =>
      destruct (Reset_run env fuel k wa)
        as (w3 & -> & Ht3 & Hs3 & Hu3 & Hc3 & _) end.
    { split; cbn; [rewrite Hpools; eauto|done]. }
    { cbn. by rewrite Hpolls. }
    { done. }
    cbn in Ht3, Hc3. eexists w3, _. split; [done|].
    split; [rewrite Ht3, <- app_assoc; reflexivity|].
    split; [|done].
    rewrite !Forall_app. repeat split.
    + by apply Forall_storage_fmap.
    + by apply Forall_storage_replicate.
    + by apply Forall_storage_fmap.
    + by repeat constructor.
  - rewrite ?bind_run. cbn [ret].
    unfold TaskProcessorsStorage_dtor, get_storage. rewrite ?bind_run.
    cbn [get_manager ret].
    destruct Hshared as [[pools Hpools] Hcount]. rewrite Hpools.
    destruct (Reset_run env fuel k w1)
      as (w3 & -> & Ht3 & Hs3 & Hu3 & Hc3 & _).
    { split; [rewrite Hpools; eauto|done]. }
    { by rewrite Hpolls. }
    { done. }
    eexists w3, _. split; [done|].
    split; [rewrite Ht3; reflexivity|].
    split; [|by rewrite Hc3].
    rewrite !Forall_app. repeat split.
    + by apply Forall_storage_fmap.
    + by apply Forall_storage_replicate.
    + by apply Forall_storage_fmap.
    + by repeat constructor.
Qed.

Lemma first_processor_config_None name configs :
  name ∉ tp_name <$> configs -> first_processor_config name configs = None.
Proof.
  induction configs as [|pc rest IH]; intros Hnotin; [done|].
  rewrite first_processor_config_cons.
  destruct (decide (tp_name pc = name)) as [<-|]; [set_solver|].
  apply IH. set_solver.
Qed.

Lemma first_processor_config_Some name configs pc :
  first_processor_config name configs = Some pc ->
  tp_name pc = name /\ pc ∈ configs.
Proof.
  induction configs as [|pc' rest IH]; [done|].
  rewrite first_processor_config_cons.
  destruct (decide (tp_name pc' = name)) as [<-|].
  - intros [= <-]. split; [done|]. left.
  - intros H. apply IH in H as [? ?]. split; [done|]. by right.
Qed.

Lemma Manager_ctor_body_inv env fuel config component_list w r w' :
  Manager_ctor env fuel config component_list w = (r, w') ->
  (r = Normal tt /\
   Manager_ctor_body env config component_list (Manager_init env config w).2
     = (Normal tt, w'))
  \/ (exists w1,
        Manager_ctor_body env config component_list (Manager_init env config w).2
          = (r, w1) /\ (r = Terminated \/ r = OutOfFuel))
  \/ (exists e w1,
        Manager_ctor_body env config component_list (Manager_init env config w).2
          = (Thrown e, w1) /\ forall a, r <> Normal a).
Proof.
  unfold Manager_ctor. rewrite bind_run.
  change (Manager_init env config w) with
    (Normal tt, (Manager_init env config w).2).
  cbn [fst snd]. unfold try_catch.
  destruct (Manager_ctor_body env config component_list _)
    as [[[]|e| |] w1] eqn:Ebody.
  - intros [= <- <-]. by left.
  - intros Hrun. right. right. exists e, w1. split; [done|].
    eapply (never_normal_bind reset_component_context); [|exact Hrun].
    intros ?. apply never_normal_bind. intros ?. apply never_normal_throw.
  - intros [= <- <-]. right. left. eauto.
  - intros [= <- <-]. right. left. eauto.
Qed.



(** Property X5.  Whatever the constructor throws, it leaves no
    component context and no task processor behind: the storage is reset and
    the last reference to the pools is released. *)
Theorem Manager_ctor_failure_releases env fuel k config component_list w e w' :
  Manager_ctor env fuel config component_list w = (Thrown e, w') ->
  first_idle_after env (coro_polls w) k ->
  (k < fuel)%nat ->
  component_context_ (manager w') = None /\
  task_processors_storage_ (manager w') =
    {| task_processor_pools_ := None; task_processors_map_ := ∅ |} /\
  pools_use_count w' = 0%nat.
Proof.
  intros Hrun Hidle Hfuel.
  destruct (Manager_ctor_body_inv _ _ _ _ _ _ _ Hrun)
    as [[? _]|[(w1 & _ & [?|?])|(e0 & w1 & Hbody & _)]]; try done.
  destruct (Manager_ctor_unwind env fuel k config component_list w e0 w1
              Hbody Hidle Hfuel) as (w'' & t & Hrun' & _ & _ & Hrest).
  rewrite Hrun in Hrun'. injection Hrun' as _ ->. exact Hrest.
Qed.

Lemma Manager_ctor_failure_releases_witness :
  pools_use_count
    (Manager_ctor quiet_env 5 three_configs
       (three_components (runtime_error "bad"))
       (blank_world three_configs)).2 = 0%nat.
Proof.
  destruct (Manager_ctor_failure_releases quiet_env 5 2 three_configs
              (three_components (runtime_error "bad"))
              (blank_world three_configs)
              (runtime_error "bad")
              (Manager_ctor quiet_env 5 three_configs
                 (three_components (runtime_error "bad"))
                 (blank_world three_configs)).2)
    as (_ & _ & Hcount).
  - vm_compute. reflexivity.
  - apply draining_first_idle. vm_compute. reflexivity.
  - lia.
  - exact Hcount.
Defined.

Lemma default_is_stable name : boot_stable (default_is name).
Proof. split; unfold default_is; cbn; auto. Qed.

(** Property X2.  After a constructor that returned,
    [default_task_processor_] is the task processor of the configured
    default name, which is among the configured names; for every name the
    map holds the task processor built from the first config of that name,
    with the worker threads the CPU limit gives; and the pools are
    referenced by the storage and by each task processor of the map, and by
    nobody else. *)
Theorem Manager_ctor_task_processors env fuel config component_list w w' :
  Manager_ctor env fuel config component_list w = (Normal tt, w') ->
  default_task_processor_ (manager w') = Some (default_task_processor config) /\
  default_task_processor config ∈ tp_name <$> task_processors config /\
  (forall name,
     task_processors_map_ (task_processors_storage_ (manager w')) !! name =
       (fun pc => {| processor_config := built_config env config pc;
                     shutdown_initiated := false |})
         <$> first_processor_config name (task_processors config)) /\
  pools_use_count w' =
    S (size (task_processors_map_ (task_processors_storage_ (manager w')))).
Proof.
  intros Hrun.
  destruct (Manager_ctor_body_inv _ _ _ _ _ _ _ Hrun)
    as [[_ Hbody]|[(w1 & _ & [?|?])|(e0 & w1 & _ & Hne)]];
    [|done|done|by destruct (Hne tt)].
  destruct (Manager_ctor_body_storage env config component_list
              (Manager_init env config w).2 _ _ eq_refl eq_refl Hbody)
    as ([_ Hcount] & _ & Hmap).
  split; [|split; [|split; [exact Hmap|exact Hcount]]].
  - revert Hbody. unfold Manager_ctor_body.
    rewrite bind_run. cbn [LOG]. rewrite bind_run.
    match goal with |- context [for_each _ _ ?wa] =>
      destruct (add_task_processors_exact env config (task_processors config) wa)
        as (w2 & t & l & -> & _) end.
    unfold get_storage. rewrite !bind_run. cbn [get_manager ret].
    destruct (_ !! default_task_processor config); [|done].
    rewrite bind_run. cbn [modify_manager]. rewrite bind_run. unfold RunInCoro.
    match goal with |- context [CreateComponentContext env component_list ?wa] =>
      destruct (CreateComponentContext env component_list wa)
        as [[[]|?| |] w3] eqn:Ecreate; try done end.
    cbn [LOG]. intros [= <-].
    apply (preserves_run (default_is (default_task_processor config)))
      in Ecreate; [exact Ecreate| |done].
    apply preserves_CreateComponentContext; auto using default_is_stable.
    + intros ? ?. done.
    + intros ? ?. done.
  - destruct (decide (default_task_processor config
                        ∈ tp_name <$> task_processors config)) as [|Hnotin];
      [done|]. exfalso. revert Hbody. unfold Manager_ctor_body.
    rewrite bind_run. cbn [LOG]. rewrite bind_run.
    match goal with |- context [for_each _ _ ?wa] =>
      destruct (add_task_processors_exact env config (task_processors config) wa)
        as (w2 & t & l & -> & _ & _ & _ & _ & _ & _ & _ & Hmap2) end.
    unfold get_storage. rewrite !bind_run. cbn [get_manager ret].
    cbn in Hmap2.
    rewrite Hmap2, lookup_empty, first_processor_config_None by done. done.
Qed.

Lemma Manager_ctor_task_processors_witness :
  default_task_processor_ (manager (booted_world quiet_env)) =
    Some "main-task-processor" /\
  pools_use_count (booted_world quiet_env) =
    S (size (task_processors_map_
               (task_processors_storage_ (manager (booted_world quiet_env))))).
Proof.
  destruct (Manager_ctor_task_processors quiet_env 5 three_configs
              healthy_components (blank_world three_configs)
              (booted_world quiet_env))
    as (Hdefault & _ & _ & Hcount).
  - vm_compute. reflexivity.
  - split; [exact Hdefault|exact Hcount].
Defined.

(** Property X3.  When the storage already has a task processor of
    the name, the loop of the constructor still builds the new task
    processor, [emplace] keeps the old entry, and the new task processor is
    destroyed at once: the manager and the use count of the pools are what
    they were. *)
Theorem add_task_processor_name_taken env config pc w old :
  task_processors_map_ (task_processors_storage_ (manager w)) !! tp_name pc
    = Some old ->
  exists w' l,
    add_task_processor env config pc w = (Normal tt, w') /\
    trace w' =
      trace w ++
      [TaskProcessorCreated (tp_name pc) (effective_worker_threads env config pc);
       TaskProcessorDestroyed (tp_name pc)] /\
    log w' = log w ++ l /\
    pools_use_count w' = pools_use_count w /\
    manager w' = manager w.
Proof.
  intros Hold.
  destruct (add_task_processor_exact env config pc w)
    as (w' & l & Hrun & Hl & _ & _ & _ & _ & Hmatch).
  rewrite Hold in Hmatch. destruct Hmatch as (Ht & Hu & Hm).
  exists w', l. done.
Qed.

Lemma add_task_processor_name_taken_witness :
  exists w',
    add_task_processor quiet_env three_configs main_processor
      (booted_world quiet_env) = (Normal tt, w') /\
    pools_use_count w' = pools_use_count (booted_world quiet_env) /\
    manager w' = manager (booted_world quiet_env).
Proof.
  destruct (add_task_processor_name_taken quiet_env three_configs
              main_processor (booted_world quiet_env)
              {| processor_config := main_processor;
                 shutdown_initiated := false |})
    as (w' & l & Hrun & _ & _ & Hcount & Hmanager).
  - vm_compute. reflexivity.
  - exists w'. split; [exact Hrun|]. split; [exact Hcount|exact Hmanager].
Defined.

(** Property X4.  [guess-cpu-limit] on a task processor that is not
    the default one: the environment is not consulted ([CPU_LIMIT] is not
    read), an error record is logged, and the task processor is built with
    the worker threads of its config. *)
Theorem guess_cpu_limit_non_default env config pc w :
  should_guess_cpu_limit pc = true ->
  default_task_processor config <> tp_name pc ->
  (forall env', add_task_processor env' config pc w
                = add_task_processor env config pc w) /\
  exists w' rest,
    add_task_processor env config pc w = (Normal tt, w') /\
    log w' =
      log w ++
      [LogRecord ERROR
         ("guess-cpu-limit is set for non-default task processor ("
          +:+ tp_name pc +:+ "), ignoring it")] /\
    trace w' =
      trace w ++ TaskProcessorCreated (tp_name pc) (worker_threads pc) :: rest.
Proof.
  intros Hguess Hndef. split.
  - intros env'. unfold add_task_processor. rewrite Hguess.
    by rewrite !decide_False by done.
  - destruct (add_task_processor_exact env config pc w)
      as (w' & l & Hrun & Hl & Hlog & _ & _ & _ & Hmatch).
    rewrite (Hlog Hguess Hndef) in Hl.
    assert (effective_worker_threads env config pc = worker_threads pc) as Heff.
    { unfold effective_worker_threads. rewrite Hguess.
      by rewrite bool_decide_false. }
    rewrite Heff in Hmatch.
    destruct (_ !! tp_name pc); destruct Hmatch as (Ht & _); eauto.
Qed.

Lemma guess_cpu_limit_non_default_witness :
  exists w' rest,
    add_task_processor two_cpu_env three_configs guessing_fs_processor
      (blank_world three_configs) = (Normal tt, w') /\
    trace w' = TaskProcessorCreated "fs-task-processor" 2 :: rest.
Proof.
  destruct (guess_cpu_limit_non_default two_cpu_env three_configs
              guessing_fs_processor (blank_world three_configs))
    as (_ & w' & rest & Hrun & _ & Htrace).
  - reflexivity.
  - vm_compute. discriminate.
  - exists w', rest. split; [exact Hrun|exact Htrace].
Defined.

(** ** Log rotation and the logging component *)

(** Property X9.  After [ClearComponents], whatever happened in it,
    [components_cleared_] is set and [OnLogRotate] returns without calling
    the logging component. *)
Theorem OnLogRotate_after_ClearComponents env w r w1 :
  ClearComponents env w = (r, w1) ->
  components_cleared_ (manager w1) = true /\
  OnLogRotate w1 = (Normal None, w1).
Proof.
  intros Hrun.
  assert (components_cleared_ (manager w1) = true) as Hcleared.
  { destruct (component_context_ (manager w)) as [c|] eqn:Hc.
    - destruct (ClearComponents_run env w c Hc) as (w' & Hrun' & _ & Hcl & _).
      rewrite Hrun' in Hrun. by injection Hrun as _ <-.
    - revert Hrun.
      unfold ClearComponents, noexcept, bind, try_catch,
        Context_ClearComponents, with_context, bind. cbn.
      rewrite Hc. cbn. by intros [= <- <-]. }
  split; [done|]. unfold OnLogRotate. rewrite bind_run. cbn [get_manager].
  by rewrite Hcleared.
Qed.

Lemma OnLogRotate_after_ClearComponents_witness :
  OnLogRotate (booted_world quiet_env) =
    (Normal (Some "b"), booted_world quiet_env) /\
  OnLogRotate (ClearComponents quiet_env (booted_world quiet_env)).2 =
    (Normal None, (ClearComponents quiet_env (booted_world quiet_env)).2).
Proof.
  destruct (OnLogRotate_after_ClearComponents quiet_env (booted_world quiet_env)
              (Normal tt) (ClearComponents quiet_env (booted_world quiet_env)).2)
    as (_ & Hrotate).
  - vm_compute. reflexivity.
  - split; [vm_compute; reflexivity|exact Hrotate].
Defined.

(** Property X10.  For an enabled component whose factory returns,
    [AddComponentImpl] returns; a component that is the logging component
    becomes [logging_component_], and [OnLogRotate] then calls it as long as
    the components have not been cleared; any other component leaves
    [logging_component_] as it was. *)
Theorem AddComponentImpl_logging_component
    (config_map : gmap string ComponentConfig) name config f context c w :
  config_map !! name = Some config ->
  default true (ParseOptionalBool config "load-enabled") = true ->
  component_context_ (manager w) = Some context ->
  f config context = Constructed c ->
  exists w',
    AddComponentImpl config_map name f w = (Normal tt, w') /\
    logging_component_ (manager w') =
      (if is_logging c then Some name else logging_component_ (manager w)) /\
    components_cleared_ (manager w') = components_cleared_ (manager w) /\
    (is_logging c = true ->
     components_cleared_ (manager w) = false ->
     OnLogRotate w' = (Normal (Some name), w')).
Proof.
  intros Hlookup Henabled Hctx Hf.
  unfold AddComponentImpl. rewrite Hlookup, Henabled. cbn.
  unfold bind, with_context, Context_AddComponent, with_context, bind. cbn.
  rewrite Hctx. cbn. rewrite Hf. cbn.
  destruct (is_logging c) eqn:Elog; cbn.
  - eexists. split; [done|]. cbn. split; [done|]. split; [done|].
    intros _ Hnot. unfold OnLogRotate, bind. cbn. by rewrite Hnot.
  - eexists. split; [done|]. cbn. split; [done|]. split; [done|]. done.
Qed.

Lemma AddComponentImpl_logging_component_witness :
  exists w',
    AddComponentImpl (emplace_configs (components three_configs) ∅) "b"
      logging_component (loading_world three_configs ["a"; "b"; "c"]) =
      (Normal tt, w') /\
    logging_component_ (manager w') = Some "b" /\
    OnLogRotate w' = (Normal (Some "b"), w').
Proof.
  destruct (AddComponentImpl_logging_component
              (emplace_configs (components three_configs) ∅) "b"
              (component_config "b") logging_component
              {| expected_names := list_to_set ["a"; "b"; "c"];
                 created := []; load_cancelled := false |}
              {| is_logging := true |}
              (loading_world three_configs ["a"; "b"; "c"]))
    as (w' & Hrun & Hlogging & _ & Hrotate).
  - vm_compute. reflexivity.
  - vm_compute. reflexivity.
  - vm_compute. reflexivity.
  - reflexivity.
  - exists w'. split; [exact Hrun|]. split; [exact Hlogging|].
    apply Hrotate; reflexivity.
Defined.

(** ** The task of one component *)

(** Property X11.  The task of a component.  Whatever the adder throws
    (the load cancellation, a [std::exception], anything else), the task
    cancels the component load once and rethrows the same exception, with a
    warning record for the cancellation, an error record for a
    [std::exception] and no record otherwise.  When the adder does not
    throw, the task adds nothing to what the adder did. *)
Theorem boot_task_rethrows adder config_map w :
  has_context w ->
  forall r w0,
    call_adder adder config_map w = (r, w0) ->
    match r with
    | Thrown e =>
        exists w' c',
          boot_task adder config_map w = (Thrown e, w') /\
          trace w' = trace w0 ++ [CancelComponentsLoad] /\
          component_context_ (manager w') = Some c' /\
          load_cancelled c' = true /\
          log w' =
            log w0 ++
            if is_load_cancelled_exception e then
              [LogRecord WARNING ("Cannot start component " +:+
                 GetComponentName adder +:+ ": " +:+ what e)]
            else if is_std_exception e then
              [LogRecord ERROR ("Cannot start component " +:+
                 GetComponentName adder +:+ ": " +:+ what e)]
            else []
    | _ => boot_task adder config_map w = (r, w0)
    end.
Proof.
  intros Hctx r w0 Hrun.
  assert (has_context w0) as [c0 Hc0].
  { eapply preserves_run; [|exact Hrun|exact Hctx].
    apply preserves_AddComponentImpl, has_context_stable. }
  unfold boot_task, try_catch. rewrite Hrun.
  destruct r as [[]|e| |]; try done.
  destruct (is_load_cancelled_exception e); [|destruct (is_std_exception e)].
  - rewrite bind_run. cbn [LOG]. rewrite bind_run.
    match goal with |- context [Context_CancelComponentsLoad ?wa] =>
      destruct (Context_CancelComponentsLoad_run wa c0 Hc0)
        as (w' & -> & Ht & Hl & _ & Hc') end.
    eexists w', _. split; [done|]. split; [exact Ht|]. split; [exact Hc'|].
    split; [done|]. exact Hl.
  - rewrite bind_run. cbn [LOG]. rewrite bind_run.
    match goal with |- context [Context_CancelComponentsLoad ?wa] =>
      destruct (Context_CancelComponentsLoad_run wa c0 Hc0)
        as (w' & -> & Ht & Hl & _ & Hc') end.
    eexists w', _. split; [done|]. split; [exact Ht|]. split; [exact Hc'|].
    split; [done|]. exact Hl.
  - rewrite bind_run.
    destruct (Context_CancelComponentsLoad_run w0 c0 Hc0)
      as (w' & -> & Ht & Hl & _ & Hc').
    eexists w', _. split; [done|]. split; [exact Ht|]. split; [exact Hc'|].
    split; [done|]. by rewrite Hl, app_nil_r.
Qed.

Lemma boot_task_rethrows_witness :
  exists w' c',
    boot_task (adder "b" (failing_component (non_std_exception "boom")))
      (emplace_configs (components three_configs) ∅)
      (loading_world three_configs ["a"; "b"; "c"]) =
      (Thrown (non_std_exception "boom"), w') /\
    component_context_ (manager w') = Some c' /\
    load_cancelled c' = true.
Proof.
  assert (has_context (loading_world three_configs ["a"; "b"; "c"])) as Hctx.
  { eexists. vm_compute. reflexivity. }
  assert (call_adder (adder "b" (failing_component (non_std_exception "boom")))
            (emplace_configs (components three_configs) ∅)
            (loading_world three_configs ["a"; "b"; "c"]) =
          (Thrown (non_std_exception "boom"),
           (call_adder
              (adder "b" (failing_component (non_std_exception "boom")))
              (emplace_configs (components three_configs) ∅)
              (loading_world three_configs ["a"; "b"; "c"])).2)) as Hcall.
  { vm_compute. reflexivity. }
  destruct (boot_task_rethrows _ _ _ Hctx _ _ Hcall)
    as (w' & c' & Hrun & _ & Hcontext & Hcancelled & _).
  exists w', c'. split; [exact Hrun|]. split; [exact Hcontext|exact Hcancelled].
Defined.

(** ** The config of a component *)

Lemma emplace_configs_lookup configs :
  forall (cm : gmap string ComponentConfig) name,
    emplace_configs configs cm !! name =
      match cm !! name with
      | Some config => Some config
      | None => first_component_config name configs
      end.
Proof.
  induction configs as [|c rest IH]; intros cm name.
  - cbn. by destruct (cm !! name).
  - change (emplace_configs (c :: rest) cm) with
      (emplace_configs rest
         (match cm !! Name c with
          | Some _ => cm
          | None => <[Name c := c]> cm
          end)).
    rewrite IH. unfold first_component_config. rewrite filter_cons.
    destruct (cm !! Name c) eqn:Ec.
    + destruct (cm !! name) eqn:En; [done|].
      destruct (decide (Name c = name)) as [Heq|Hne]; [|done].
      rewrite Heq in Ec. congruence.
    + destruct (decide (Name c = name)) as [Heq|Hne].
      * rewrite <- Heq, lookup_insert_eq, Ec. done.
      * rewrite lookup_insert_ne by done. by destruct (cm !! name).
Qed.

Lemma first_component_config_is_Some name configs :
  name ∈ Name <$> configs -> is_Some (first_component_config name configs).
Proof.
  unfold first_component_config.
  induction configs as [|c rest IH]; [set_solver|].
  rewrite filter_cons. destruct (decide (Name c = name)); [by eexists|].
  intros H. apply IH. set_solver.
Qed.

(** Property X12.  When the first loop of [AddComponents] returns, it
    has changed nothing, and [component_config_map] maps every name to the
    first config of that name in [config_->components]: [emplace] does not
    overwrite.  Every entry is a config of the list, under its own name. *)
Theorem component_config_first_wins env component_list configs w cm w' :
  collect_component_configs env component_list configs ∅ w = (Normal cm, w') ->
  w' = w /\
  (forall name, cm !! name = first_component_config name configs) /\
  (forall name config,
     cm !! name = Some config -> Name config = name /\ config ∈ configs).
Proof.
  intros Hrun.
  assert (w' = w) as ->.
  { assert (Forall (fun c => Contains component_list (Name c) = true) configs
            \/ ~ Forall (fun c => Contains component_list (Name c) = true) configs)
      as [Hreg|Hnot].
    { destruct (decide (Forall (fun c => Contains component_list (Name c) = true) configs)); auto. }
    - rewrite collect_component_configs_registered in Hrun by done. congruence.
    - exfalso. revert Hrun Hnot. generalize (∅ : gmap string ComponentConfig).
      induction configs as [|c rest IH]; intros cm0 Hrun Hnot.
      + apply Hnot. constructor.
      + cbn in Hrun. destruct (Contains component_list (Name c)) eqn:Ec; cbn in Hrun.
        * eapply IH; [exact Hrun|]. intros Hrest. apply Hnot. by constructor.
        * eapply (never_normal_bind (ClearComponents env)); [|exact Hrun|done].
          intros ?. apply never_normal_throw. }
  apply collect_component_configs_normal in Hrun as ->.
  split; [done|]. split.
  - intros name. by rewrite emplace_configs_lookup, lookup_empty.
  - intros name config. rewrite emplace_configs_lookup, lookup_empty.
    unfold first_component_config. intros Hhead.
    apply head_Some_elem_of in Hhead. apply list_elem_of_filter in Hhead. done.
Qed.

Lemma component_config_first_wins_witness :
  emplace_configs repeated_configs ∅ !! "a" = Some (component_config "a") /\
  load_enabled (emplace_configs repeated_configs ∅) (adder "a" plain_component)
    = true.
Proof.
  destruct (component_config_first_wins quiet_env healthy_components
              repeated_configs (loading_world three_configs ["a"; "b"; "c"])
              (emplace_configs repeated_configs ∅)
              (loading_world three_configs ["a"; "b"; "c"]))
    as (_ & Hfirst & _).
  - vm_compute. reflexivity.
  - split; [rewrite Hfirst|]; vm_compute; reflexivity.
Defined.

(** ** A load in which every factory constructs its component *)

Lemma AddComponentImpl_healthy (cm : gmap string ComponentConfig) adder c w :
  is_Some (cm !! GetComponentName adder) ->
  constructs_unless_cancelled (factory adder) ->
  component_context_ (manager w) = Some c ->
  load_cancelled c = false ->
  exists w',
    boot_task adder cm w = (Normal tt, w') /\
    trace w' = trace w ++
      (if load_enabled cm adder
       then [ContextAddComponent (GetComponentName adder);
             FactoryInvoked (GetComponentName adder)]
       else []) /\
    component_context_ (manager w') =
      Some {| expected_names := expected_names c;
              created := created c ++
                (if load_enabled cm adder then [GetComponentName adder] else []);
              load_cancelled := false |} /\
    components_cleared_ (manager w') = components_cleared_ (manager w) /\
    clock_reads w' = clock_reads w /\
    config_ (manager w') = config_ (manager w).
Proof.
  intros [config Hconfig] Hf Hc Hnc.
  unfold boot_task, try_catch, call_adder, load_enabled. rewrite Hconfig.
  unfold AddComponentImpl. rewrite Hconfig.
  destruct (default true (ParseOptionalBool config "load-enabled")) eqn:En; cbn [negb].
  - destruct (Hf config c Hnc) as [component Hcomp].
    unfold bind, with_context, Context_AddComponent, with_context, bind. cbn.
    rewrite Hc. cbn. rewrite Hcomp. cbn.
    destruct (is_logging component); cbn; rewrite <- ?app_assoc;
      (eexists; split; [done|]); cbn; rewrite <- Hnc; by destruct c.
  - cbn. eexists. split; [done|]. cbn. rewrite !app_nil_r.
    rewrite <- Hnc. by destruct c.
Qed.

Lemma spawn_boot_tasks_healthy (cm : gmap string ComponentConfig) adders :
  forall c w,
    Forall (fun adder => is_Some (cm !! GetComponentName adder) /\
                         constructs_unless_cancelled (factory adder)) adders ->
    component_context_ (manager w) = Some c ->
    load_cancelled c = false ->
    exists tasks w',
      spawn_boot_tasks adders cm w = (Normal tasks, w') /\
      all_returned tasks /\
      task_name <$> tasks = (fun a => "boot/" +:+ GetComponentName a) <$> adders /\
      trace w' = trace w ++ concat (boot_events cm <$> adders) /\
      component_context_ (manager w') =
        Some {| expected_names := expected_names c;
                created := created c ++ started_components cm adders;
                load_cancelled := false |} /\
      components_cleared_ (manager w') = components_cleared_ (manager w) /\
      clock_reads w' = clock_reads w /\
      config_ (manager w') = config_ (manager w).
Proof.
  induction adders as [|a rest IH]; intros c w Hall Hc Hnc.
  - exists [], w. cbn. rewrite !app_nil_r. rewrite <- Hnc.
    split; [done|]. split; [constructor|]. repeat split; try done.
    rewrite Hc. by destruct c.
  - apply Forall_cons in Hall as [[Hcfg Hf] Hrest].
    cbn [spawn_boot_tasks]. rewrite bind_run. unfold CriticalAsync at 1.
    match goal with |- context [boot_task a cm ?w0] =>
      destruct (AddComponentImpl_healthy cm a c w0 Hcfg Hf Hc Hnc)
        as (w1 & -> & Ht1 & Hc1 & Hcl1 & Hk1 & Hg1) end.
    cbn in Ht1, Hcl1, Hk1, Hg1.
    destruct (IH _ w1 Hrest Hc1 eq_refl)
      as (tasks & w2 & Hspawn & Hres & Hnames & Ht2 & Hc2 & Hcl2 & Hk2 & Hg2).
    rewrite bind_run, Hspawn. cbn [ret].
    eexists _, w2. split; [done|].
    split; [by constructor|]. split; [cbn; by rewrite Hnames|].
    split.
    { rewrite Ht2, Ht1. cbn [fmap list_fmap concat]. unfold boot_events at 2.
      rewrite <- !app_assoc. done. }
    split.
    { rewrite Hc2. cbn [created expected_names]. f_equal. f_equal.
      unfold started_components. rewrite filter_cons.
      destruct (load_enabled cm a); [rewrite decide_True by done|rewrite decide_False by done];
        cbn; rewrite <- ?app_assoc, ?app_nil_r; done. }
    split; [congruence|]. split; congruence.
Qed.

Lemma all_returned_join tasks :
  all_returned tasks ->
  Forall (fun t => joins_quietly t = true) tasks /\
  existsb task_cancelled tasks = false.
Proof.
  induction 1 as [|t rest Ht _ [IH1 IH2]]; [by split|].
  split.
  - constructor; [|done]. unfold joins_quietly. by rewrite Ht.
  - cbn. unfold task_cancelled at 1. by rewrite Ht.
Qed.

Lemma AddComponents_join_tasks_returned env start tasks w1 c :
  all_returned tasks ->
  component_context_ (manager w1) = Some c ->
  exists w2,
    AddComponents_join_tasks env start tasks w1 =
      (match hooks_outcome env (created c) with
       | Some e => Thrown e
       | None => Normal tt
       end, w2) /\
    trace w2 =
      trace w1 ++ (TaskGet ∘ task_name <$> tasks) ++
      [ContextOnAllComponentsLoaded] ++
      match hooks_outcome env (created c) with
      | Some e => if is_std_exception e then [ContextClearComponents] else []
      | None => []
      end /\
    components_cleared_ (manager w2) =
      match hooks_outcome env (created c) with
      | Some e => is_std_exception e || components_cleared_ (manager w1)
      | None => components_cleared_ (manager w1)
      end /\
    load_duration_ (manager w2) =
      match hooks_outcome env (created c) with
      | Some e => load_duration_ (manager w1)
      | None => duration_cast_milliseconds
                  (steady_clock env (clock_reads w1) - start)
      end /\
    (hooks_outcome env (created c) = None ->
     component_context_ (manager w2) = Some c /\
     log w2 = log w1 ++ [LogRecord INFO "All components created";
                         LogRecord INFO "All components loaded"]).
Proof.
  intros Hret Hc. apply all_returned_join in Hret as [Hq Hnc].
  unfold AddComponents_join_tasks. rewrite bind_run. unfold try_catch at 1.
  rewrite join_boot_tasks_all_quiet by done. rewrite Hnc. cbn [orb].
  rewrite bind_run. cbn [LOG]. rewrite bind_run. unfold try_catch.
  unfold Context_OnAllComponentsLoaded, with_context.
  rewrite bind_run. cbn [get_manager manager set_log set_trace]. rewrite Hc.
  rewrite bind_run. cbn [emit].
  destruct (hooks_outcome env (created c)) as [e|].
  - cbn [throw]. unfold catch_std. destruct (is_std_exception e).
    + rewrite bind_run.
      match goal with |- context [ClearComponents env ?wa] =>
        destruct (ClearComponents_run env wa c Hc)
          as (w2 & Hrun & Ht & Hcl & _ & _);
        assert (load_duration_ (manager w2) = load_duration_ (manager wa)) as Hd
      end.
      { eapply (preserves_run (duration_is _)); [|exact Hrun|done].
        apply preserves_ClearComponents, duration_is_stable. }
      rewrite Hrun. cbn [throw]. eexists. split; [done|].
      cbn in Ht, Hd. rewrite Ht, Hcl, Hd, <- !app_assoc. done.
    + eexists. split; [done|]. cbn. rewrite <- !app_assoc. done.
  - cbn [ret]. rewrite !bind_run. cbn.
    eexists. split; [done|]. cbn. rewrite <- !app_assoc.
    repeat split; done.
Qed.

(** Property X13.  When every task returned a value and
    [OnAllComponentsLoaded] throws [e], [AddComponents] fails with [e].  The
    components are cleared first when [e] is derived from [std::exception];
    any other [e] leaves without [ClearComponents].  The load duration is
    not recorded. *)
Theorem AddComponents_hooks_failure env component_list w start tasks w1 c e :
  AddComponents_create_tasks env component_list w = (Normal (start, tasks), w1) ->
  all_returned tasks ->
  component_context_ (manager w1) = Some c ->
  hooks_outcome env (created c) = Some e ->
  exists w2,
    AddComponents env component_list w = (Thrown e, w2) /\
    trace w2 =
      trace w1 ++ (TaskGet ∘ task_name <$> tasks) ++
      [ContextOnAllComponentsLoaded] ++
      (if is_std_exception e then [ContextClearComponents] else []) /\
    components_cleared_ (manager w2) =
      is_std_exception e || components_cleared_ (manager w1) /\
    load_duration_ (manager w2) = load_duration_ (manager w1).
Proof.
  intros Hcreate Hret Hc Hhooks.
  destruct (AddComponents_join_tasks_returned env start tasks w1 c Hret Hc)
    as (w2 & Hrun & Ht & Hcl & Hd & _).
  rewrite Hhooks in Hrun, Ht, Hcl, Hd.
  exists w2. unfold AddComponents. rewrite bind_run, Hcreate. cbn [fst snd].
  done.
Qed.

Lemma AddComponents_hooks_failure_witness :
  exists w2,
    AddComponents failing_hooks_env healthy_components
      (loading_world three_configs ["a"; "b"; "c"]) =
      (Thrown (runtime_error "hook failed"), w2) /\
    components_cleared_ (manager w2) = true.
Proof.
  destruct (AddComponents_hooks_failure failing_hooks_env healthy_components
              (loading_world three_configs ["a"; "b"; "c"])
              0 three_tasks
              (AddComponents_create_tasks failing_hooks_env healthy_components
                 (loading_world three_configs ["a"; "b"; "c"])).2
              three_created (runtime_error "hook failed"))
    as (w2 & Hrun & _ & Hcleared & _).
  - vm_compute. reflexivity.
  - repeat constructor.
  - vm_compute. reflexivity.
  - reflexivity.
  - exists w2. split; [exact Hrun|exact Hcleared].
Defined.

(** In the model a task runs to its end when it is created: the
    components whose load is enabled are then created in the order of the
    component list. *)
Lemma AddComponents_sequential_load env component_list w c :
  component_context_ (manager w) = Some c ->
  load_cancelled c = false ->
  Forall (fun config => Contains component_list (Name config) = true)
         (components (config_ (manager w))) ->
  Forall (fun adder =>
            GetComponentName adder ∈ Name <$> components (config_ (manager w)) /\
            constructs_unless_cancelled (factory adder)) component_list ->
  hooks_outcome env
    (created c ++
     started_components (emplace_configs (components (config_ (manager w))) ∅)
       component_list) = None ->
  exists w',
    AddComponents env component_list w = (Normal tt, w') /\
    trace w' =
      trace w ++
      concat (boot_events (emplace_configs (components (config_ (manager w))) ∅)
                <$> component_list) ++
      (TaskGet ∘ (fun adder => "boot/" +:+ GetComponentName adder)
         <$> component_list) ++
      [ContextOnAllComponentsLoaded] /\
    component_context_ (manager w') =
      Some {| expected_names := expected_names c;
              created := created c ++
                started_components
                  (emplace_configs (components (config_ (manager w))) ∅)
                  component_list;
              load_cancelled := false |} /\
    components_cleared_ (manager w') = components_cleared_ (manager w) /\
    load_duration_ (manager w') =
      duration_cast_milliseconds
        (steady_clock env (S (clock_reads w)) - steady_clock env (clock_reads w)).
Proof.
  intros Hc Hnc Hreg Hall Hhooks.
  set (cm := emplace_configs (components (config_ (manager w))) ∅) in *.
  assert (Forall (fun adder => is_Some (cm !! GetComponentName adder) /\
                    constructs_unless_cancelled (factory adder)) component_list)
    as Hall'.
  { eapply Forall_impl; [exact Hall|]. intros a [Hin Hf]. split; [|done].
    unfold cm. rewrite emplace_configs_lookup, lookup_empty.
    by apply first_component_config_is_Some. }
  destruct (spawn_boot_tasks_healthy cm component_list c
              (set_clock_reads (S (clock_reads w)) w) Hall' Hc Hnc)
    as (tasks & w1 & Hspawn & Hret & Hnames & Ht1 & Hc1 & Hcl1 & Hk1 & _).
  cbn in Ht1, Hcl1, Hk1.
  destruct (AddComponents_join_tasks_returned env
              (steady_clock env (clock_reads w)) tasks w1 _ Hret Hc1)
    as (w2 & Hrun & Ht2 & Hcl2 & Hd2 & Hrest).
  cbn [created] in Hrun, Ht2, Hcl2, Hd2, Hrest. rewrite Hhooks in Hrun, Ht2, Hcl2, Hd2.
  destruct (Hrest Hhooks) as [Hc2 _].
  exists w2. split.
  { assert (AddComponents_create_tasks env component_list w =
              (Normal (steady_clock env (clock_reads w), tasks), w1)) as Hcreate.
    { unfold AddComponents_create_tasks. rewrite bind_run.
      cbn [get_manager]. rewrite bind_run.
      rewrite collect_component_configs_registered by done. fold cm.
      rewrite bind_run. cbn [now]. rewrite bind_run, Hspawn. done. }
    unfold AddComponents. rewrite bind_run, Hcreate. exact Hrun. }
  split.
  { rewrite Ht2, Ht1, app_nil_r, <- !app_assoc. do 2 f_equal.
    rewrite list_fmap_compose, Hnames, <- list_fmap_compose. done. }
  split; [done|]. split; [congruence|]. by rewrite Hd2, Hk1.
Qed.

(** Property X14.  A load that succeeds.  Every config names a component
    of the list, every component of the list has a config, no factory throws
    while the load is not cancelled, and the hooks succeed on the components
    whose load is enabled, in whichever order they were created.  Then
    [AddComponents] returns: the context holds the components it held and
    those whose load is enabled, each once, and the load is not cancelled;
    [components_cleared_] is unchanged and the load duration is that of the
    two readings of the clock.  Nothing is said of the order in which the
    tasks created the components. *)
Theorem AddComponents_healthy_load env component_list w c :
  component_context_ (manager w) = Some c ->
  load_cancelled c = false ->
  Forall (fun config => Contains component_list (Name config) = true)
         (components (config_ (manager w))) ->
  Forall (fun adder =>
            GetComponentName adder ∈ Name <$> components (config_ (manager w)) /\
            constructs_unless_cancelled (factory adder)) component_list ->
  (forall names,
     names ≡ₚ
       created c ++
       started_components
         (emplace_configs (components (config_ (manager w))) ∅) component_list ->
     hooks_outcome env names = None) ->
  exists w' c',
    AddComponents env component_list w = (Normal tt, w') /\
    component_context_ (manager w') = Some c' /\
    expected_names c' = expected_names c /\
    created c' ≡ₚ
      created c ++
      started_components
        (emplace_configs (components (config_ (manager w))) ∅) component_list /\
    load_cancelled c' = false /\
    components_cleared_ (manager w') = components_cleared_ (manager w) /\
    load_duration_ (manager w') =
      duration_cast_milliseconds
        (steady_clock env (S (clock_reads w)) - steady_clock env (clock_reads w)).
Proof.
  intros Hc Hnc Hreg Hall Hhooks.
  destruct (AddComponents_sequential_load env component_list w c Hc Hnc Hreg Hall)
    as (w' & Hrun & _ & Hcontext & Hcleared & Hduration).
  { by apply Hhooks. }
  exists w'. eexists. split; [exact Hrun|]. split; [exact Hcontext|]. done.
Qed.

Lemma AddComponents_healthy_load_witness :
  exists w' c',
    AddComponents quiet_env healthy_components
      (loading_world three_configs ["a"; "b"; "c"]) = (Normal tt, w') /\
    component_context_ (manager w') = Some c' /\
    created c' ≡ₚ ["a"; "b"; "c"] /\
    load_duration_ (manager w') = 1.
Proof.
  destruct (AddComponents_healthy_load quiet_env healthy_components
              (loading_world three_configs ["a"; "b"; "c"])
              {| expected_names := list_to_set ["a"; "b"; "c"];
                 created := []; load_cancelled := false |})
    as (w' & c' & Hrun & Hcontext & _ & Hcreated & _ & _ & Hduration).
  - vm_compute. reflexivity.
  - reflexivity.
  - by_evaluation.
  - repeat (apply Forall_cons_2; [split; [by_evaluation|]|]).
    + intros config context Hnot. eexists. reflexivity.
    + intros config context Hnot. eexists. reflexivity.
    + intros config context Hnot. eexists. unfold dependent_component.
      cbn. rewrite Hnot. reflexivity.
    + apply Forall_nil_2.
  - intros names _. reflexivity.
  - exists w', c'. split; [exact Hrun|]. split; [exact Hcontext|]. split.
    + rewrite Hcreated. vm_compute. reflexivity.
    + rewrite Hduration. vm_compute. reflexivity.
Defined.

(** ** The storage while coroutines are active, and after [Reset] *)

Lemma wait_coroutines_busy env :
  forall fuel w,
    (forall j, (j < fuel)%nat ->
       active_coroutines env (coro_polls w + j) <> 0%nat) ->
    exists w',
      wait_coroutines_idle env fuel w = (OutOfFuel, w') /\
      trace w' = trace w ++ replicate fuel (SleepForMs 10) /\
      log w' = log w /\
      pools_use_count w' = pools_use_count w /\
      manager w' = manager w.
Proof.
  induction fuel as [|fuel IH]; intros w Hbusy; cbn [wait_coroutines_idle].
  - exists w. cbn. by rewrite app_nil_r.
  - rewrite bind_run. cbn [read_active_coroutines].
    rewrite decide_False.
    2:{ specialize (Hbusy 0%nat). rewrite Nat.add_0_r in Hbusy. apply Hbusy. lia. }
    rewrite bind_run. cbn [sleep_for_ms emit].
    match goal with |- context [wait_coroutines_idle env fuel ?w1] =>
      destruct (IH w1) as (w' & -> & Ht & Hl & Hu & Hm) end.
    { intros j Hj. cbn. rewrite <- Nat.add_succ_r. apply Hbusy. lia. }
    exists w'. split; [done|]. cbn in Ht, Hl, Hu, Hm.
    rewrite Ht, <- app_assoc. done.
Qed.

(** Property X7.  As long as the coroutine pool reports active
    coroutines, [Reset] does not go past its loop: after [InitiateShutdown]
    on every task processor it sleeps 10 ms per reading and nothing else;
    no task processor is destroyed and the pools are not released. *)
Theorem Reset_waits_for_coroutines env fuel w pools :
  task_processor_pools_ (task_processors_storage_ (manager w)) = Some pools ->
  (forall j, (j < fuel)%nat ->
     active_coroutines env (coro_polls w + j) <> 0%nat) ->
  exists w',
    Reset env fuel w = (OutOfFuel, w') /\
    trace w' =
      trace w ++ (InitiateShutdown <$> processor_names w) ++
      replicate fuel (SleepForMs 10) /\
    pools_use_count w' = pools_use_count w /\
    task_processor_pools_ (task_processors_storage_ (manager w')) = Some pools /\
    dom (task_processors_map_ (task_processors_storage_ (manager w'))) =
      dom (task_processors_map_ (task_processors_storage_ (manager w))).
Proof.
  intros Hpools Hbusy. unfold processor_names.
  set (entries := map_to_list
    (task_processors_map_ (task_processors_storage_ (manager w)))) in *.
  unfold Reset, noexcept. rewrite bind_run. cbn [LOG].
  rewrite bind_run. unfold get_storage at 1. rewrite bind_run.
  cbn [get_manager ret]. cbn [manager set_log]. rewrite bind_run. fold entries.
  assert (forall (l : list (string * TaskProcessor)) w0, exists w2,
    for_each l (fun entry => TaskProcessor_InitiateShutdown entry.1) w0
      = (Normal tt, w2) /\
    trace w2 = trace w0 ++ (InitiateShutdown <$> l.*1) /\
    pools_use_count w2 = pools_use_count w0 /\
    coro_polls w2 = coro_polls w0 /\
    task_processor_pools_ (task_processors_storage_ (manager w2)) =
      task_processor_pools_ (task_processors_storage_ (manager w0)) /\
    dom (task_processors_map_ (task_processors_storage_ (manager w2))) =
      dom (task_processors_map_ (task_processors_storage_ (manager w0))))
    as Hloop.
  { induction l as [|[name tp] rest IH]; intros w0.
    - exists w0. cbn. by rewrite app_nil_r.
    - cbn [for_each]. rewrite bind_run.
      unfold TaskProcessor_InitiateShutdown at 1. rewrite !bind_run. cbn.
      match goal with |- context [for_each rest _ ?w1] =>
        destruct (IH w1) as (w2 & -> & Ht & Hu & Hp & Hq & Hd) end.
      exists w2. split; [done|]. cbn in Ht, Hu, Hp, Hq, Hd.
      rewrite Ht, <- app_assoc. repeat split; try done.
      rewrite Hd. apply dom_alter_L. }
  match goal with |- context [for_each entries
      (fun entry => TaskProcessor_InitiateShutdown _) ?w1] =>
    destruct (Hloop entries w1) as (w2 & -> & Ht2 & Hu2 & Hp2 & Hq2 & Hd2) end.
  cbn in Ht2, Hu2, Hp2, Hq2, Hd2.
  rewrite bind_run. cbn [LOG]. rewrite Hpools. rewrite bind_run.
  match goal with |- context [wait_coroutines_idle env fuel ?w1] =>
    destruct (wait_coroutines_busy env fuel w1)
      as (w3 & -> & Ht3 & _ & Hu3 & Hm3) end.
  { cbn. by rewrite Hp2. }
  cbn in Ht3, Hu3, Hm3.
  exists w3. split; [done|]. rewrite Ht3, Ht2, Hu3, Hu2, Hm3, <- app_assoc.
  cbn. rewrite Hq2, Hd2. done.
Qed.

Lemma Reset_waits_for_coroutines_witness :
  exists w',
    Reset busy_env 3 (booted_world quiet_env) = (OutOfFuel, w') /\
    pools_use_count w' = 3%nat.
Proof.
  destruct (Reset_waits_for_coroutines busy_env 3 (booted_world quiet_env)
              {| pools_coro_pool := coro_pool three_configs;
                 pools_event_thread_pool := event_thread_pool three_configs |})
    as (w' & Hrun & _ & Hcount & _).
  - vm_compute. reflexivity.
  - intros j _. vm_compute. discriminate.
  - exists w'. split; [exact Hrun|]. rewrite Hcount. vm_compute. reflexivity.
Defined.

(** Property X8.  After a [Reset] that returned, the storage is empty
    and holds no pools, so that the destructor of the storage does nothing:
    the task processors are not shut down a second time. *)
Theorem storage_dtor_after_Reset env fuel fuel' w w1 :
  Reset env fuel w = (Normal tt, w1) ->
  task_processors_storage_ (manager w1) =
    {| task_processor_pools_ := None; task_processors_map_ := ∅ |} /\
  TaskProcessorsStorage_dtor env fuel' w1 = (Normal tt, w1).
Proof.
  intros Hrun.
  assert (task_processors_storage_ (manager w1) =
    {| task_processor_pools_ := None; task_processors_map_ := ∅ |}) as Hs.
  { revert Hrun. unfold Reset, noexcept. rewrite bind_run. cbn [LOG].
    rewrite bind_run. unfold get_storage at 1. rewrite bind_run.
    cbn [get_manager ret]. cbn [manager set_log]. rewrite bind_run.
    match goal with |- context [for_each ?l
        (fun entry => TaskProcessor_InitiateShutdown _) ?w0] =>
      destruct (initiate_shutdown_loop l w0) as (w2 & -> & _) end.
    rewrite bind_run. cbn [LOG].
    destruct (task_processor_pools_ (task_processors_storage_ (manager w)))
      as [pools|]; [|done].
    rewrite bind_run.
    destruct (wait_coroutines_idle env fuel _) as [[[]|e| |] w3]; try done.
    rewrite bind_run. cbn [LOG]. rewrite bind_run.
    match goal with |- context [for_each ?l
        (fun entry => delete_TaskProcessor _) ?w0] =>
      destruct (delete_processors_loop l w0) as (w4 & -> & _) end.
    rewrite !bind_run. cbn. by intros [= <-]. }
  split; [done|].
  unfold TaskProcessorsStorage_dtor, get_storage. rewrite !bind_run. cbn.
  by rewrite Hs.
Qed.

Lemma storage_dtor_after_Reset_witness :
  TaskProcessorsStorage_dtor quiet_env 0
    (Reset quiet_env 5 (booted_world quiet_env)).2 =
  (Normal tt, (Reset quiet_env 5 (booted_world quiet_env)).2).
Proof.
  destruct (storage_dtor_after_Reset quiet_env 5 0 (booted_world quiet_env)
              (Reset quiet_env 5 (booted_world quiet_env)).2)
    as (_ & Hdtor).
  - vm_compute. reflexivity.
  - exact Hdtor.
Defined.

(** ** The consumer of the RabbitMQ sample *)

Import RabbitSample.

Lemma digit_of_pretty_N_char d :
  (d < 10)%N -> PlainDecimal.digit_of (pretty_N_char d) = Some (Z.of_N d).
Proof.
  intros Hd.
  assert (d = 0 \/ d = 1 \/ d = 2 \/ d = 3 \/ d = 4 \/ d = 5 \/ d = 6 \/
          d = 7 \/ d = 8 \/ d = 9)%N as Hcases by lia.
  repeat (destruct Hcases as [->|Hcases]; [by vm_compute|]). subst. by vm_compute.
Qed.

Lemma pretty_N_char_plain d :
  (d < 10)%N ->
  PlainDecimal.is_space (pretty_N_char d) = false /\
  forall rest,
    PlainDecimal.read_sign (String (pretty_N_char d) rest) =
      (false, O, String (pretty_N_char d) rest).
Proof.
  intros Hd.
  assert (d = 0 \/ d = 1 \/ d = 2 \/ d = 3 \/ d = 4 \/ d = 5 \/ d = 6 \/
          d = 7 \/ d = 8 \/ d = 9)%N as Hcases by lia.
  repeat (destruct Hcases as [->|Hcases]; [by split|]). subst. by split.
Qed.

Lemma read_digits_pretty_N_go x :
  exists k : nat, forall s acc,
    (PlainDecimal.read_digits (pretty_N_go x s) acc).1.1 =
    (PlainDecimal.read_digits s (acc * 10 ^ Z.of_nat k + Z.of_N x)).1.1.
Proof.
  induction (N.lt_wf_0 x) as [x _ IH].
  assert (x = 0 \/ 0 < x)%N as [->|Hpos] by lia.
  - exists O. intros s acc. rewrite pretty_N_go_0. f_equal. f_equal. f_equal. cbn. lia.
  - destruct (IH (x `div` 10)%N) as [k Hk]; [by apply N.div_lt|].
    exists (S k). intros s acc. rewrite pretty_N_go_step by done.
    rewrite Hk. cbn [PlainDecimal.read_digits].
    rewrite digit_of_pretty_N_char by (apply N.mod_lt; lia). cbn [fst].
    f_equal. f_equal. f_equal.
    rewrite N2Z.inj_div, N2Z.inj_mod. change (Z.of_N 10) with 10.
    rewrite Nat2Z.inj_succ, Z.pow_succ_r by lia.
    pose proof (Z.div_mod (Z.of_N x) 10 ltac:(lia)). lia.
Qed.

Lemma pretty_N_go_digit x :
  forall d s, (d < 10)%N ->
    exists d' rest, (d' < 10)%N /\
      pretty_N_go x (String (pretty_N_char d) s) =
        String (pretty_N_char d') rest.
Proof.
  induction (N.lt_wf_0 x) as [x _ IH]; intros d s Hd.
  assert (x = 0 \/ 0 < x)%N as [->|Hpos] by lia.
  - exists d, s. by rewrite pretty_N_go_0.
  - rewrite pretty_N_go_step by done. apply IH; [by apply N.div_lt|].
    apply N.mod_lt. lia.
Qed.

Lemma pretty_positive_digits (p : positive) :
  exists d rest, (d < 10)%N /\
    pretty_N_go (N.pos p) "" = String (pretty_N_char d) rest /\
    (PlainDecimal.read_digits (pretty_N_go (N.pos p) "") 0).1.1 = Z.pos p.
Proof.
  destruct (pretty_N_go_digit (N.pos p `div` 10) (N.pos p `mod` 10) "")
    as (d & rest & Hd & Heq); [apply N.mod_lt; lia|].
  rewrite <- pretty_N_go_step in Heq by done.
  exists d, rest. split; [done|]. split; [done|].
  destruct (read_digits_pretty_N_go (N.pos p)) as [k Hk]. rewrite Hk. cbn. done.
Qed.

Lemma read_digits_count c rest acc :
  is_Some (PlainDecimal.digit_of c) ->
  (PlainDecimal.read_digits (String c rest) acc).1.2 <> O.
Proof. intros [d Hd]. cbn. rewrite Hd. done. Qed.

Lemma stoi_digits d rest :
  (d < 10)%N ->
  stoi (String (pretty_N_char d) rest) =
    let value := (PlainDecimal.read_digits (String (pretty_N_char d) rest) 0).1.1 in
    if bool_decide (INT_MIN <= value <= INT_MAX) then StoiValue value
    else StoiOutOfRange.
Proof.
  intros Hd. destruct (pretty_N_char_plain d Hd) as [Hspace Hsign].
  unfold stoi. cbn [PlainDecimal.skip_spaces]. rewrite Hspace, Hsign.
  pose proof (read_digits_count (pretty_N_char d) rest 0) as Hcount.
  destruct (PlainDecimal.read_digits _ 0) as [[digits count] s3]. cbn in *.
  rewrite bool_decide_eq_false_2; [done|].
  apply Hcount. rewrite digit_of_pretty_N_char by done. by eexists.
Qed.

Lemma stoi_pretty (n : Z) :
  stoi (pretty n) =
    if bool_decide (INT_MIN <= n <= INT_MAX) then StoiValue n else StoiOutOfRange.
Proof.
  destruct n as [|p|p].
  - by vm_compute.
  - change (pretty (Z.pos p)) with (pretty_N_go (N.pos p) "").
    destruct (pretty_positive_digits p) as (d & rest & Hd & Heq & Hval).
    rewrite Heq in Hval |- *. rewrite stoi_digits by done. cbn zeta.
    by rewrite Hval.
  - change (pretty (Z.neg p)) with ("-" +:+ pretty_N_go (N.pos p) "").
    destruct (pretty_positive_digits p) as (d & rest & Hd & Heq & Hval).
    rewrite Heq in Hval |- *.
    change ("-" +:+ String (pretty_N_char d) rest)
      with (String "-"%char (String (pretty_N_char d) rest)).
    unfold stoi.
    change (PlainDecimal.skip_spaces (String "-" (String (pretty_N_char d) rest)))
      with (O, String "-"%char (String (pretty_N_char d) rest)).
    cbn [PlainDecimal.read_sign].
    pose proof (read_digits_count (pretty_N_char d) rest 0) as Hcount.
    destruct (PlainDecimal.read_digits _ 0) as [[digits count] s3]. cbn in *.
    rewrite bool_decide_eq_false_2.
    2:{ apply Hcount. rewrite digit_of_pretty_N_char by done. by eexists. }
    subst digits. done.
Qed.

Lemma stoi_range message value :
  stoi message = StoiValue value -> INT_MIN <= value <= INT_MAX.
Proof.
  unfold stoi.
  destruct (PlainDecimal.skip_spaces message) as [? s1].
  destruct (PlainDecimal.read_sign s1) as [[negative ?] s2].
  destruct (PlainDecimal.read_digits s2 0) as [[digits count] ?].
  case_bool_decide; [done|].
  case_bool_decide; [|done]. by intros [= <-].
Qed.

(** Property X15.  [Process] on the decimal text of an integer [n]
    appends [n] to the storage when [n] is an [int]; otherwise
    [std::out_of_range] leaves [Process] and the storage is as before. *)
Theorem Process_decimal_text (n : Z) self :
  Process (pretty n) self =
    if bool_decide (INT_MIN <= n <= INT_MAX)
    then (Normal tt, {| storage_ := storage_ self ++ [n] |})
    else (Thrown (out_of_range "stoi"), self).
Proof.
  unfold Process. rewrite stoi_pretty. by case_bool_decide.
Qed.

(** Property X16.  Whatever the message, [Process] either appends one
    value, which is within the range of [int], at the end of the storage, or
    throws what [std::stoi] throws ([std::invalid_argument] or
    [std::out_of_range]) and leaves the consumer as it was. *)
Theorem Process_appends_or_throws message self :
  (exists value,
     INT_MIN <= value <= INT_MAX /\
     Process message self =
       (Normal tt, {| storage_ := storage_ self ++ [value] |}))
  \/ (exists e,
        Process message self = (Thrown e, self) /\
        exists msg, e = invalid_argument msg \/ e = out_of_range msg).
Proof.
  unfold Process. destruct (stoi message) as [value| |] eqn:E.
  - left. exists value. split; [by apply stoi_range in E|done].
  - right. eexists. split; [done|]. eauto.
  - right. eexists. split; [done|]. eauto.
Qed.

(** Property X17.  [GetConsumedMessages] returns the consumed
    messages in ascending order, each as often as it was consumed, and
    leaves the storage as it is. *)
Theorem GetConsumedMessages_sorted self :
  (GetConsumedMessages self).2 = self /\
  Sorted Z.le (GetConsumedMessages self).1 /\
  (GetConsumedMessages self).1 ≡ₚ storage_ self.
Proof.
  split; [done|]. split; cbn.
  - apply (Sorted_merge_sort Z.le).
  - apply merge_sort_Permutation.
Qed.

Lemma sorted_messages_unique (l1 l2 : list Z) :
  l1 ≡ₚ l2 -> merge_sort Z.le l1 = merge_sort Z.le l2.
Proof.
  intros Hp. apply (Sorted_unique Z.le).
  - apply (Sorted_merge_sort Z.le).
  - apply (Sorted_merge_sort Z.le).
  - by rewrite !merge_sort_Permutation.
Qed.

(** Property X18.  The outcome of [Process] on a message does not
    depend on what was consumed before, and two messages consumed in either
    order give the same [GetConsumedMessages]. *)
Theorem Process_order_irrelevant first second self :
  (Process second (Process first self).2).1 = (Process second self).1 /\
  (GetConsumedMessages (Process second (Process first self).2).2).1 =
  (GetConsumedMessages (Process first (Process second self).2).2).1.
Proof.
  unfold Process, GetConsumedMessages.
  destruct (stoi first) as [a| |], (stoi second) as [b| |]; cbn; split; try done.
  apply sorted_messages_unique. rewrite <- !app_assoc. cbn.
  apply Permutation_app_head. apply perm_swap.
Qed.

Example Process_examples :
  Process "42" {| storage_ := [7] |} = (Normal tt, {| storage_ := [7; 42] |}) /\
  Process " -3 apples" {| storage_ := [] |} = (Normal tt, {| storage_ := [-3] |}) /\
  Process "forty-two" {| storage_ := [7] |} =
    (Thrown (invalid_argument "stoi"), {| storage_ := [7] |}) /\
  Process "2147483648" {| storage_ := [7] |} =
    (Thrown (out_of_range "stoi"), {| storage_ := [7] |}) /\
  (GetConsumedMessages {| storage_ := [3; 1; 2; 1] |}).1 = [1; 1; 2; 3].
Proof. repeat split; vm_compute; reflexivity. Qed.
